(** * charm-refresh: in-place rolling refresh of a Juju application on Kubernetes

    Shallow embedding of [charm_refresh/_main.py] and verification of its
    documented behaviour.

    Conventions of the embedding

    - Python [int] is [Z]; [str] is [string]; [Optional[T]] is [option T].
    - A databag (a JSON object with a fixed set of keys written by this
      library) is a record with one [option] field per key: [None] is
      "key absent".
    - A Python exception is a constructor of [Exn]; a method that can raise
      returns an [Outcome].
    - Messages built with f-strings (statuses, action results) are kept as
      constructors of [Message] carrying the interpolated data.
    - The files of the charm and the objects of the Kubernetes API are
      given by what the code reads of them.
    - [logger] calls are not modelled. *)

From stdpp Require Import base gmap list strings.
From Stdlib Require Import ZArith Lia Sorting.Sorted Ascii.

Local Open Scope string_scope.
Local Open Scope list_scope.
Local Open Scope Z_scope.

(** ** Exceptions *)

Inductive Exn :=
| ValueError
| TypeError
| KeyError
| IndexError
| UnboundLocalError
| AssertionError
| Exception_
| KubernetesJujuAppNotTrusted
| UnitTearingDown
| PeerRelationMissing.

Inductive Outcome (A : Type) :=
| Returned (a : A)
| Raised (e : Exn).
Arguments Returned {A} a.
Arguments Raised {A} e.

(** ** [_PauseAfter]: the [pause_after_unit_refresh] config option *)

Module PauseAfter.

Inductive _PauseAfter := NONE | FIRST | ALL | UNKNOWN.

#[global] Instance _PauseAfter_eq_dec : EqDecision _PauseAfter.
Proof. solve_decision. Defined.

(** The [str] value of each member. *)
Definition value (p : _PauseAfter) : string :=
  match p with
  | NONE => "none"
  | FIRST => "first"
  | ALL => "all"
  | UNKNOWN => "unknown"
  end.

(** [enum.Enum] lookup by value, before [_missing_] is consulted. *)
Definition lookup_by_value (s : string) : option _PauseAfter :=
  if bool_decide (s = "none") then Some NONE
  else if bool_decide (s = "first") then Some FIRST
  else if bool_decide (s = "all") then Some ALL
  else if bool_decide (s = "unknown") then Some UNKNOWN
  else None.

Definition _missing_ (s : string) : _PauseAfter := UNKNOWN.

(** [_PauseAfter(value)] *)
Definition call (s : string) : _PauseAfter :=
  match lookup_by_value s with
  | Some p => p
  | None => _missing_ s
  end.

Definition priorities (p : _PauseAfter) : Z :=
  match p with
  | NONE => 0
  | FIRST => 1
  | ALL => 2
  | UNKNOWN => 3
  end.

(** [__gt__] as written in the class body (both operands are members). *)
Definition __gt__ (self other : _PauseAfter) : bool :=
  priorities other <? priorities self.

(** *** The other rich comparisons

    The class is declared [class _PauseAfter(str, enum.Enum)] and decorated
    with [functools.total_ordering].  The decorator takes as "roots" every
    comparison whose attribute on the class is not the one of [object], and
    adds only the comparisons that are not roots.  [str] defines all four,
    so on this class every comparison is a root. *)

Inductive CmpOp := op_lt | op_le | op_gt | op_ge.

#[global] Instance CmpOp_eq_dec : EqDecision CmpOp.
Proof. solve_decision. Defined.

Inductive Provider :=
| FromObject          (* inherited from object: returns NotImplemented *)
| FromStr             (* inherited from str: compares the values *)
| FromClassBody       (* defined in the class body *)
| FromTotalOrdering (root : CmpOp).  (* synthesised by the decorator *)

(** Method resolution on the undecorated class. *)
Definition class_attribute (op : CmpOp) : Provider :=
  match op with
  | op_gt => FromClassBody
  | _ => FromStr
  end.

Definition is_root (attr : CmpOp → Provider) (op : CmpOp) : bool :=
  match attr op with
  | FromObject => false
  | _ => true
  end.

(** [max(roots)]: the decorator prefers [__lt__] to [__le__] to [__gt__]
    to [__ge__]. *)
Definition preferred_root (attr : CmpOp → Provider) : option CmpOp :=
  if is_root attr op_lt then Some op_lt
  else if is_root attr op_le then Some op_le
  else if is_root attr op_gt then Some op_gt
  else if is_root attr op_ge then Some op_ge
  else None.

Definition total_ordering (attr : CmpOp → Provider) : Outcome (CmpOp → Provider) :=
  match preferred_root attr with
  | None => Raised ValueError
  | Some root =>
      Returned (λ op, if is_root attr op then attr op else FromTotalOrdering root)
  end.

(** [str] comparison of two values (code point order). *)
Definition str_compare (op : CmpOp) (a b : string) : bool :=
  match op with
  | op_lt => String.ltb a b
  | op_le => String.leb a b
  | op_gt => String.ltb b a
  | op_ge => String.leb b a
  end.

(** The methods [functools] derives from a root ([_lt_from_gt] and the
    like), for a root that returns a [bool]. *)
Definition derived (root op : CmpOp) (root_result eq : bool) : bool :=
  match root, op with
  | op_gt, op_lt => negb root_result && negb eq
  | op_gt, op_ge => root_result || eq
  | op_gt, op_le => negb root_result
  | op_lt, op_gt => negb root_result && negb eq
  | op_lt, op_le => root_result || eq
  | op_lt, op_ge => negb root_result
  | op_le, op_ge => negb root_result || eq
  | op_le, op_lt => root_result && negb eq
  | op_le, op_gt => negb root_result
  | op_ge, op_le => negb root_result || eq
  | op_ge, op_gt => root_result && negb eq
  | op_ge, op_lt => negb root_result
  | _, _ => root_result
  end.

Definition root_compare (attr : CmpOp → Provider) (root : CmpOp) (a b : _PauseAfter) : bool :=
  match attr root with
  | FromClassBody => __gt__ a b
  | _ => str_compare root (value a) (value b)
  end.

(** [a op b] on two members of the decorated class; [None] is
    [NotImplemented] from both operands ([TypeError]). *)
Definition compare (op : CmpOp) (a b : _PauseAfter) : option bool :=
  match total_ordering class_attribute with
  | Raised _ => None
  | Returned attr =>
      match attr op with
      | FromObject => None
      | FromStr => Some (str_compare op (value a) (value b))
      | FromClassBody => Some (__gt__ a b)
      | FromTotalOrdering root =>
          Some (derived root op (root_compare class_attribute root a b)
                  (bool_decide (a = b)))
      end
  end.

(** [max(iterable)] over members: the builtin keeps the first maximal
    item, comparing with [>]; it raises [ValueError] on an empty
    iterable. *)
Definition max_loop (l : list _PauseAfter) (maxitem : _PauseAfter) : _PauseAfter :=
  foldl (λ m item, if __gt__ item m then item else m) maxitem l.

Definition builtin_max (l : list _PauseAfter) : Outcome _PauseAfter :=
  match l with
  | [] => Raised ValueError
  | x :: l' => Returned (max_loop l' x)
  end.

End PauseAfter.

(** ** Messages shown to the user

    One constructor per message template of the source; the arguments are
    the values interpolated in the f-string that the logic depends on. *)

Inductive Message :=
(* force-refresh-start *)
| Must_run_action_on_unit (number : Z)
| No_refresh_in_progress
| Must_run_with_at_least_one_parameter_false
| Unit_has_not_yet_refreshed_to_latest_app_revision (number : Z)
| Refresh_already_started
| Skipping_check_workload_container
| Checked_workload_container
| Container_version_not_validated
| Skipping_check_compatibility
| Checked_compatibility
| Refresh_incompatible
| Skipping_pre_refresh_checks
| Running_pre_refresh_checks
| Pre_refresh_check_failed (message : string)
| Pre_refresh_checks_successful
| Workload_refreshed_on_unit_starting (number : Z)
(* unit status *)
| Juju_refresh_was_run_with_missing_or_incorrect_OCI_resource
| Refresh_incompatible_rollback_with_instructions
| Rollback_with_juju_refresh_pre_refresh_check_failed (message : string)
(* resume-refresh *)
| Must_run_action_on_leader_unit
| Pause_after_unit_refresh_is_none_action_not_applicable
| Ignoring_health_of_refreshed_units
| Attempting_to_refresh_unit (number : Z)
| Unit_is_unhealthy_refresh_will_not_resume (number : Z)
| Refresh_resumed_unit_is_refreshing_next (number : Z)
| Unit_is_refreshing_next (number : Z)
(* app status *)
| Run_juju_trust
| Pause_after_unit_refresh_config_must_be_set
| Refreshing_to_rollback_see_docs
| Refreshing_check_units_are_healthy_and_run_resume_refresh (partition : Z)
| Refreshing_to_pause_refresh_run_juju_config
(* other actions *)
| Unit_tearing_down
| Refresh_already_in_progress
| Charm_is_not_ready_for_refresh (message : string)
| Charm_is_ready_for_refresh.

Inductive Status :=
| ActiveStatus (message : Message)
| WaitingStatus (message : Message)
| MaintenanceStatus (message : Message)
| BlockedStatus (message : Message).

(** What an action event has been told: [event.fail], [event.log] and
    [event.result = ...], oldest first. *)
Inductive ActionOutput :=
| Fail (message : Message)
| Log (message : Message)
| Result (message : Message).

(** ** Events

    The parameters of an action are the ones its schema declares; the three
    actions of this library take booleans. *)

Record UnitName := { unit_app : string; unit_number : Z }.

#[global] Instance UnitName_eq_dec : EqDecision UnitName.
Proof. solve_decision. Defined.

Inductive Action :=
| pre_refresh_check
| force_refresh_start
    (check_workload_container check_compatibility run_pre_refresh_checks : bool)
| resume_refresh (check_health_of_refreshed_units : bool)
| other_action (name : string).

Inductive Event :=
| ActionEvent (action : Action)
| RelationDepartedEvent (departing_unit : UnitName)
| StopEvent
| OtherEvent.

(** ** Units, databags and local state *)

(** A unit of this app together with what its pod shows. *)
Record _KubernetesUnit := {
  number : Z;
  controller_revision : string;
  pod_uid : string }.

(** A unit's databag in the [refresh-v-three] peer relation. *)
Record UnitDatabag := {
  next_unit_allowed_to_refresh_if_app_controller_revision_hash_equals : option string;
  refresh_started_if_app_controller_revision_hash_in : option (list string);
  pod_uids_of_units_that_are_tearing_down : option (list string);
  pause_after_unit_refresh_config : option string;
  _unused_pod_uid_after_pod_restart_and_partition_raised : option string;
  _unused_controller_revision_during_last_stop_event : option string }.

Definition empty_unit_databag : UnitDatabag :=
  {| next_unit_allowed_to_refresh_if_app_controller_revision_hash_equals := None;
     refresh_started_if_app_controller_revision_hash_in := None;
     pod_uids_of_units_that_are_tearing_down := None;
     pause_after_unit_refresh_config := None;
     _unused_pod_uid_after_pod_restart_and_partition_raised := None;
     _unused_controller_revision_during_last_stop_event := None |}.

(** The app databag.  [original_workload_version] can hold JSON [null]:
    the outer [option] is the presence of the key. *)
Record AppDatabag := {
  app_refresh_started_if_app_controller_revision_hash_in : option (list string);
  original_workload_version : option (option string);
  original_workload_container_version : option string;
  original_installed_workload_container_matched_pinned_container : option bool;
  original_charm_version : option string;
  original_charm_revision : option string }.

(** The peer relation: the databag of each unit that is in the relation,
    keyed by unit number, and the app databag.  [my_unit] is the entry of
    [charm.unit]; [my_app_ro] and (on the leader) [my_app_rw] are the app
    databag. *)
Record PeerRelation := {
  unit_databags : gmap Z UnitDatabag;
  my_app : AppDatabag }.

(** Files under [_LOCAL_STATE]: a flag file exists or not; the JSON file
    holds a list of pod uids when it exists. *)
Record LocalState := {
  kubernetes_unit_tearing_down : bool;
  kubernetes_unit_tearing_down_logged : bool;
  kubernetes_had_opportunity_to_raise_partition_after_pod_restart : bool;
  kubernetes_pod_ids_of_units_that_are_tearing_down_json : option (list string);
  kubernetes_refresh_started : bool }.

(** ** The world an evaluation runs in *)

(** The automatic checks, in the order [_start_refresh] reaches them, and
    the callbacks of [CharmSpecific].  Ghost state: the list records which
    of them an evaluation entered. *)
Inductive Check :=
| check_workload_container_entered
| check_compatibility_entered
| is_compatible_called (old_charm_version new_charm_version : string)
                       (old_workload_version : option string)
                       (new_workload_version : string)
| run_pre_refresh_checks_after_1_unit_refreshed_called
| run_pre_refresh_checks_before_any_units_refreshed_called.

(** Everything an evaluation can change. *)
Record World := {
  partition : Z;                 (* StatefulSet rollingUpdate partition *)
  patches : list Z;              (* arguments of [_set_partition], oldest first *)
  local_state : LocalState;
  relation : PeerRelation;
  action_output : list ActionOutput;
  app_status : option Status;    (* last assignment to [charm.app_status] *)
  checks : list Check }.

(** An entry of [this_pod.status.containerStatuses]. *)
Record ContainerStatus := {
  status_name : string;
  imageID : string }.

(** What an evaluation reads and cannot change: the [charm] module, the
    Kubernetes API, the charm's files and the [CharmSpecific] callbacks.
    The files are given by what is read of them: of [refresh_versions.toml]
    the strings under "charm" and "workload", of [metadata.yaml] the
    [upstream-source] of the OCI resource and the names of the containers
    that use the resource.  A callback that can raise [PrecheckFailed] is
    given by what it would do if called: [None] returns, [Some message]
    raises. *)
Record Env := {
  event : Event;
  charm_unit : Z;                        (* charm.unit.number *)
  charm_app : string;
  is_leader : bool;
  config_pause_after_unit_refresh : string;
  status_allowed : bool;                 (* SelfSubjectAccessReview: patch statefulset *)
  update_revision : string;              (* StatefulSet status.updateRevision *)
  pods : list _KubernetesUnit;
  (* this_pod.status.containerStatuses; [None] when the pod has none *)
  this_pod_containerStatuses : option (list ContainerStatus);
  peer_relation_available : bool;
  (* versions["charm"] and versions["workload"]; [None] for a missing key *)
  refresh_versions_toml_charm : option string;
  refresh_versions_toml_workload : option string;
  (* resources[oci_resource_name]["upstream-source"]; [None] unless a str *)
  metadata_yaml_upstream_source : option string;
  (* the keys of "containers" whose "resource" is [oci_resource_name] *)
  metadata_yaml_workload_containers : list string;
  juju_charm_file : string;              (* .juju-charm, stripped *)
  workload_name : string;
  CharmVersion_valid : string → bool;    (* whether CharmVersion(s) returns *)
  is_compatible : string → string → option string → string → bool;
  run_pre_refresh_checks_after_1_unit_refreshed : option string;
  run_pre_refresh_checks_before_any_units_refreshed : option string }.

(** ** A state and exception monad over [World] *)

Definition M (A : Type) : Type := World → Outcome A * World.

#[global] Instance M_ret : MRet M := λ A a w, (Returned a, w).

#[global] Instance M_bind : MBind M := λ A B k m w,
  match m w with
  | (Returned a, w') => k a w'
  | (Raised e, w') => (Raised e, w')
  end.

Definition raise {A} (e : Exn) : M A := λ w, (Raised e, w).

(** [if c: body] for a body that returns nothing. *)
Definition when (c : bool) (body : M ()) : M () :=
  if c then body else mret ().

Definition get_world : M World := λ w, (Returned w, w).

Definition set_relation (r : PeerRelation) : M () := λ w,
  (Returned (),
   {| partition := partition w; patches := patches w; local_state := local_state w;
      relation := r; action_output := action_output w; app_status := app_status w;
      checks := checks w |}).

Definition set_local_state (l : LocalState) : M () := λ w,
  (Returned (),
   {| partition := partition w; patches := patches w; local_state := l;
      relation := relation w; action_output := action_output w;
      app_status := app_status w; checks := checks w |}).

Definition output (o : ActionOutput) : M () := λ w,
  (Returned (),
   {| partition := partition w; patches := patches w; local_state := local_state w;
      relation := relation w; action_output := action_output w ++ [o];
      app_status := app_status w; checks := checks w |}).

(** [event.fail(message)], [event.log(message)], [event.result = message] *)
Definition event_fail (m : Message) : M () := output (Fail m).
Definition event_log (m : Message) : M () := output (Log m).
Definition event_result (m : Message) : M () := output (Result m).

(** [charm.app_status = status] *)
Definition set_app_status (s : Status) : M () := λ w,
  (Returned (),
   {| partition := partition w; patches := patches w; local_state := local_state w;
      relation := relation w; action_output := action_output w;
      app_status := Some s; checks := checks w |}).

Definition enter (c : Check) : M () := λ w,
  (Returned (),
   {| partition := partition w; patches := patches w; local_state := local_state w;
      relation := relation w; action_output := action_output w;
      app_status := app_status w; checks := checks w ++ [c] |}).

(** [_Kubernetes._get_partition] *)
Definition _get_partition : M Z := λ w, (Returned (partition w), w).

(** [_Kubernetes._set_partition]: patches the StatefulSet. *)
Definition _set_partition (value : Z) : M () := λ w,
  (Returned (),
   {| partition := value; patches := patches w ++ [value];
      local_state := local_state w; relation := relation w;
      action_output := action_output w; app_status := app_status w;
      checks := checks w |}).

(** *** Databag access *)

(** [self._relation.get(unit, {})] *)
Definition relation_get (r : PeerRelation) (unit : Z) : UnitDatabag :=
  default empty_unit_databag (unit_databags r !! unit).

(** [self._relation.my_unit] of the unit [me] *)
Definition my_unit (me : Z) : M UnitDatabag := λ w,
  (Returned (relation_get (relation w) me), w).

Definition set_my_unit (me : Z) (d : UnitDatabag) : M () := λ w,
  set_relation
    {| unit_databags := <[me := d]> (unit_databags (relation w));
       my_app := my_app (relation w) |} w.

Definition my_app_ro : M AppDatabag := λ w, (Returned (my_app (relation w)), w).

Definition set_my_app_rw (d : AppDatabag) : M () := λ w,
  set_relation {| unit_databags := unit_databags (relation w); my_app := d |} w.

Definition get_local_state : M LocalState := λ w, (Returned (local_state w), w).

(** [sequence.append(x)] guarded by [if x not in sequence] *)
Definition append_if_missing (x : string) (l : list string) : list string :=
  if bool_decide (x ∈ l) then l else l ++ [x].

(** Field updates of a unit databag ([databag[key] = value]). *)
Definition with_refresh_started (d : UnitDatabag) (v : option (list string)) : UnitDatabag :=
  {| next_unit_allowed_to_refresh_if_app_controller_revision_hash_equals :=
       next_unit_allowed_to_refresh_if_app_controller_revision_hash_equals d;
     refresh_started_if_app_controller_revision_hash_in := v;
     pod_uids_of_units_that_are_tearing_down := pod_uids_of_units_that_are_tearing_down d;
     pause_after_unit_refresh_config := pause_after_unit_refresh_config d;
     _unused_pod_uid_after_pod_restart_and_partition_raised :=
       _unused_pod_uid_after_pod_restart_and_partition_raised d;
     _unused_controller_revision_during_last_stop_event :=
       _unused_controller_revision_during_last_stop_event d |}.

Definition with_next_unit_allowed (d : UnitDatabag) (v : option string) : UnitDatabag :=
  {| next_unit_allowed_to_refresh_if_app_controller_revision_hash_equals := v;
     refresh_started_if_app_controller_revision_hash_in :=
       refresh_started_if_app_controller_revision_hash_in d;
     pod_uids_of_units_that_are_tearing_down := pod_uids_of_units_that_are_tearing_down d;
     pause_after_unit_refresh_config := pause_after_unit_refresh_config d;
     _unused_pod_uid_after_pod_restart_and_partition_raised :=
       _unused_pod_uid_after_pod_restart_and_partition_raised d;
     _unused_controller_revision_during_last_stop_event :=
       _unused_controller_revision_during_last_stop_event d |}.

Definition with_pod_uids_tearing_down (d : UnitDatabag) (v : option (list string)) : UnitDatabag :=
  {| next_unit_allowed_to_refresh_if_app_controller_revision_hash_equals :=
       next_unit_allowed_to_refresh_if_app_controller_revision_hash_equals d;
     refresh_started_if_app_controller_revision_hash_in :=
       refresh_started_if_app_controller_revision_hash_in d;
     pod_uids_of_units_that_are_tearing_down := v;
     pause_after_unit_refresh_config := pause_after_unit_refresh_config d;
     _unused_pod_uid_after_pod_restart_and_partition_raised :=
       _unused_pod_uid_after_pod_restart_and_partition_raised d;
     _unused_controller_revision_during_last_stop_event :=
       _unused_controller_revision_during_last_stop_event d |}.

Definition with_pause_after_config (d : UnitDatabag) (v : option string) : UnitDatabag :=
  {| next_unit_allowed_to_refresh_if_app_controller_revision_hash_equals :=
       next_unit_allowed_to_refresh_if_app_controller_revision_hash_equals d;
     refresh_started_if_app_controller_revision_hash_in :=
       refresh_started_if_app_controller_revision_hash_in d;
     pod_uids_of_units_that_are_tearing_down := pod_uids_of_units_that_are_tearing_down d;
     pause_after_unit_refresh_config := v;
     _unused_pod_uid_after_pod_restart_and_partition_raised :=
       _unused_pod_uid_after_pod_restart_and_partition_raised d;
     _unused_controller_revision_during_last_stop_event :=
       _unused_controller_revision_during_last_stop_event d |}.

Definition with_unused_pod_uid (d : UnitDatabag) (v : option string) : UnitDatabag :=
  {| next_unit_allowed_to_refresh_if_app_controller_revision_hash_equals :=
       next_unit_allowed_to_refresh_if_app_controller_revision_hash_equals d;
     refresh_started_if_app_controller_revision_hash_in :=
       refresh_started_if_app_controller_revision_hash_in d;
     pod_uids_of_units_that_are_tearing_down := pod_uids_of_units_that_are_tearing_down d;
     pause_after_unit_refresh_config := pause_after_unit_refresh_config d;
     _unused_pod_uid_after_pod_restart_and_partition_raised := v;
     _unused_controller_revision_during_last_stop_event :=
       _unused_controller_revision_during_last_stop_event d |}.

Definition with_unused_controller_revision (d : UnitDatabag) (v : option string) : UnitDatabag :=
  {| next_unit_allowed_to_refresh_if_app_controller_revision_hash_equals :=
       next_unit_allowed_to_refresh_if_app_controller_revision_hash_equals d;
     refresh_started_if_app_controller_revision_hash_in :=
       refresh_started_if_app_controller_revision_hash_in d;
     pod_uids_of_units_that_are_tearing_down := pod_uids_of_units_that_are_tearing_down d;
     pause_after_unit_refresh_config := pause_after_unit_refresh_config d;
     _unused_pod_uid_after_pod_restart_and_partition_raised :=
       _unused_pod_uid_after_pod_restart_and_partition_raised d;
     _unused_controller_revision_during_last_stop_event := v |}.

Definition with_app_refresh_started (d : AppDatabag) (v : option (list string)) : AppDatabag :=
  {| app_refresh_started_if_app_controller_revision_hash_in := v;
     original_workload_version := original_workload_version d;
     original_workload_container_version := original_workload_container_version d;
     original_installed_workload_container_matched_pinned_container :=
       original_installed_workload_container_matched_pinned_container d;
     original_charm_version := original_charm_version d;
     original_charm_revision := original_charm_revision d |}.

(** ** [_OriginalVersions]: the versions after the last completed refresh *)

Module OriginalVersions.

Record _OriginalVersions := {
  workload : option string;
  workload_container : string;
  installed_workload_container_matched_pinned_container : bool;
  charm : string;                  (* CharmVersion, by its string *)
  charm_revision_raw : string }.

(** [__post_init__]: [None] when it returns, the exception otherwise. *)
Definition __post_init__ (self : _OriginalVersions) : option Exn :=
  if installed_workload_container_matched_pinned_container self
     && bool_decide (workload self = None)
  then Some ValueError
  else if negb (installed_workload_container_matched_pinned_container self)
          && negb (bool_decide (workload self = None))
  then Some ValueError
  else None.

(** The dataclass constructor: the generated [__init__] stores the fields
    and calls [__post_init__]. *)
Definition new (workload : option string) (workload_container : string)
    (installed_workload_container_matched_pinned_container : bool)
    (charm charm_revision_raw : string) : Outcome _OriginalVersions :=
  let self :=
    {| workload := workload;
       workload_container := workload_container;
       installed_workload_container_matched_pinned_container :=
         installed_workload_container_matched_pinned_container;
       charm := charm;
       charm_revision_raw := charm_revision_raw |} in
  match __post_init__ self with
  | Some e => Raised e
  | None => Returned self
  end.

(** [from_app_databag]: a missing key ([KeyError]), an invalid charm
    version or a failed [__post_init__] ([ValueError]) all become
    [ValueError]. *)
Definition from_app_databag (CharmVersion_valid : string → bool) (databag : AppDatabag)
    : Outcome _OriginalVersions :=
  match original_workload_version databag,
        original_workload_container_version databag,
        original_installed_workload_container_matched_pinned_container databag,
        original_charm_version databag,
        original_charm_revision databag with
  | Some workload, Some workload_container, Some matched, Some charm, Some revision =>
      if CharmVersion_valid charm then
        match new workload workload_container matched charm revision with
        | Returned v => Returned v
        | Raised _ => Raised ValueError
        end
      else Raised ValueError
  | _, _, _, _, _ => Raised ValueError
  end.

(** [write_to_app_databag]: [databag.update(new_values)] *)
Definition write_to_app_databag (self : _OriginalVersions) (databag : AppDatabag) : AppDatabag :=
  {| app_refresh_started_if_app_controller_revision_hash_in :=
       app_refresh_started_if_app_controller_revision_hash_in databag;
     original_workload_version := Some (workload self);
     original_workload_container_version := Some (workload_container self);
     original_installed_workload_container_matched_pinned_container :=
       Some (installed_workload_container_matched_pinned_container self);
     original_charm_version := Some (charm self);
     original_charm_revision := Some (charm_revision_raw self) |}.

End OriginalVersions.

(** ** [_Kubernetes] *)

(** The attributes of a [_Kubernetes] object.  [_refresh_started] is only
    assigned while a refresh is in progress, and only read then. *)
Record _Kubernetes := {
  _in_progress : bool;
  _app_controller_revision : string;
  _units : list _KubernetesUnit;          (* highest to lowest unit number *)
  _unit_controller_revision : string;
  _units_not_tearing_down : list _KubernetesUnit;
  _installed_charm_version : string;
  _pinned_workload_version : string;
  _pinned_workload_container_version : string;
  _installed_workload_container_version : option string;
  _pause_after : PauseAfter._PauseAfter;
  _refresh_started : bool;
  _unit_status_higher_priority : option Status;
  _app_status_higher_priority : option Status }.

Definition with__refresh_started (self : _Kubernetes) (v : bool) : _Kubernetes :=
  {| _in_progress := _in_progress self;
     _app_controller_revision := _app_controller_revision self;
     _units := _units self;
     _unit_controller_revision := _unit_controller_revision self;
     _units_not_tearing_down := _units_not_tearing_down self;
     _installed_charm_version := _installed_charm_version self;
     _pinned_workload_version := _pinned_workload_version self;
     _pinned_workload_container_version := _pinned_workload_container_version self;
     _installed_workload_container_version := _installed_workload_container_version self;
     _pause_after := _pause_after self;
     _refresh_started := v;
     _unit_status_higher_priority := _unit_status_higher_priority self;
     _app_status_higher_priority := _app_status_higher_priority self |}.

Definition with__unit_status_higher_priority (self : _Kubernetes) (v : option Status)
    : _Kubernetes :=
  {| _in_progress := _in_progress self;
     _app_controller_revision := _app_controller_revision self;
     _units := _units self;
     _unit_controller_revision := _unit_controller_revision self;
     _units_not_tearing_down := _units_not_tearing_down self;
     _installed_charm_version := _installed_charm_version self;
     _pinned_workload_version := _pinned_workload_version self;
     _pinned_workload_container_version := _pinned_workload_container_version self;
     _installed_workload_container_version := _installed_workload_container_version self;
     _pause_after := _pause_after self;
     _refresh_started := _refresh_started self;
     _unit_status_higher_priority := v;
     _app_status_higher_priority := _app_status_higher_priority self |}.

Definition with__app_status_higher_priority (self : _Kubernetes) (v : option Status)
    : _Kubernetes :=
  {| _in_progress := _in_progress self;
     _app_controller_revision := _app_controller_revision self;
     _units := _units self;
     _unit_controller_revision := _unit_controller_revision self;
     _units_not_tearing_down := _units_not_tearing_down self;
     _installed_charm_version := _installed_charm_version self;
     _pinned_workload_version := _pinned_workload_version self;
     _pinned_workload_container_version := _pinned_workload_container_version self;
     _installed_workload_container_version := _installed_workload_container_version self;
     _pause_after := _pause_after self;
     _refresh_started := _refresh_started self;
     _unit_status_higher_priority := _unit_status_higher_priority self;
     _app_status_higher_priority := v |}.

(** [x in databag.get(key, tuple())] *)
Definition in_hashes (x : string) (hashes : option (list string)) : bool :=
  bool_decide (x ∈ default [] hashes).

(** Lift a pure outcome into the monad. *)
Definition lift {A} (o : Outcome A) : M A := λ w, (o, w).

(** *** The [next_unit_allowed_to_refresh] property (getter) *)
Definition next_unit_allowed_to_refresh (env : Env) (self : _Kubernetes) : M bool :=
  d ← my_unit (charm_unit env);
  mret (bool_decide
          (next_unit_allowed_to_refresh_if_app_controller_revision_hash_equals d
           = Some (_unit_controller_revision self))).

(** *** The [workload_allowed_to_start] property *)
Definition workload_allowed_to_start (env : Env) (self : _Kubernetes) : M bool :=
  if negb (_in_progress self) then mret true
  else
    w ← get_world;
    if existsb
         (λ unit, in_hashes (_unit_controller_revision self)
                    (refresh_started_if_app_controller_revision_hash_in
                       (relation_get (relation w) (number unit))))
         (_units self)
    then mret true
    else if in_hashes (_unit_controller_revision self)
              (app_refresh_started_if_app_controller_revision_hash_in (my_app (relation w)))
    then mret true
    else
      original_versions ←
        lift (OriginalVersions.from_app_databag (CharmVersion_valid env) (my_app (relation w)));
      if bool_decide (OriginalVersions.charm original_versions = _installed_charm_version self)
         && bool_decide (Some (OriginalVersions.workload_container original_versions)
                         = _installed_workload_container_version self)
      then mret true
      else mret false.

(** *** [_start_refresh] *)

(** The valid [force-refresh-start] action event, with its parameters. *)
Record _ForceRefreshStartAction := {
  check_workload_container : bool;
  check_compatibility : bool;
  run_pre_refresh_checks : bool }.

(** [for parameter in (...): if parameter is False: break]: whether the
    loop left through [break]. *)
Definition any_parameter_is_False (parameters : list bool) : bool :=
  existsb negb parameters.

(** [_ForceRefreshStartAction.__init__]: [None] stands for the local
    exception [_InvalidForceEvent], which the only caller catches. *)
Definition _ForceRefreshStartAction__init__ (env : Env)
    (first_unit_to_refresh : _KubernetesUnit) (in_progress : bool)
    : M (option _ForceRefreshStartAction) :=
  match event env with
  | ActionEvent (force_refresh_start cwc cc rprc) =>
      if negb (bool_decide (charm_unit env = number first_unit_to_refresh)) then
        event_fail (Must_run_action_on_unit (number first_unit_to_refresh));;
        mret None
      else if negb in_progress then
        event_fail No_refresh_in_progress;;
        mret None
      else if any_parameter_is_False [cwc; cc; rprc] then
        mret (Some {| check_workload_container := cwc;
                      check_compatibility := cc;
                      run_pre_refresh_checks := rprc |})
      else
        event_fail Must_run_with_at_least_one_parameter_false;;
        mret None
  | _ => mret None
  end.

(** [if force_start: body] *)
Definition if_force_start (force_start : option _ForceRefreshStartAction) (body : M ()) : M () :=
  when (bool_decide (is_Some force_start)) body.

(** [force_start and not force_start.<parameter>] *)
Definition skipped (force_start : option _ForceRefreshStartAction)
    (parameter : _ForceRefreshStartAction → bool) : bool :=
  match force_start with
  | Some f => negb (parameter f)
  | None => false
  end.

Definition touch_refresh_started_local_state : M () :=
  l ← get_local_state;
  set_local_state
    {| kubernetes_unit_tearing_down := kubernetes_unit_tearing_down l;
       kubernetes_unit_tearing_down_logged := kubernetes_unit_tearing_down_logged l;
       kubernetes_had_opportunity_to_raise_partition_after_pod_restart :=
         kubernetes_had_opportunity_to_raise_partition_after_pod_restart l;
       kubernetes_pod_ids_of_units_that_are_tearing_down_json :=
         kubernetes_pod_ids_of_units_that_are_tearing_down_json l;
       kubernetes_refresh_started := true |}.

(** The statements that record a started refresh (they occur twice in
    [_start_refresh], after a rollback is detected and after the checks):
    [self._refresh_started = True], the append to this unit's databag and
    the touch of the local state file. *)
Definition record_refresh_started (env : Env) (self : _Kubernetes) : M _Kubernetes :=
  d ← my_unit (charm_unit env);
  set_my_unit (charm_unit env)
    (with_refresh_started d
       (Some (append_if_missing (_unit_controller_revision self)
                (default [] (refresh_started_if_app_controller_revision_hash_in d)))));;
  touch_refresh_started_local_state;;
  mret (with__refresh_started self true).

(** The three automatic checks.  Each returns [None] when the check passed
    or was skipped, and the blocked unit status when it failed (the method
    then returns). *)
Definition workload_container_check (env : Env) (self : _Kubernetes)
    (force_start : option _ForceRefreshStartAction) : M (option Status) :=
  if skipped force_start check_workload_container then
    event_log Skipping_check_workload_container;;
    mret None
  else
    enter check_workload_container_entered;;
    if bool_decide (_installed_workload_container_version self
                    = Some (_pinned_workload_container_version self))
    then
      if_force_start force_start (event_log Checked_workload_container);;
      mret None
    else
      if_force_start force_start (event_fail Container_version_not_validated);;
      mret (Some (BlockedStatus Juju_refresh_was_run_with_missing_or_incorrect_OCI_resource)).

Definition compatibility_check (env : Env) (self : _Kubernetes)
    (original_versions : OriginalVersions._OriginalVersions)
    (force_start : option _ForceRefreshStartAction) : M (option Status) :=
  if skipped force_start check_compatibility then
    event_log Skipping_check_compatibility;;
    mret None
  else
    enter check_compatibility_entered;;
    compatible ←
      (if OriginalVersions.installed_workload_container_matched_pinned_container
            original_versions
          && bool_decide (_installed_workload_container_version self
                          = Some (_pinned_workload_container_version self))
       then
         enter (is_compatible_called
                  (OriginalVersions.charm original_versions)
                  (_installed_charm_version self)
                  (OriginalVersions.workload original_versions)
                  (_pinned_workload_version self));;
         mret (is_compatible env
                 (OriginalVersions.charm original_versions)
                 (_installed_charm_version self)
                 (OriginalVersions.workload original_versions)
                 (_pinned_workload_version self))
       else mret false);
    if (compatible : bool) then
      if_force_start force_start (event_log Checked_compatibility);;
      mret None
    else
      if_force_start force_start (event_fail Refresh_incompatible);;
      mret (Some (BlockedStatus Refresh_incompatible_rollback_with_instructions)).

Definition pre_refresh_checks (env : Env) (self : _Kubernetes)
    (force_start : option _ForceRefreshStartAction) : M (option Status) :=
  if skipped force_start run_pre_refresh_checks then
    event_log Skipping_pre_refresh_checks;;
    mret None
  else
    if_force_start force_start (event_log Running_pre_refresh_checks);;
    enter run_pre_refresh_checks_after_1_unit_refreshed_called;;
    match run_pre_refresh_checks_after_1_unit_refreshed env with
    | Some message =>
        if_force_start force_start (event_fail (Pre_refresh_check_failed message));;
        mret (Some (BlockedStatus (Rollback_with_juju_refresh_pre_refresh_check_failed message)))
    | None =>
        if_force_start force_start (event_log Pre_refresh_checks_successful);;
        mret None
    end.

(** "Run automatic checks" and what follows, to the end of the method. *)
Definition run_automatic_checks (env : Env) (self : _Kubernetes)
    (original_versions : OriginalVersions._OriginalVersions)
    (force_start : option _ForceRefreshStartAction) : M _Kubernetes :=
  blocked ← workload_container_check env self force_start;
  match blocked with
  | Some status => mret (with__unit_status_higher_priority self (Some status))
  | None =>
      blocked ← compatibility_check env self original_versions force_start;
      match blocked with
      | Some status => mret (with__unit_status_higher_priority self (Some status))
      | None =>
          blocked ← pre_refresh_checks env self force_start;
          match blocked with
          | Some status => mret (with__unit_status_higher_priority self (Some status))
          | None =>
              (* All checks that ran succeeded *)
              self ← record_refresh_started env self;
              if_force_start force_start
                (event_result (Workload_refreshed_on_unit_starting (charm_unit env)));;
              mret self
          end
      end
  end.

(** Whether the installed charm and workload container are the original
    ones (the rollback test). *)
Definition is_rollback (self : _Kubernetes)
    (original_versions : OriginalVersions._OriginalVersions) : bool :=
  bool_decide (OriginalVersions.charm original_versions = _installed_charm_version self)
  && bool_decide (Some (OriginalVersions.workload_container original_versions)
                  = _installed_workload_container_version self).

(** The value first assigned to [self._refresh_started]: whether a unit's
    databag or the app databag lists the app's controller revision. *)
Definition refresh_started_in_databags (self : _Kubernetes) (r : PeerRelation) : bool :=
  existsb
    (λ unit, in_hashes (_app_controller_revision self)
               (refresh_started_if_app_controller_revision_hash_in
                  (relation_get r (number unit))))
    (_units self)
  || in_hashes (_app_controller_revision self)
       (app_refresh_started_if_app_controller_revision_hash_in (my_app r)).

Definition _start_refresh (env : Env) (self : _Kubernetes) : M _Kubernetes :=
  match _units self with
  | [] => raise IndexError
  | first_unit :: _ =>
      force_start ← _ForceRefreshStartAction__init__ env first_unit (_in_progress self);
      let self := with__unit_status_higher_priority self None in
      if negb (_in_progress self) then mret self
      else
        w ← get_world;
        let self := with__refresh_started self (refresh_started_in_databags self (relation w)) in
        if negb (bool_decide (charm_unit env = number first_unit)) then mret self
        else if negb (bool_decide (_unit_controller_revision self
                                   = _app_controller_revision self))
        then
          if_force_start force_start
            (event_fail (Unit_has_not_yet_refreshed_to_latest_app_revision (charm_unit env)));;
          mret self
        else if negb (bool_decide (1 < length (_units self))%nat) then raise AssertionError
        else
          original_versions ←
            lift (OriginalVersions.from_app_databag (CharmVersion_valid env)
                    (my_app (relation w)));
          self ←
            (if negb (_refresh_started self) && is_rollback self original_versions
             then (* Rollback to original charm code & workload container version *)
               record_refresh_started env self
             else mret self);
          if _refresh_started self then
            if_force_start force_start (event_fail Refresh_already_started);;
            mret self
          else run_automatic_checks env self original_versions force_start
  end.

(** *** [_set_partition_and_app_status] *)

(** [for index, unit in enumerate(units): if unit.controller_revision !=
    app_controller_revision: break], then [index] and [unit] are read: the
    pair at the [break], or the last pair when the loop runs to its end
    ([last] carries it), or nothing when [units] is empty. *)
Fixpoint next_unit_to_refresh_loop (app_controller_revision : string)
    (units : list _KubernetesUnit) (index : nat) (last : option (nat * _KubernetesUnit))
    : option (nat * _KubernetesUnit) :=
  match units with
  | [] => last
  | unit :: units' =>
      if negb (bool_decide (controller_revision unit = app_controller_revision))
      then Some (index, unit)
      else next_unit_to_refresh_loop app_controller_revision units' (S index)
             (Some (index, unit))
  end.

(** Whether [unit] has allowed the next unit to refresh, as the leader
    reads it from the relation. *)
Definition unit_allowed_next (r : PeerRelation) (app_controller_revision : string)
    (unit : _KubernetesUnit) : bool :=
  bool_decide
    (next_unit_allowed_to_refresh_if_app_controller_revision_hash_equals
       (relation_get r (number unit))
     = Some app_controller_revision).

(** [for unit in up_to_date_units: if <unit has not allowed>: ... break]:
    the unit at the [break], if any. *)
Definition first_unit_that_has_not_allowed (r : PeerRelation)
    (app_controller_revision : string) (up_to_date_units : list _KubernetesUnit)
    : option _KubernetesUnit :=
  List.find (λ unit, negb (unit_allowed_next r app_controller_revision unit))
    up_to_date_units.

(** The condition under which the policy lets the next unit refresh once
    the up-to-date units have allowed it. *)
Definition pause_after_permits (action_present : bool) (pause_after : PauseAfter._PauseAfter)
    (next_unit_to_refresh_index : nat) : bool :=
  action_present
  || bool_decide (pause_after = PauseAfter.NONE)
  || (bool_decide (pause_after = PauseAfter.FIRST)
      && bool_decide (2 ≤ next_unit_to_refresh_index)%nat).

(** "Determine if [next_unit_to_refresh] is allowed to refresh": returns
    [allow_next_unit_to_refresh].  [action] is the resume-refresh action,
    by its [check_health_of_refreshed_units] parameter. *)
Definition determine_allow_next_unit_to_refresh (env : Env) (self : _Kubernetes)
    (handle_action : bool) (action : option bool)
    (next_unit_to_refresh : _KubernetesUnit) (next_unit_to_refresh_index : nat) : M bool :=
  if bool_decide (action = Some false) then
    when handle_action
      (event_log Ignoring_health_of_refreshed_units;;
       event_result (Attempting_to_refresh_unit (number next_unit_to_refresh)));;
    mret true
  else if negb (_refresh_started self) then
    when (handle_action && bool_decide (is_Some action))
      (match _units self with
       | [] => raise IndexError
       | first_unit :: _ =>
           event_fail (Unit_is_unhealthy_refresh_will_not_resume (number first_unit))
       end);;
    mret false
  else
    w ← get_world;
    let up_to_date_units := take next_unit_to_refresh_index (_units_not_tearing_down self) in
    match first_unit_that_has_not_allowed (relation w) (_app_controller_revision self)
            up_to_date_units with
    | Some unit =>
        when (handle_action && bool_decide (is_Some action))
          (event_fail (Unit_is_unhealthy_refresh_will_not_resume (number unit)));;
        mret false
    | None =>
        if pause_after_permits (bool_decide (is_Some action)) (_pause_after self)
             next_unit_to_refresh_index
        then
          when (handle_action && bool_decide (is_Some action))
            (if bool_decide (_pause_after self = PauseAfter.NONE) then raise AssertionError
             else if bool_decide (_pause_after self = PauseAfter.FIRST) then
               event_result
                 (Refresh_resumed_unit_is_refreshing_next (number next_unit_to_refresh))
             else
               event_result (Unit_is_refreshing_next (number next_unit_to_refresh)));;
          mret true
        else mret false
    end.

(** The app status while a refresh is in progress, from the partition that
    is in force after the method's patch. *)
Definition refreshing_app_status (self : _Kubernetes) (partition : Z)
    (last_unit first_unit_not_tearing_down : _KubernetesUnit) : Status :=
  if bool_decide (partition = number last_unit) then
    MaintenanceStatus Refreshing_to_rollback_see_docs
  else if bool_decide (_pause_after self = PauseAfter.ALL)
          || (bool_decide (_pause_after self = PauseAfter.FIRST)
              && bool_decide (number first_unit_not_tearing_down ≤ partition))
  then BlockedStatus (Refreshing_check_units_are_healthy_and_run_resume_refresh partition)
  else MaintenanceStatus Refreshing_to_pause_refresh_run_juju_config.

(** [action = _ResumeRefreshAction(charm.event)] when the event is the
    resume-refresh action: the action's parameter, or [None]. *)
Definition resume_refresh_action (env : Env) : option bool :=
  match event env with
  | ActionEvent (resume_refresh check_health_of_refreshed_units) =>
      Some check_health_of_refreshed_units
  | _ => None
  end.

Definition _set_partition_and_app_status (env : Env) (self : _Kubernetes)
    (handle_action : bool) : M _Kubernetes :=
  let self := with__app_status_higher_priority self None in
  let action := resume_refresh_action env in
  if negb (is_leader env) then
    when (handle_action && bool_decide (is_Some action))
      (event_fail Must_run_action_on_leader_unit);;
    mret self
  else
    let self :=
      if bool_decide (_pause_after self = PauseAfter.UNKNOWN)
      then with__app_status_higher_priority self
             (Some (BlockedStatus Pause_after_unit_refresh_config_must_be_set))
      else self in
    if negb (_in_progress self) then
      partition ← _get_partition;
      when (negb (bool_decide (partition = 0))) (_set_partition 0);;
      when (handle_action && bool_decide (is_Some action)) (event_fail No_refresh_in_progress);;
      match _app_status_higher_priority self with
      | Some status => set_app_status status
      | None => mret ()
      end;;
      mret self
    else
      action ←
        (if handle_action && bool_decide (action = Some true)
            && bool_decide (_pause_after self = PauseAfter.NONE)
         then
           event_fail Pause_after_unit_refresh_is_none_action_not_applicable;;
           mret None
         else mret action);
      match next_unit_to_refresh_loop (_app_controller_revision self)
              (_units_not_tearing_down self) 0 None with
      | None => raise UnboundLocalError
      | Some (next_unit_to_refresh_index, next_unit_to_refresh) =>
          allow_next_unit_to_refresh ←
            determine_allow_next_unit_to_refresh env self handle_action action
              next_unit_to_refresh next_unit_to_refresh_index;
          target_partition ←
            (if (allow_next_unit_to_refresh : bool) then mret (number next_unit_to_refresh)
             else
               match _units_not_tearing_down self
                     !! Z.to_nat (Z.max (Z.of_nat next_unit_to_refresh_index - 1) 0) with
               | Some unit => mret (number unit)
               | None => raise IndexError
               end);
          (* Only lower the partition—do not raise it *)
          partition ← _get_partition;
          partition ←
            (if target_partition <? partition then
               _set_partition target_partition;;
               mret target_partition
             else mret partition);
          match List.last (Some <$> _units self) None,
                head (_units_not_tearing_down self) with
          | Some last_unit, Some first_unit_not_tearing_down =>
              let status :=
                refreshing_app_status self partition last_unit first_unit_not_tearing_down in
              set_app_status status;;
              mret (with__app_status_higher_priority self (Some status))
          | _, _ => raise IndexError
          end
      end.

(** *** The [next_unit_allowed_to_refresh] property (setter) *)

(** A Python object handed to the setter. *)
Inductive PyObject :=
| py_True
| py_False
| py_None
| py_int (z : Z)
| py_str (s : string).

Definition set_next_unit_allowed_to_refresh (env : Env) (self : _Kubernetes)
    (value : PyObject) : M _Kubernetes :=
  match value with
  | py_True =>
      allowed ← workload_allowed_to_start env self;
      if negb allowed then raise Exception_
      else
        d ← my_unit (charm_unit env);
        if negb (bool_decide
                   (next_unit_allowed_to_refresh_if_app_controller_revision_hash_equals d
                    = Some (_unit_controller_revision self)))
        then
          set_my_unit (charm_unit env)
            (with_next_unit_allowed d (Some (_unit_controller_revision self)));;
          _set_partition_and_app_status env self false
        else mret self
  | _ => raise ValueError
  end.

(** *** [__init__]: one evaluation *)

Definition with_tearing_down (l : LocalState) (v : bool) : LocalState :=
  {| kubernetes_unit_tearing_down := v;
     kubernetes_unit_tearing_down_logged := kubernetes_unit_tearing_down_logged l;
     kubernetes_had_opportunity_to_raise_partition_after_pod_restart :=
       kubernetes_had_opportunity_to_raise_partition_after_pod_restart l;
     kubernetes_pod_ids_of_units_that_are_tearing_down_json :=
       kubernetes_pod_ids_of_units_that_are_tearing_down_json l;
     kubernetes_refresh_started := kubernetes_refresh_started l |}.

Definition with_tearing_down_logged (l : LocalState) (v : bool) : LocalState :=
  {| kubernetes_unit_tearing_down := kubernetes_unit_tearing_down l;
     kubernetes_unit_tearing_down_logged := v;
     kubernetes_had_opportunity_to_raise_partition_after_pod_restart :=
       kubernetes_had_opportunity_to_raise_partition_after_pod_restart l;
     kubernetes_pod_ids_of_units_that_are_tearing_down_json :=
       kubernetes_pod_ids_of_units_that_are_tearing_down_json l;
     kubernetes_refresh_started := kubernetes_refresh_started l |}.

Definition with_had_opportunity (l : LocalState) (v : bool) : LocalState :=
  {| kubernetes_unit_tearing_down := kubernetes_unit_tearing_down l;
     kubernetes_unit_tearing_down_logged := kubernetes_unit_tearing_down_logged l;
     kubernetes_had_opportunity_to_raise_partition_after_pod_restart := v;
     kubernetes_pod_ids_of_units_that_are_tearing_down_json :=
       kubernetes_pod_ids_of_units_that_are_tearing_down_json l;
     kubernetes_refresh_started := kubernetes_refresh_started l |}.

Definition with_pod_ids_json (l : LocalState) (v : option (list string)) : LocalState :=
  {| kubernetes_unit_tearing_down := kubernetes_unit_tearing_down l;
     kubernetes_unit_tearing_down_logged := kubernetes_unit_tearing_down_logged l;
     kubernetes_had_opportunity_to_raise_partition_after_pod_restart :=
       kubernetes_had_opportunity_to_raise_partition_after_pod_restart l;
     kubernetes_pod_ids_of_units_that_are_tearing_down_json := v;
     kubernetes_refresh_started := kubernetes_refresh_started l |}.

Definition with_refresh_started_local (l : LocalState) (v : bool) : LocalState :=
  {| kubernetes_unit_tearing_down := kubernetes_unit_tearing_down l;
     kubernetes_unit_tearing_down_logged := kubernetes_unit_tearing_down_logged l;
     kubernetes_had_opportunity_to_raise_partition_after_pod_restart :=
       kubernetes_had_opportunity_to_raise_partition_after_pod_restart l;
     kubernetes_pod_ids_of_units_that_are_tearing_down_json :=
       kubernetes_pod_ids_of_units_that_are_tearing_down_json l;
     kubernetes_refresh_started := v |}.

(** [sorted(unsorted_units, reverse=True)]: units order by their number;
    the numbers of the pods of one app are distinct. *)
Fixpoint insert_descending (unit : _KubernetesUnit) (sorted : list _KubernetesUnit)
    : list _KubernetesUnit :=
  match sorted with
  | [] => [unit]
  | u :: sorted' =>
      if number u <? number unit then unit :: u :: sorted'
      else u :: insert_descending unit sorted'
  end.

Definition sorted_reverse (unsorted_units : list _KubernetesUnit) : list _KubernetesUnit :=
  foldr insert_descending [] unsorted_units.

(** Truth value of an [Optional[str]]. *)
Definition truthy (o : option string) : bool :=
  match o with
  | Some s => negb (bool_decide (s = ""))
  | None => false
  end.

(** [s.split(sep)] for a separator of one character: the parts between the
    occurrences of [sep]; there is always at least one part. *)
Fixpoint str_split (sep : ascii) (s : string) : list string :=
  match s with
  | EmptyString => [""]
  | String c s' =>
      if bool_decide (c = sep) then "" :: str_split sep s'
      else
        match str_split sep s' with
        | [] => [String c ""]
        | part :: parts => String c part :: parts
        end
  end.

(** [sep.join(parts)] *)
Fixpoint str_join (sep : string) (parts : list string) : string :=
  match parts with
  | [] => ""
  | part :: parts' =>
      match parts' with
      | [] => part
      | _ :: _ => part +:+ sep +:+ str_join sep parts'
      end
  end.

(** [c in s] *)
Fixpoint str_contains (c : ascii) (s : string) : bool :=
  match s with
  | EmptyString => false
  | String c' s' => bool_decide (c' = c) || str_contains c s'
  end.

(** *** The versions that [__init__] reads *)

Module RefreshVersions.

(** "Versions pinned in this unit's refresh_versions.toml"; [charm] is the
    string of the [CharmVersion]. *)
Record _RefreshVersions := {
  charm : string;
  workload : string }.

(** [_RefreshVersions.from_file]: [cls(charm=CharmVersion(versions["charm"]),
    workload=versions["workload"])]; a missing key raises [KeyError] and an
    invalid charm version [ValueError]. *)
Definition from_file (env : Env) : Outcome _RefreshVersions :=
  match refresh_versions_toml_charm env with
  | None => Raised KeyError
  | Some charm =>
      if CharmVersion_valid env charm then
        match refresh_versions_toml_workload env with
        | None => Raised KeyError
        | Some workload => Returned {| charm := charm; workload := workload |}
        end
      else Raised ValueError
  end.

End RefreshVersions.

(** "Get installed & pinned workload container digest": the digest of
    [upstream-source] in [metadata.yaml].  [_, digest =
    upstream_source.split("@")] must find two parts and the digest must
    start with "sha256:"; every failure is a [ValueError]. *)
Definition pinned_workload_container_version_of (upstream_source : string) : Outcome string :=
  match str_split "@"%char upstream_source with
  | [_; digest] =>
      if negb (String.prefix "sha256:" digest) then Raised ValueError
      else Returned digest
  | _ => Raised ValueError
  end.

(** The workload container of [metadata.yaml]: there must be exactly
    one. *)
Definition workload_container_of (workload_containers : list string) : Outcome string :=
  match workload_containers with
  | [] => Raised ValueError
  | [workload_container] => Returned workload_container
  | _ => Raised ValueError
  end.

(** The image name and digest of this unit's workload container, from the
    pod's container statuses.  Without a status for the container, or with
    an empty [imageID], the digest is not available: the name is the one of
    [upstream_source] and the digest is [None].  Iterating over missing
    statuses raises [TypeError]; several statuses for the container, or an
    [imageID] that is not [name@digest], raise [ValueError]. *)
Definition installed_workload_image (containerStatuses : option (list ContainerStatus))
    (workload_container upstream_source : string) : Outcome (string * option string) :=
  let not_available : Outcome (string * option string) :=
    (* Fall back to image pinned in metadata.yaml *)
    match str_split "@"%char upstream_source with
    | [image_name; _] => Returned (image_name, None)
    | _ => Raised ValueError
    end in
  match containerStatuses with
  | None => Raised TypeError
  | Some containerStatuses =>
      match filter (λ status, status_name status = workload_container) containerStatuses with
      | [] => not_available
      | [status] =>
          let image_id := imageID status in
          if bool_decide (image_id = "") then not_available
          else
            match str_split "@"%char image_id with
            | [image_name; image_digest] => Returned (image_name, Some image_digest)
            | _ => Raised ValueError
            end
      | _ => Raised ValueError
      end
  end.

(** The versions that [__init__] assigns to [self], in the order in which
    it reads them. *)
Record Versions := {
  installed_charm_version : string;
  pinned_workload_version : string;
  pinned_workload_container_version : string;
  installed_workload_image_name : string;
  installed_workload_container_version : option string }.

Definition read_versions (env : Env) : Outcome Versions :=
  match RefreshVersions.from_file env with
  | Raised e => Raised e
  | Returned refresh_versions =>
      match metadata_yaml_upstream_source env with
      | None => Raised ValueError  (* [not isinstance(upstream_source, str)] *)
      | Some upstream_source =>
          match pinned_workload_container_version_of upstream_source with
          | Raised e => Raised e
          | Returned digest =>
              match workload_container_of (metadata_yaml_workload_containers env) with
              | Raised e => Raised e
              | Returned workload_container =>
                  match installed_workload_image (this_pod_containerStatuses env)
                          workload_container upstream_source with
                  | Raised e => Raised e
                  | Returned (image_name, image_digest) =>
                      Returned
                        {| installed_charm_version := RefreshVersions.charm refresh_versions;
                           pinned_workload_version :=
                             RefreshVersions.workload refresh_versions;
                           pinned_workload_container_version := digest;
                           installed_workload_image_name := image_name;
                           installed_workload_container_version := image_digest |}
                  end
              end
          end
      end
  end.

(** "Determine [self._pause_after]": the values of
    [pause_after_unit_refresh_config] in the databags of the most up-to-date
    units, without the missing ones.  The generator reads
    [self._units_not_tearing_down[0]] only for a unit whose controller
    revision differs from the one of [self._units[0]]. *)
Fixpoint pause_after_values (r : PeerRelation) (first_unit_controller_revision : string)
    (units_not_tearing_down units : list _KubernetesUnit) : Outcome (list string) :=
  match units with
  | [] => Returned []
  | unit :: units' =>
      let most_up_to_date : Outcome bool :=
        if bool_decide (controller_revision unit = first_unit_controller_revision)
        then Returned true
        else match units_not_tearing_down with
             | [] => Raised IndexError
             | first_not_tearing_down :: _ =>
                 Returned (bool_decide (controller_revision unit
                                        = controller_revision first_not_tearing_down))
             end in
      match most_up_to_date with
      | Raised e => Raised e
      | Returned include =>
          match pause_after_values r first_unit_controller_revision
                  units_not_tearing_down units' with
          | Raised e => Raised e
          | Returned values =>
              match include, pause_after_unit_refresh_config
                               (relation_get r (number unit)) with
              | true, Some value => Returned (value :: values)
              | _, _ => Returned values
              end
          end
      end
  end.

Definition determine_pause_after (r : PeerRelation)
    (units units_not_tearing_down : list _KubernetesUnit) : Outcome PauseAfter._PauseAfter :=
  match units with
  | [] => PauseAfter.builtin_max []
  | first_unit :: _ =>
      match pause_after_values r (controller_revision first_unit)
              units_not_tearing_down units with
      | Raised e => Raised e
      | Returned values => PauseAfter.builtin_max (PauseAfter.call <$> values)
      end
  end.

Definition is_refresh_action (e : Event) : bool :=
  match e with
  | ActionEvent pre_refresh_check
  | ActionEvent (force_refresh_start _ _ _)
  | ActionEvent (resume_refresh _) => true
  | _ => false
  end.

Definition is_StopEvent (e : Event) : bool :=
  match e with
  | StopEvent => true
  | _ => false
  end.

(** "Raise StatefulSet partition" (during a stop event, and after a pod
    restart): [if self._get_partition() < charm.unit.number: ...]; [then_]
    is what follows the patch inside the [if]. *)
Definition raise_partition (env : Env) (then_ : M ()) : M () :=
  partition ← _get_partition;
  when (partition <? charm_unit env)
    (_set_partition (charm_unit env);;
     then_).

(** "Propagate local state to this unit's databag" for the pod uids of
    the units that are tearing down. *)
Definition propagate_pod_uids_local_state (env : Env) : M () :=
  l ← get_local_state;
  match kubernetes_pod_ids_of_units_that_are_tearing_down_json l with
  | Some uids =>
      d ← my_unit (charm_unit env);
      set_my_unit (charm_unit env)
        (with_pod_uids_tearing_down d
           (Some (foldl (λ tearing_down_uids1 uid, append_if_missing uid tearing_down_uids1)
                    (default [] (pod_uids_of_units_that_are_tearing_down d)) uids)))
  | None => mret ()
  end.

(** "Save state in databag if this unit sees another unit tearing down." *)
Definition save_departing_unit (env : Env) (units : list _KubernetesUnit) : M () :=
  match event env with
  | RelationDepartedEvent departing_unit =>
      when (bool_decide (unit_app departing_unit = charm_app env))
        (let uids :=
           pod_uid <$> filter (λ unit, number unit = unit_number departing_unit) units in
         match uids with
         | [] => mret ()
         | [uid] =>
             d ← my_unit (charm_unit env);
             let tearing_down_uids2 :=
               append_if_missing uid (default [] (pod_uids_of_units_that_are_tearing_down d)) in
             set_my_unit (charm_unit env)
               (with_pod_uids_tearing_down d (Some tearing_down_uids2));;
             l ← get_local_state;
             set_local_state (with_pod_ids_json l (Some tearing_down_uids2))
         | _ => raise AssertionError
         end)
  | _ => mret ()
  end.

(** [self._units_not_tearing_down] *)
Definition units_not_tearing_down_of (r : PeerRelation) (units : list _KubernetesUnit)
    : list _KubernetesUnit :=
  let tearing_down_uids3 :=
    concat ((λ unit, default [] (pod_uids_of_units_that_are_tearing_down
                                   (relation_get r (number unit)))) <$> units) in
  filter (λ unit, pod_uid unit ∉ tearing_down_uids3) units.

(** "Propagate refresh_started_if_app_controller_revision_hash_in in unit
    databags to app databag" (on the leader). *)
Definition propagate_refresh_started_to_app (r : PeerRelation) (units : list _KubernetesUnit)
    : AppDatabag :=
  with_app_refresh_started (my_app r)
    (Some (foldl
             (λ hashes2 unit,
                foldl (λ hashes2 hash_, append_if_missing hash_ hashes2) hashes2
                  (default [] (refresh_started_if_app_controller_revision_hash_in
                                 (relation_get r (number unit)))))
             (default [] (app_refresh_started_if_app_controller_revision_hash_in (my_app r)))
             units)).

(** "Clean up state that is no longer in use" and, on the leader, "Save
    versions in app databag for next refresh". *)
Definition clean_up_and_save_versions (env : Env) (installed_charm_version
    pinned_workload_version pinned_workload_container_version : string)
    (installed_workload_container_version : option string) : M () :=
  d ← my_unit (charm_unit env);
  set_my_unit (charm_unit env)
    (with_pod_uids_tearing_down (with_refresh_started d None) None);;
  l ← get_local_state;
  set_local_state (with_pod_ids_json (with_refresh_started_local l false) None);;
  when (is_leader env)
    (app ← my_app_ro;
     set_my_app_rw (with_app_refresh_started app None);;
     match installed_workload_container_version with
     | Some container =>
         when (truthy installed_workload_container_version)
           (let matches_pin :=
              bool_decide (container = pinned_workload_container_version) in
            original_versions ←
              lift (OriginalVersions.new
                      (if matches_pin then Some pinned_workload_version else None)
                      container matches_pin installed_charm_version (juju_charm_file env));
            app ← my_app_ro;
            set_my_app_rw (OriginalVersions.write_to_app_databag original_versions app))
     | None => mret ()
     end).

(** The pre-refresh-check action. *)
Definition pre_refresh_check_action (env : Env) (in_progress : bool)
    (installed_workload_container_version : option string) : M () :=
  match event env with
  | ActionEvent pre_refresh_check =>
      if in_progress then event_fail Refresh_already_in_progress
      else if is_leader env then
        if truthy installed_workload_container_version then
          enter run_pre_refresh_checks_before_any_units_refreshed_called;;
          match run_pre_refresh_checks_before_any_units_refreshed env with
          | Some message => event_fail (Charm_is_not_ready_for_refresh message)
          | None => event_result Charm_is_ready_for_refresh
          end
        else
          event_fail (Charm_is_not_ready_for_refresh
                        (workload_name env +:+ " container is not running"))
      else event_fail Must_run_action_on_leader_unit
  | _ => mret ()
  end.

(** "Raise StatefulSet partition after pod restart", with the touch of
    the local state file that follows it. *)
Definition raise_partition_after_pod_restart (env : Env) (this_unit : _KubernetesUnit)
    (in_progress : bool) : M () :=
  l ← get_local_state;
  when (negb (kubernetes_had_opportunity_to_raise_partition_after_pod_restart l)
        && in_progress)
    (raise_partition env
       (d ← my_unit (charm_unit env);
        set_my_unit (charm_unit env)
          (with_unused_pod_uid d (Some (pod_uid this_unit)))));;
  l ← get_local_state;
  set_local_state (with_had_opportunity l true).

(** [self._relation.my_unit["pause_after_unit_refresh_config"] =
    charm.config["pause_after_unit_refresh"]] *)
Definition set_pause_after_config (env : Env) : M () :=
  d ← my_unit (charm_unit env);
  set_my_unit (charm_unit env)
    (with_pause_after_config d (Some (config_pause_after_unit_refresh env))).

(** "Trigger Juju event on other units" during a stop event. *)
Definition save_controller_revision_during_stop_event (env : Env) (in_progress : bool)
    (unit_controller_revision : string) : M () :=
  when (is_StopEvent (event env) && in_progress)
    (d ← my_unit (charm_unit env);
     set_my_unit (charm_unit env)
       (with_unused_controller_revision d (Some unit_controller_revision))).

(** "Propagate local state to this unit's databag" for the started
    refresh. *)
Definition propagate_refresh_started_local_state (env : Env)
    (unit_controller_revision : string) : M () :=
  l ← get_local_state;
  when (kubernetes_refresh_started l)
    (d ← my_unit (charm_unit env);
     set_my_unit (charm_unit env)
       (with_refresh_started d
          (Some (append_if_missing unit_controller_revision
                   (default [] (refresh_started_if_app_controller_revision_hash_in d)))))).

(** The statements of [__init__] from the first use of the peer relation to
    the call of [self._start_refresh()]: they write to the databags and to
    the local state, and assign the attributes of [self]. *)
Definition set_attributes (env : Env) (units : list _KubernetesUnit)
    (this_unit : _KubernetesUnit) (in_progress : bool) : M _Kubernetes :=
  let app_controller_revision := update_revision env in
  let unit_controller_revision := controller_revision this_unit in
  raise_partition_after_pod_restart env this_unit in_progress;;
  set_pause_after_config env;;
  propagate_pod_uids_local_state env;;
  save_departing_unit env units;;
  w ← get_world;
  let units_not_tearing_down := units_not_tearing_down_of (relation w) units in
  save_controller_revision_during_stop_event env in_progress unit_controller_revision;;
  propagate_refresh_started_local_state env unit_controller_revision;;
  when (is_leader env)
    (w ← get_world;
     set_my_app_rw (propagate_refresh_started_to_app (relation w) units));;
  (* Get versions from refresh_versions.toml, then the installed and the
     pinned workload container digest *)
  versions ← lift (read_versions env);
  let installed_charm_version := installed_charm_version versions in
  let pinned_workload_version := pinned_workload_version versions in
  let pinned_workload_container_version := pinned_workload_container_version versions in
  let installed_workload_container_version :=
    installed_workload_container_version versions in
  (* Determine [self._pause_after] *)
  w ← get_world;
  pause_after ← lift (determine_pause_after (relation w) units units_not_tearing_down);
  when (negb in_progress)
    (clean_up_and_save_versions env installed_charm_version pinned_workload_version
       pinned_workload_container_version installed_workload_container_version);;
  when (in_progress || (is_leader env && truthy installed_workload_container_version))
    (app ← my_app_ro;
     lift (OriginalVersions.from_app_databag (CharmVersion_valid env) app);;
     mret ());;
  pre_refresh_check_action env in_progress installed_workload_container_version;;
  mret
    {| _in_progress := in_progress;
       _app_controller_revision := app_controller_revision;
       _units := units;
       _unit_controller_revision := unit_controller_revision;
       _units_not_tearing_down := units_not_tearing_down;
       _installed_charm_version := installed_charm_version;
       _pinned_workload_version := pinned_workload_version;
       _pinned_workload_container_version := pinned_workload_container_version;
       _installed_workload_container_version := installed_workload_container_version;
       _pause_after := pause_after;
       _refresh_started := false;
       _unit_status_higher_priority := None;
       _app_status_higher_priority := None |}.

(** [self._in_progress]: whether a unit's controller revision differs from
    the app's. *)
Definition in_progress_of (env : Env) (units : list _KubernetesUnit) : bool :=
  existsb (λ unit, negb (bool_decide (controller_revision unit = update_revision env)))
    units.

Definition __init__ (env : Env) : M _Kubernetes :=
  (* Save state if this unit is tearing down *)
  when (match event env with
        | RelationDepartedEvent departing_unit =>
            bool_decide (departing_unit
                         = {| unit_app := charm_app env; unit_number := charm_unit env |})
        | _ => false
        end)
    (l ← get_local_state; set_local_state (with_tearing_down l true));;
  (* Check if Juju app was deployed with --trust *)
  if negb (status_allowed env) then
    when (is_leader env) (set_app_status (BlockedStatus Run_juju_trust));;
    raise KubernetesJujuAppNotTrusted
  else
    let units := sorted_reverse (pods env) in
    (* [assert this_pod], then [next(unit for unit in self._units if unit == charm.unit)] *)
    match List.find (λ unit, bool_decide (number unit = charm_unit env)) units with
    | None => raise UnboundLocalError
    | Some this_unit =>
        (* Check if this unit is tearing down *)
        l ← get_local_state;
        if kubernetes_unit_tearing_down l then
          when (is_refresh_action (event env)) (event_fail Unit_tearing_down);;
          when (negb (kubernetes_unit_tearing_down_logged l))
            (set_local_state (with_tearing_down_logged l true));;
          raise UnitTearingDown
        else
          (* Determine [self._in_progress] *)
          let in_progress := in_progress_of env units in
          (* Raise StatefulSet partition during stop event *)
          when (is_StopEvent (event env) && in_progress) (raise_partition env (mret ()));;
          if negb (peer_relation_available env) then raise PeerRelationMissing
          else
            self ← set_attributes env units this_unit in_progress;
            self ← _start_refresh env self;
            _set_partition_and_app_status env self true
    end.

(** ** Properties and deployments used in the statements *)

(** The invariant of a version snapshot: the workload version is present
    iff the installed container matched the pinned one. *)
Definition snapshot_invariant (v : OriginalVersions._OriginalVersions) : Prop :=
  is_Some (OriginalVersions.workload v)
  ↔ OriginalVersions.installed_workload_container_matched_pinned_container v = true.

(** The most up-to-date units, in the words of the comment above
    "Determine [self._pause_after]": the units with the controller revision
    of the first unit, or of the first unit that is not tearing down. *)
Definition most_up_to_date (units units_not_tearing_down : list _KubernetesUnit)
    (unit : _KubernetesUnit) : bool :=
  match head units with
  | Some first_unit =>
      bool_decide (controller_revision unit = controller_revision first_unit)
  | None => false
  end
  || match head units_not_tearing_down with
     | Some first_unit =>
         bool_decide (controller_revision unit = controller_revision first_unit)
     | None => false
     end.

(** The values of [pause_after_unit_refresh_config] that are present in the
    databags of the most up-to-date units. *)
Definition present_pause_after_values (r : PeerRelation)
    (units units_not_tearing_down : list _KubernetesUnit) : list string :=
  omap (λ unit, pause_after_unit_refresh_config (relation_get r (number unit)))
    (filter (λ unit, most_up_to_date units units_not_tearing_down unit = true) units).

Definition with_action_output (w : World) (o : list ActionOutput) : World :=
  {| partition := partition w; patches := patches w; local_state := local_state w;
     relation := relation w; action_output := o;
     app_status := app_status w; checks := checks w |}.

(** A deployment of three units that is refreshing from revision v1 to
    v2: unit 2 has refreshed, units 1 and 0 have not. *)
Module Deployment.

Definition unit2 : _KubernetesUnit :=
  {| number := 2; controller_revision := "v2"; pod_uid := "uid2" |}.
Definition unit1 : _KubernetesUnit :=
  {| number := 1; controller_revision := "v1"; pod_uid := "uid1" |}.
Definition unit0 : _KubernetesUnit :=
  {| number := 0; controller_revision := "v1"; pod_uid := "uid0" |}.

Definition app_databag : AppDatabag :=
  {| app_refresh_started_if_app_controller_revision_hash_in := None;
     original_workload_version := Some (Some "14.11");
     original_workload_container_version := Some "sha256:old";
     original_installed_workload_container_matched_pinned_container := Some true;
     original_charm_version := Some "14/1.0.0";
     original_charm_revision := Some "ch:amd64/jammy/postgresql-k8s-1" |}.

Definition files : LocalState :=
  {| kubernetes_unit_tearing_down := false;
     kubernetes_unit_tearing_down_logged := false;
     kubernetes_had_opportunity_to_raise_partition_after_pod_restart := true;
     kubernetes_pod_ids_of_units_that_are_tearing_down_json := None;
     kubernetes_refresh_started := false |}.

(** The environment of an evaluation on unit [me] for the event [e]; the
    new charm pins the installed container and the callbacks succeed. *)
Definition env (e : Event) (me : Z) (leader : bool) (pause_after : string) : Env :=
  {| event := e;
     charm_unit := me;
     charm_app := "postgresql-k8s";
     is_leader := leader;
     config_pause_after_unit_refresh := pause_after;
     status_allowed := true;
     update_revision := "v2";
     pods := [unit0; unit2; unit1];
     this_pod_containerStatuses :=
       Some [{| status_name := "charm"; imageID := "registry/charm-base@sha256:base" |};
             {| status_name := "postgresql";
                imageID := "registry/postgresql-image@sha256:new" |}];
     peer_relation_available := true;
     refresh_versions_toml_charm := Some "14/1.1.0";
     refresh_versions_toml_workload := Some "14.12";
     metadata_yaml_upstream_source := Some "ghcr.io/canonical/charmed-postgresql@sha256:new";
     metadata_yaml_workload_containers := ["postgresql"];
     juju_charm_file := "ch:amd64/jammy/postgresql-k8s-2";
     workload_name := "PostgreSQL";
     CharmVersion_valid := λ _, true;
     is_compatible := λ _ _ _ _, true;
     run_pre_refresh_checks_after_1_unit_refreshed := None;
     run_pre_refresh_checks_before_any_units_refreshed := None |}.

Definition world (partition : Z) (r : PeerRelation) : World :=
  {| partition := partition;
     patches := [];
     local_state := files;
     relation := r;
     action_output := [];
     app_status := None;
     checks := [] |}.

(** No unit has written to the relation yet. *)
Definition empty_relation : PeerRelation :=
  {| unit_databags := ∅; my_app := app_databag |}.

Definition databag_with_pause_after (value : string) : UnitDatabag :=
  with_pause_after_config empty_unit_databag (Some value).

End Deployment.

(** Three units on the same controller revision whose databags hold
    "first", "all" and no value of [pause_after_unit_refresh_config]. *)
Definition units_on_v2 : list _KubernetesUnit :=
  [ {| number := 2; controller_revision := "v2"; pod_uid := "uid2" |};
    {| number := 1; controller_revision := "v2"; pod_uid := "uid1" |};
    {| number := 0; controller_revision := "v2"; pod_uid := "uid0" |} ].

Definition relation_first_all_absent : PeerRelation :=
  {| unit_databags :=
       <[2 := Deployment.databag_with_pause_after "first"]>
         (<[1 := Deployment.databag_with_pause_after "all"]> ∅);
     my_app := Deployment.app_databag |}.

(** Whether each automatic check passes or is skipped by the
    force-refresh-start action, read off the conditions of the source. *)
Definition workload_container_check_passes (self : _Kubernetes)
    (force_start : option _ForceRefreshStartAction) : bool :=
  skipped force_start check_workload_container
  || bool_decide (_installed_workload_container_version self
                  = Some (_pinned_workload_container_version self)).

Definition compatibility_check_passes (env : Env) (self : _Kubernetes)
    (original_versions : OriginalVersions._OriginalVersions)
    (force_start : option _ForceRefreshStartAction) : bool :=
  skipped force_start check_compatibility
  || (OriginalVersions.installed_workload_container_matched_pinned_container
        original_versions
      && bool_decide (_installed_workload_container_version self
                      = Some (_pinned_workload_container_version self))
      && is_compatible env
           (OriginalVersions.charm original_versions)
           (_installed_charm_version self)
           (OriginalVersions.workload original_versions)
           (_pinned_workload_version self)).

Definition pre_refresh_checks_pass (env : Env)
    (force_start : option _ForceRefreshStartAction) : bool :=
  skipped force_start run_pre_refresh_checks
  || bool_decide (run_pre_refresh_checks_after_1_unit_refreshed env = None).

(** The checks an evaluation is expected to enter: container, then
    compatibility, then pre-refresh checks, without the skipped ones and
    without any check after the first that fails.  [is_compatible] is
    called inside the compatibility check, when the original and the
    installed containers match(ed) their pins. *)
Definition expected_checks (env : Env) (self : _Kubernetes)
    (original_versions : OriginalVersions._OriginalVersions)
    (force_start : option _ForceRefreshStartAction) : list Check :=
  (if skipped force_start check_workload_container then []
   else [check_workload_container_entered])
  ++ (if workload_container_check_passes self force_start then
        (if skipped force_start check_compatibility then []
         else
           check_compatibility_entered
           :: (if OriginalVersions.installed_workload_container_matched_pinned_container
                    original_versions
                  && bool_decide (_installed_workload_container_version self
                                  = Some (_pinned_workload_container_version self))
               then [is_compatible_called
                       (OriginalVersions.charm original_versions)
                       (_installed_charm_version self)
                       (OriginalVersions.workload original_versions)
                       (_pinned_workload_version self)]
               else []))
        ++ (if compatibility_check_passes env self original_versions force_start then
              (if skipped force_start run_pre_refresh_checks then []
               else [run_pre_refresh_checks_after_1_unit_refreshed_called])
            else [])
      else []).

(** The unit status an evaluation is expected to end with: the blocked
    status of the first check that fails. *)
Definition expected_unit_status (env : Env) (self : _Kubernetes)
    (original_versions : OriginalVersions._OriginalVersions)
    (force_start : option _ForceRefreshStartAction) : option Status :=
  if negb (workload_container_check_passes self force_start) then
    Some (BlockedStatus Juju_refresh_was_run_with_missing_or_incorrect_OCI_resource)
  else if negb (compatibility_check_passes env self original_versions force_start) then
    Some (BlockedStatus Refresh_incompatible_rollback_with_instructions)
  else
    match skipped force_start run_pre_refresh_checks,
          run_pre_refresh_checks_after_1_unit_refreshed env with
    | false, Some message =>
        Some (BlockedStatus (Rollback_with_juju_refresh_pre_refresh_check_failed message))
    | _, _ => None
    end.

(** [w] after more action output and more entered checks. *)
Definition with_outputs (w : World) (o : list ActionOutput) (c : list Check) : World :=
  {| partition := partition w; patches := patches w; local_state := local_state w;
     relation := relation w; action_output := action_output w ++ o;
     app_status := app_status w; checks := checks w ++ c |}.

(** The [_Kubernetes] object on unit 2 of the example deployment once it
    runs the new charm, and the same unit after a rollback to the original
    charm and container. *)
Definition self_on_unit2 (installed_charm_version : string)
    (installed_container pinned_container : string) : _Kubernetes :=
  {| _in_progress := true;
     _app_controller_revision := "v2";
     _units := [Deployment.unit2; Deployment.unit1; Deployment.unit0];
     _unit_controller_revision := "v2";
     _units_not_tearing_down := [Deployment.unit2; Deployment.unit1; Deployment.unit0];
     _installed_charm_version := installed_charm_version;
     _pinned_workload_version := "14.12";
     _pinned_workload_container_version := pinned_container;
     _installed_workload_container_version := Some installed_container;
     _pause_after := PauseAfter.ALL;
     _refresh_started := false;
     _unit_status_higher_priority := None;
     _app_status_higher_priority := None |}.

Definition refreshed_self : _Kubernetes :=
  self_on_unit2 "14/1.1.0" "sha256:new" "sha256:new".

Definition rolled_back_self : _Kubernetes :=
  self_on_unit2 "14/1.0.0" "sha256:old" "sha256:old".

Definition example_original_versions : OriginalVersions._OriginalVersions :=
  {| OriginalVersions.workload := Some "14.11";
     OriginalVersions.workload_container := "sha256:old";
     OriginalVersions.installed_workload_container_matched_pinned_container := true;
     OriginalVersions.charm := "14/1.0.0";
     OriginalVersions.charm_revision_raw := "ch:amd64/jammy/postgresql-k8s-1" |}.

Definition with_partition (w : World) (p : Z) : World :=
  {| partition := p; patches := patches w; local_state := local_state w;
     relation := relation w; action_output := action_output w;
     app_status := app_status w; checks := checks w |}.

(** The partition after each of a sequence of runs of
    [_set_partition_and_app_status].  The runs may differ in everything
    they read (event, units, relation, pause policy, ...); each finds the
    partition as the run before it left it. *)
Fixpoint recomputations (steps : list (Env * _Kubernetes * World)) (partition0 : Z)
    : list Z :=
  match steps with
  | [] => []
  | (env, self, w) :: steps' =>
      let w' :=
        (_set_partition_and_app_status env self true (with_partition w partition0)).2 in
      partition w' :: recomputations steps' (partition w')
  end.

(** What [_set_partition_and_app_status] can do to the world: it leaves
    the relation, the local state and the entered checks alone, and it
    either leaves the partition alone, or (during a refresh) lowers it with
    one patch, or (when no refresh is in progress) sets it to 0 with one
    patch. *)
Definition policy_step (in_progress : bool) (w w' : World) : Prop :=
  relation w' = relation w
  ∧ local_state w' = local_state w
  ∧ checks w' = checks w
  ∧ ((partition w' = partition w ∧ patches w' = patches w)
     ∨ (in_progress = true ∧ partition w' < partition w
        ∧ patches w' = patches w ++ [partition w'])
     ∨ (in_progress = false ∧ partition w' = 0 ∧ partition w ≠ 0
        ∧ patches w' = patches w ++ [0])).


(** The example deployment as the leader (unit 2) sees it once the refresh
    has started and unit 2 has allowed the next unit to refresh. *)
Definition leader_self (pause_after : PauseAfter._PauseAfter) : _Kubernetes :=
  {| _in_progress := true;
     _app_controller_revision := "v2";
     _units := [Deployment.unit2; Deployment.unit1; Deployment.unit0];
     _unit_controller_revision := "v2";
     _units_not_tearing_down := [Deployment.unit2; Deployment.unit1; Deployment.unit0];
     _installed_charm_version := "14/1.1.0";
     _pinned_workload_version := "14.12";
     _pinned_workload_container_version := "sha256:new";
     _installed_workload_container_version := Some "sha256:new";
     _pause_after := pause_after;
     _refresh_started := true;
     _unit_status_higher_priority := None;
     _app_status_higher_priority := None |}.

Definition relation_unit2_allowed : PeerRelation :=
  {| unit_databags :=
       <[2 := with_next_unit_allowed
                (with_refresh_started (Deployment.databag_with_pause_after "first")
                   (Some ["v2"]))
                (Some "v2")]> ∅;
     my_app := Deployment.app_databag |}.

(** Two runs of the policy on the leader: an ordinary event, then the
    resume-refresh action. *)
Definition example_steps : list (Env * _Kubernetes * World) :=
  [ (Deployment.env OtherEvent 2 true "first", leader_self PauseAfter.FIRST,
     Deployment.world 3 relation_unit2_allowed);
    (Deployment.env (ActionEvent (resume_refresh true)) 2 true "first",
     leader_self PauseAfter.FIRST, Deployment.world 3 relation_unit2_allowed) ].

(** [workload_allowed_to_start] reads the world and leaves it as it is;
    what it reads of the relation is the app databag and, of each unit's
    databag, the controller revisions for which the refresh has started. *)
Definition workload_allowed_to_start_value (env : Env) (self : _Kubernetes)
    (r : PeerRelation) : Outcome bool :=
  (workload_allowed_to_start env self
     {| partition := 0; patches := []; local_state := Deployment.files; relation := r;
        action_output := []; app_status := None; checks := [] |}).1.


(** The example deployment before unit 2 has allowed the next unit to
    refresh. *)
Definition relation_unit2_started : PeerRelation :=
  {| unit_databags :=
       <[2 := with_refresh_started (Deployment.databag_with_pause_after "first")
                (Some ["v2"])]> ∅;
     my_app := Deployment.app_databag |}.

(** [w] with another partition, log of patches, local state and relation. *)
Definition world_of (w : World) (p : Z) (ps : list Z) (l : LocalState) (r : PeerRelation)
    : World :=
  {| partition := p; patches := ps; local_state := l; relation := r;
     action_output := action_output w; app_status := app_status w; checks := checks w |}.

(** *** The writes of [set_attributes] in closed form *)

(** The versions that [read_versions] returns, when it returns; the closed
    form is used only then. *)
Definition refresh_versions_charm (env : Env) : string :=
  match read_versions env with
  | Returned versions => installed_charm_version versions
  | Raised _ => ""
  end.

Definition refresh_versions_workload (env : Env) : string :=
  match read_versions env with
  | Returned versions => pinned_workload_version versions
  | Raised _ => ""
  end.

Definition upstream_source_digest (env : Env) : string :=
  match read_versions env with
  | Returned versions => pinned_workload_container_version versions
  | Raised _ => ""
  end.

Definition this_pod_image_digest (env : Env) : option string :=
  match read_versions env with
  | Returned versions => installed_workload_container_version versions
  | Raised _ => None
  end.

(** The uids of the pods of the unit that departs the peer relation. *)
Definition departing_uids (env : Env) (units : list _KubernetesUnit) : list string :=
  match event env with
  | RelationDepartedEvent departing_unit =>
      if bool_decide (unit_app departing_unit = charm_app env)
      then pod_uid <$> filter (λ unit, number unit = unit_number departing_unit) units
      else []
  | _ => []
  end.

(** What the pre-refresh-check action tells the event and which callback
    it calls. *)
Definition pre_refresh_check_outputs (env : Env) (in_progress : bool)
    : list ActionOutput * list Check :=
  match event env with
  | ActionEvent pre_refresh_check =>
      if in_progress then ([Fail Refresh_already_in_progress], [])
      else if is_leader env then
        if truthy (this_pod_image_digest env) then
          ([match run_pre_refresh_checks_before_any_units_refreshed env with
            | Some message => Fail (Charm_is_not_ready_for_refresh message)
            | None => Result Charm_is_ready_for_refresh
            end],
           [run_pre_refresh_checks_before_any_units_refreshed_called])
        else
          ([Fail (Charm_is_not_ready_for_refresh
                    (workload_name env +:+ " container is not running"))], [])
      else ([Fail Must_run_action_on_leader_unit], [])
  | _ => ([], [])
  end.

(** The relation with the databag [d] for the unit [me] and the app
    databag [a]. *)
Definition put (r : PeerRelation) (me : Z) (d : UnitDatabag) (a : AppDatabag) : PeerRelation :=
  {| unit_databags := <[me := d]> (unit_databags r); my_app := a |}.

(** The snapshot that the leader saves when no refresh is in progress. *)
Definition saved_app_databag (env : Env) (a : AppDatabag) : AppDatabag :=
  match this_pod_image_digest env with
  | Some container =>
      if truthy (this_pod_image_digest env) then
        {| app_refresh_started_if_app_controller_revision_hash_in := None;
           original_workload_version :=
             Some (if bool_decide (container = upstream_source_digest env)
                   then Some (refresh_versions_workload env) else None);
           original_workload_container_version := Some container;
           original_installed_workload_container_matched_pinned_container :=
             Some (bool_decide (container = upstream_source_digest env));
           original_charm_version := Some (refresh_versions_charm env);
           original_charm_revision := Some (juju_charm_file env) |}
      else with_app_refresh_started a None
  | None => with_app_refresh_started a None
  end.

(** Whether [from_app_databag] returns. *)
Definition versions_readable (valid : string → bool) (a : AppDatabag) : bool :=
  match OriginalVersions.from_app_databag valid a with
  | Returned _ => true
  | Raised _ => false
  end.

(** The steps of [set_attributes] on this unit's databag. *)
Definition uids_step (l : LocalState) (d : UnitDatabag) : UnitDatabag :=
  match kubernetes_pod_ids_of_units_that_are_tearing_down_json l with
  | Some uids =>
      with_pod_uids_tearing_down d
        (Some (foldl (λ acc uid, append_if_missing uid acc)
                 (default [] (pod_uids_of_units_that_are_tearing_down d)) uids))
  | None => d
  end.

Definition departing_step (uid : string) (d : UnitDatabag) : list string :=
  append_if_missing uid (default [] (pod_uids_of_units_that_are_tearing_down d)).

Definition stop_step (env : Env) (in_progress : bool) (revision : string) (d : UnitDatabag)
    : UnitDatabag :=
  if is_StopEvent (event env) && in_progress
  then with_unused_controller_revision d (Some revision)
  else d.

Definition hashes_step (revision : string) (l : LocalState) (d : UnitDatabag) : UnitDatabag :=
  if kubernetes_refresh_started l then
    with_refresh_started d
      (Some (append_if_missing revision
               (default [] (refresh_started_if_app_controller_revision_hash_in d))))
  else d.

Definition clean_up_step (in_progress : bool) (d : UnitDatabag) : UnitDatabag :=
  if in_progress then d
  else with_pod_uids_tearing_down (with_refresh_started d None) None.

Definition clean_up_local_state (in_progress : bool) (l : LocalState) : LocalState :=
  if in_progress then l
  else with_pod_ids_json (with_refresh_started_local l false) None.

(** Whether the partition is raised after a pod restart. *)
Definition raised_after_pod_restart (env : Env) (in_progress : bool) (w : World) : bool :=
  negb (kubernetes_had_opportunity_to_raise_partition_after_pod_restart (local_state w))
  && in_progress && (partition w <? charm_unit env).

(** [set_attributes] from "Determine [self._units_not_tearing_down]" on,
    when this unit's databag is [dC] and the local state is [lC]. *)
Definition attributes_after_departing (env : Env) (units : list _KubernetesUnit)
    (this_unit : _KubernetesUnit) (in_progress : bool) (w : World)
    (dC : UnitDatabag) (lC : LocalState) : option (_Kubernetes * World) :=
  let me := charm_unit env in
  let revision := controller_revision this_unit in
  let a0 := my_app (relation w) in
  let raised := raised_after_pod_restart env in_progress w in
  let units_not_tearing_down :=
    units_not_tearing_down_of (put (relation w) me dC a0) units in
  let dE := hashes_step revision lC (stop_step env in_progress revision dC) in
  let aF :=
    if is_leader env
    then propagate_refresh_started_to_app (put (relation w) me dE a0) units
    else a0 in
  match determine_pause_after (put (relation w) me dE aF) units units_not_tearing_down with
  | Raised _ => None
  | Returned pause_after =>
      let aG :=
        if in_progress then aF
        else if is_leader env then saved_app_databag env aF
        else aF in
      if negb (in_progress || (is_leader env && truthy (this_pod_image_digest env)))
         || versions_readable (CharmVersion_valid env) aG
      then
        Some
          ({| _in_progress := in_progress;
              _app_controller_revision := update_revision env;
              _units := units;
              _unit_controller_revision := revision;
              _units_not_tearing_down := units_not_tearing_down;
              _installed_charm_version := refresh_versions_charm env;
              _pinned_workload_version := refresh_versions_workload env;
              _pinned_workload_container_version := upstream_source_digest env;
              _installed_workload_container_version := this_pod_image_digest env;
              _pause_after := pause_after;
              _refresh_started := false;
              _unit_status_higher_priority := None;
              _app_status_higher_priority := None |},
           with_outputs
             (world_of w
                (if raised then me else partition w)
                (patches w ++ (if raised then [me] else []))
                (clean_up_local_state in_progress lC)
                (put (relation w) me (clean_up_step in_progress dE) aG))
             (pre_refresh_check_outputs env in_progress).1
             (pre_refresh_check_outputs env in_progress).2)
      else None
  end.

(** [set_attributes] on [w] when [read_versions] returns: the attributes
    and the world it leaves; [None] when it raises. *)
Definition attributes_closed_form (env : Env) (units : list _KubernetesUnit)
    (this_unit : _KubernetesUnit) (in_progress : bool) (w : World)
    : option (_Kubernetes * World) :=
  let me := charm_unit env in
  let raised := raised_after_pod_restart env in_progress w in
  let dA :=
    with_pause_after_config
      (if raised
       then with_unused_pod_uid (relation_get (relation w) me) (Some (pod_uid this_unit))
       else relation_get (relation w) me)
      (Some (config_pause_after_unit_refresh env)) in
  let lA := with_had_opportunity (local_state w) true in
  let dB := uids_step lA dA in
  match departing_uids env units with
  | [] => attributes_after_departing env units this_unit in_progress w dB lA
  | [uid] =>
      attributes_after_departing env units this_unit in_progress w
        (with_pod_uids_tearing_down dB (Some (departing_step uid dB)))
        (with_pod_ids_json lA (Some (departing_step uid dB)))
  | _ => None
  end.

(** *** [_start_refresh] in closed form *)

Definition is_force_refresh_start (e : Event) : bool :=
  match e with
  | ActionEvent (force_refresh_start _ _ _) => true
  | _ => false
  end.

(** The value of [force_start] in [_start_refresh]. *)
Definition force_start_of (env : Env) (first_unit_to_refresh : _KubernetesUnit)
    (in_progress : bool) : option _ForceRefreshStartAction :=
  match event env with
  | ActionEvent (force_refresh_start cwc cc rprc) =>
      if bool_decide (charm_unit env = number first_unit_to_refresh) && in_progress
         && any_parameter_is_False [cwc; cc; rprc]
      then Some {| check_workload_container := cwc;
                   check_compatibility := cc;
                   run_pre_refresh_checks := rprc |}
      else None
  | _ => None
  end.

(** The world once the refresh is recorded as started: this unit's
    controller revision is in its databag and the local state file exists. *)
Definition started_world (env : Env) (self : _Kubernetes) (w : World) : World :=
  world_of w (partition w) (patches w)
    (with_refresh_started_local (local_state w) true)
    (put (relation w) (charm_unit env)
       (with_refresh_started (relation_get (relation w) (charm_unit env))
          (Some (append_if_missing (_unit_controller_revision self)
                   (default [] (refresh_started_if_app_controller_revision_hash_in
                                  (relation_get (relation w) (charm_unit env)))))))
       (my_app (relation w))).

(** Whether [_start_refresh] starts the refresh, and the attributes it
    leaves, from what it reads: whether the databags say that the refresh
    has started, and the version snapshot. *)
Definition start_refresh_result (env : Env) (self : _Kubernetes) (first_unit : _KubernetesUnit)
    (started : bool) (original : Outcome OriginalVersions._OriginalVersions)
    : Outcome (_Kubernetes * bool) :=
  let force_start := force_start_of env first_unit true in
  let self0 := with__refresh_started (with__unit_status_higher_priority self None) started in
  if negb (bool_decide (charm_unit env = number first_unit)
           && bool_decide (_unit_controller_revision self = _app_controller_revision self))
  then Returned (self0, false)
  else if negb (bool_decide (1 < length (_units self))%nat) then Raised AssertionError
  else
    match original with
    | Raised e => Raised e
    | Returned original_versions =>
        if started then Returned (self0, false)
        else if is_rollback self original_versions
             || (workload_container_check_passes self force_start
                 && compatibility_check_passes env self original_versions force_start
                 && pre_refresh_checks_pass env force_start)
        then Returned (with__refresh_started self0 true, true)
        else
          Returned
            (with__unit_status_higher_priority self0
               (expected_unit_status env self original_versions force_start), false)
    end.

(** The hashes that the leader gathers from the unit databags. *)
Definition gather_hashes (hashes_of : _KubernetesUnit → list string)
    (units : list _KubernetesUnit) (acc : list string) : list string :=
  foldl (λ hashes2 unit,
           foldl (λ hashes2 hash_, append_if_missing hash_ hashes2) hashes2 (hashes_of unit))
    acc units.

(** *** A second evaluation *)

(** The world at the start of the next evaluation: nothing has been told
    to the event, no patch has been issued, no status has been set and no
    check has been entered; the partition, the local state and the databags
    are as the last evaluation left them. *)
Definition fresh (w : World) : World :=
  {| partition := partition w; patches := []; local_state := local_state w;
     relation := relation w; action_output := []; app_status := None; checks := [] |}.

(** The world after "Raise StatefulSet partition during stop event". *)
Definition raised_during_stop_event (env : Env) (w : World) : World :=
  if is_StopEvent (event env) && in_progress_of env (sorted_reverse (pods env))
     && (partition w <? charm_unit env)
  then world_of w (charm_unit env) (patches w ++ [charm_unit env]) (local_state w)
         (relation w)
  else w.

(** This unit's databag [d] and its local state [l] hold everything that
    [set_attributes] propagates during a refresh. *)
Definition settled (env : Env) (units : list _KubernetesUnit) (revision : string)
    (d : UnitDatabag) (l : LocalState) : Prop :=
  kubernetes_had_opportunity_to_raise_partition_after_pod_restart l = true
  ∧ pause_after_unit_refresh_config d = Some (config_pause_after_unit_refresh env)
  ∧ (∀ uids, kubernetes_pod_ids_of_units_that_are_tearing_down_json l = Some uids →
       ∃ known, pod_uids_of_units_that_are_tearing_down d = Some known
                ∧ ∀ uid, uid ∈ uids → uid ∈ known)
  ∧ (∀ uid, departing_uids env units = [uid] →
       ∃ known, pod_uids_of_units_that_are_tearing_down d = Some known
                ∧ uid ∈ known
                ∧ kubernetes_pod_ids_of_units_that_are_tearing_down_json l = Some known)
  ∧ (kubernetes_refresh_started l = true →
       ∃ hashes, refresh_started_if_app_controller_revision_hash_in d = Some hashes
                 ∧ revision ∈ hashes)
  ∧ (is_StopEvent (event env) = true →
       _unused_controller_revision_during_last_stop_event d = Some revision).

(** This unit's databag [d] and its local state [l] are as
    [set_attributes] leaves them when no refresh is in progress. *)
Definition cleaned (env : Env) (d : UnitDatabag) (l : LocalState) : Prop :=
  kubernetes_had_opportunity_to_raise_partition_after_pod_restart l = true
  ∧ pause_after_unit_refresh_config d = Some (config_pause_after_unit_refresh env)
  ∧ kubernetes_pod_ids_of_units_that_are_tearing_down_json l = None
  ∧ kubernetes_refresh_started l = false
  ∧ pod_uids_of_units_that_are_tearing_down d = None
  ∧ refresh_started_if_app_controller_revision_hash_in d = None.

(** The attributes that [set_attributes] assigns. *)
Definition attributes (env : Env) (units : list _KubernetesUnit) (this_unit : _KubernetesUnit)
    (in_progress : bool) (units_not_tearing_down : list _KubernetesUnit)
    (pause_after : PauseAfter._PauseAfter) : _Kubernetes :=
  {| _in_progress := in_progress;
     _app_controller_revision := update_revision env;
     _units := units;
     _unit_controller_revision := controller_revision this_unit;
     _units_not_tearing_down := units_not_tearing_down;
     _installed_charm_version := refresh_versions_charm env;
     _pinned_workload_version := refresh_versions_workload env;
     _pinned_workload_container_version := upstream_source_digest env;
     _installed_workload_container_version := this_pod_image_digest env;
     _pause_after := pause_after;
     _refresh_started := false;
     _unit_status_higher_priority := None;
     _app_status_higher_priority := None |}.

(** [w] after [_set_partition_and_app_status] told [out] to the event and
    set the app status [status], without a patch. *)
Definition told (w : World) (out : list ActionOutput) (status : option Status) : World :=
  {| partition := partition w; patches := patches w; local_state := local_state w;
     relation := relation w; action_output := action_output w ++ out;
     app_status := status; checks := checks w |}.


(** The example deployment at the start of a refresh: the leader, unit 2,
    runs the new charm, units 1 and 0 do not yet; the partition is 3 and no
    unit has written to the relation.  After the first evaluation on unit 2
    the refresh has started and the partition is 2. *)
Definition start_of_refresh : World := Deployment.world 3 Deployment.empty_relation.

Definition refresh_just_started : World :=
  {| partition := 2;
     patches := [2];
     local_state := with_refresh_started_local Deployment.files true;
     relation :=
       {| unit_databags :=
            <[2 := with_refresh_started (Deployment.databag_with_pause_after "none")
                     (Some ["v2"])]> ∅;
          my_app := with_app_refresh_started Deployment.app_databag (Some []) |};
     action_output := [];
     app_status := Some (MaintenanceStatus Refreshing_to_pause_refresh_run_juju_config);
     checks := [check_workload_container_entered; check_compatibility_entered;
                is_compatible_called "14/1.0.0" "14/1.1.0" (Some "14.11") "14.12";
                run_pre_refresh_checks_after_1_unit_refreshed_called] |}.

Definition leader_after_start : _Kubernetes :=
  with__app_status_higher_priority (leader_self PauseAfter.NONE)
    (Some (MaintenanceStatus Refreshing_to_pause_refresh_run_juju_config)).

(** The example deployment later in the refresh, where the pod of the
    leader, unit 2, stops: the partition is 1, unit 2 has allowed the next
    unit to refresh and has saved its controller revision during an earlier
    stop event. *)
Definition leader_stopping : World :=
  Deployment.world 1
    {| unit_databags :=
         <[2 := with_unused_controller_revision
                  (with_next_unit_allowed
                     (with_refresh_started (Deployment.databag_with_pause_after "none")
                        (Some ["v2"]))
                     (Some "v2"))
                  (Some "v2")]> ∅;
       my_app := with_app_refresh_started Deployment.app_databag (Some ["v2"]) |}.

(** *** The partition along evaluations of [__init__] *)

(** [m] reads the partition at most: it leaves the partition and the log
    of patches as they are, whether it returns or raises. *)
Definition keeps_partition {A} (m : M A) : Prop :=
  ∀ w, partition (m w).2 = partition w ∧ patches (m w).2 = patches w.

(** Whether a guard of [__init__] can raise the partition during a refresh:
    the event is a stop event, or the file that records the opportunity to
    raise the partition after a pod restart is missing, and the partition is
    below this unit's number. *)
Definition guard_may_raise (env : Env) (w : World) : bool :=
  (is_StopEvent (event env)
   || negb (kubernetes_had_opportunity_to_raise_partition_after_pod_restart (local_state w)))
  && (partition w <? charm_unit env).

(** The partition after each of a sequence of evaluations of [__init__].
    The evaluations may differ in everything they read (unit, event, pods,
    relation, local state, ...); each finds the partition as the evaluation
    before it left it. *)
Fixpoint evaluations (steps : list (Env * World)) (partition0 : Z) : list Z :=
  match steps with
  | [] => []
  | (env, w) :: steps' =>
      let w' := (__init__ env (with_partition w partition0)).2 in
      partition w' :: evaluations steps' (partition w')
  end.

(** No guard can raise the partition in any evaluation of the sequence. *)
Fixpoint no_guard_raises (steps : list (Env * World)) (partition0 : Z) : bool :=
  match steps with
  | [] => true
  | (env, w) :: steps' =>
      negb (guard_may_raise env (with_partition w partition0))
      && no_guard_raises steps' (partition (__init__ env (with_partition w partition0)).2)
  end.

(** Two evaluations on the leader of the example deployment: an ordinary
    event, then the resume-refresh action. *)
Definition example_evaluations : list (Env * World) :=
  [ (Deployment.env OtherEvent 2 true "first", Deployment.world 3 relation_unit2_allowed);
    (Deployment.env (ActionEvent (resume_refresh true)) 2 true "first",
     Deployment.world 3 relation_unit2_allowed) ].

(** A rollback while the app is scaled down.  The app ran charm "14/1.0.0"
    on controller revision "v1"; a refresh to "v2" has been rolled back, so
    that the update revision is "v1" again.  Unit 2 runs the rolled-back
    revision, units 1 and 0 still run "v2", and the pod of unit 3 is tearing
    down: unit 2 has recorded its uid. *)
Module Rollback.

Definition unit3 : _KubernetesUnit :=
  {| number := 3; controller_revision := "v2"; pod_uid := "uid3" |}.
Definition unit2 : _KubernetesUnit :=
  {| number := 2; controller_revision := "v1"; pod_uid := "uid2" |}.
Definition unit1 : _KubernetesUnit :=
  {| number := 1; controller_revision := "v2"; pod_uid := "uid1" |}.
Definition unit0 : _KubernetesUnit :=
  {| number := 0; controller_revision := "v2"; pod_uid := "uid0" |}.

(** The evaluation of an ordinary event on unit 2, which is not the
    leader. *)
Definition env : Env :=
  {| event := OtherEvent;
     charm_unit := 2;
     charm_app := "postgresql-k8s";
     is_leader := false;
     config_pause_after_unit_refresh := "first";
     status_allowed := true;
     update_revision := "v1";
     pods := [unit0; unit1; unit2; unit3];
     this_pod_containerStatuses :=
       Some [{| status_name := "postgresql";
                imageID := "registry/postgresql-image@sha256:old" |}];
     peer_relation_available := true;
     refresh_versions_toml_charm := Some "14/1.0.0";
     refresh_versions_toml_workload := Some "14.11";
     metadata_yaml_upstream_source := Some "ghcr.io/canonical/charmed-postgresql@sha256:old";
     metadata_yaml_workload_containers := ["postgresql"];
     juju_charm_file := "ch:amd64/jammy/postgresql-k8s-1";
     workload_name := "PostgreSQL";
     CharmVersion_valid := λ _, true;
     is_compatible := λ _ _ _ _, true;
     run_pre_refresh_checks_after_1_unit_refreshed := None;
     run_pre_refresh_checks_before_any_units_refreshed := None |}.

Definition world : World :=
  Deployment.world 3
    {| unit_databags :=
         <[2 := with_pod_uids_tearing_down (Deployment.databag_with_pause_after "first")
                  (Some ["uid3"])]> ∅;
       my_app := Deployment.app_databag |}.

End Rollback.

(** A scale-up during a refresh.  Units 2, 1 and 0 run controller revision
    "v1" and each has written "all" to its databag; the update revision is
    "v2", and the pod of the new unit 3 was created on it.  Unit 3 has not
    written to the relation yet. *)
Module ScaleUp.

Definition unit3 : _KubernetesUnit :=
  {| number := 3; controller_revision := "v2"; pod_uid := "uid3" |}.
Definition unit2 : _KubernetesUnit :=
  {| number := 2; controller_revision := "v1"; pod_uid := "uid2" |}.
Definition unit1 : _KubernetesUnit :=
  {| number := 1; controller_revision := "v1"; pod_uid := "uid1" |}.
Definition unit0 : _KubernetesUnit :=
  {| number := 0; controller_revision := "v1"; pod_uid := "uid0" |}.

Definition units : list _KubernetesUnit := [unit3; unit2; unit1; unit0].

(** The evaluation of an ordinary event on unit 0. *)
Definition env : Env :=
  {| event := OtherEvent;
     charm_unit := 0;
     charm_app := "postgresql-k8s";
     is_leader := false;
     config_pause_after_unit_refresh := "all";
     status_allowed := true;
     update_revision := "v2";
     pods := [unit0; unit1; unit2; unit3];
     this_pod_containerStatuses :=
       Some [{| status_name := "postgresql";
                imageID := "registry/postgresql-image@sha256:old" |}];
     peer_relation_available := true;
     refresh_versions_toml_charm := Some "14/1.0.0";
     refresh_versions_toml_workload := Some "14.11";
     metadata_yaml_upstream_source := Some "ghcr.io/canonical/charmed-postgresql@sha256:old";
     metadata_yaml_workload_containers := ["postgresql"];
     juju_charm_file := "ch:amd64/jammy/postgresql-k8s-1";
     workload_name := "PostgreSQL";
     CharmVersion_valid := λ _, true;
     is_compatible := λ _ _ _ _, true;
     run_pre_refresh_checks_after_1_unit_refreshed := None;
     run_pre_refresh_checks_before_any_units_refreshed := None |}.

Definition relation : PeerRelation :=
  {| unit_databags :=
       <[2 := Deployment.databag_with_pause_after "all"]>
         (<[1 := Deployment.databag_with_pause_after "all"]>
            (<[0 := Deployment.databag_with_pause_after "all"]> ∅));
     my_app := Deployment.app_databag |}.

Definition world : World := Deployment.world 3 relation.

End ScaleUp.

(** ** Further parts of the library *)

(** *** Names and revisions read from strings *)

(** [_RawCharmRevision.charmhub_revision]: [self.split("-")[-1]] when the
    contents of [.juju-charm] start with "ch:", [None] otherwise. *)
Definition charmhub_revision (self : string) : Outcome (option string) :=
  if String.prefix "ch:" self then
    match last (str_split "-"%char self) with
    | Some revision => Returned (Some revision)
    | None => Raised IndexError
    end
  else Returned None.

(** What [_KubernetesUnit.from_pod] reads of a pod: [metadata.name],
    [metadata.labels["controller-revision-hash"]] when the label is there,
    and [metadata.uid]. *)
Record Pod := {
  metadata_name : string;
  metadata_labels_controller_revision_hash : option string;
  metadata_uid : string }.

(** The arguments of [_KubernetesUnit.__new__]. *)
Record NewUnit := {
  new_name : string;
  new_controller_revision : string;
  new_pod_uid : string }.

(** [_KubernetesUnit.from_pod]: [*app_name, unit_number =
    pod_name.split("-")] raises [ValueError] on an empty list; a missing
    label raises [KeyError]. *)
Definition from_pod (pod : Pod) : Outcome NewUnit :=
  let pod_name := metadata_name pod in
  let parts := str_split "-"%char pod_name in
  match last parts with
  | None => Raised ValueError
  | Some unit_number =>
      let app_name := removelast parts in
      let unit_name := str_join "-" app_name +:+ "/" +:+ unit_number in
      match metadata_labels_controller_revision_hash pod with
      | None => Raised KeyError
      | Some controller_revision =>
          Returned {| new_name := unit_name;
                      new_controller_revision := controller_revision;
                      new_pod_uid := metadata_uid pod |}
      end
  end.


(** *** Deployments at rest and behind the guards of [__init__] *)

(** The example app after a refresh has completed: every pod runs "v2". *)
Module AtRest.

Definition env (me : Z) (leader : bool) : Env :=
  {| event := OtherEvent;
     charm_unit := me;
     charm_app := "postgresql-k8s";
     is_leader := leader;
     config_pause_after_unit_refresh := "first";
     status_allowed := true;
     update_revision := "v2";
     pods := units_on_v2;
     this_pod_containerStatuses :=
       Some [{| status_name := "postgresql";
                imageID := "registry/postgresql-image@sha256:new" |}];
     peer_relation_available := true;
     refresh_versions_toml_charm := Some "14/1.1.0";
     refresh_versions_toml_workload := Some "14.12";
     metadata_yaml_upstream_source := Some "ghcr.io/canonical/charmed-postgresql@sha256:new";
     metadata_yaml_workload_containers := ["postgresql"];
     juju_charm_file := "ch:amd64/jammy/postgresql-k8s-2";
     workload_name := "PostgreSQL";
     CharmVersion_valid := λ _, true;
     is_compatible := λ _ _ _ _, true;
     run_pre_refresh_checks_after_1_unit_refreshed := None;
     run_pre_refresh_checks_before_any_units_refreshed := None |}.

End AtRest.

(** The example deployment on the leader, unit 2, when the app is not
    trusted ([trusted = false]) or the peer relation is not yet available
    ([peer_relation = false]). *)
Definition guarded_env (e : Event) (trusted peer_relation : bool) : Env :=
  {| event := e;
     charm_unit := 2;
     charm_app := "postgresql-k8s";
     is_leader := true;
     config_pause_after_unit_refresh := "all";
     status_allowed := trusted;
     update_revision := "v2";
     pods := [Deployment.unit0; Deployment.unit2; Deployment.unit1];
     this_pod_containerStatuses :=
       Some [{| status_name := "postgresql";
                imageID := "registry/postgresql-image@sha256:new" |}];
     peer_relation_available := peer_relation;
     refresh_versions_toml_charm := Some "14/1.1.0";
     refresh_versions_toml_workload := Some "14.12";
     metadata_yaml_upstream_source := Some "ghcr.io/canonical/charmed-postgresql@sha256:new";
     metadata_yaml_workload_containers := ["postgresql"];
     juju_charm_file := "ch:amd64/jammy/postgresql-k8s-2";
     workload_name := "PostgreSQL";
     CharmVersion_valid := λ _, true;
     is_compatible := λ _ _ _ _, true;
     run_pre_refresh_checks_after_1_unit_refreshed := None;
     run_pre_refresh_checks_before_any_units_refreshed := None |}.

(** ** Charm code versions *)

Module CharmVersion.
Section packaging.

(** [packaging.version]: [Version(s)] ([None] for [InvalidVersion]), its
    [release], its [base_version] and its [>]. *)
Variable Version : Type.
Variable Version_new : string → option Version.
Variable release : Version → list Z.
Variable base_version : Version → string.
Variable Version_gt : Version → Version → bool.

Record CharmVersion := {
  _version : string;
  track : string;
  _pep440_version : Version;
  released : bool;
  major : Z }.

(** [CharmVersion.__init__]: [track, pep440_version = version.split("/")]
    raises [ValueError] unless there are two parts, and so does every check
    that follows. *)
Definition __init__ (version : string) : Outcome CharmVersion :=
  match str_split "/"%char version with
  | [track; pep440_version] =>
      if str_contains "!"%char pep440_version then Raised ValueError
      else
        match Version_new pep440_version with
        | None => Raised ValueError
        | Some pep440 =>
            if negb (bool_decide (length (release pep440) = 3%nat)) then Raised ValueError
            else
              match release pep440 with
              | [] => Raised IndexError
              | major :: _ =>
                  Returned {| _version := version;
                              track := track;
                              _pep440_version := pep440;
                              released :=
                                bool_decide (pep440_version = base_version pep440);
                              major := major |}
              end
        end
  | _ => Raised ValueError
  end.

Definition __str__ (self : CharmVersion) : string := _version self.

(** [__eq__] with another [CharmVersion]. *)
Definition __eq__ (self other : CharmVersion) : bool :=
  bool_decide (_version self = _version other).

Definition __gt__ (self other : CharmVersion) : Outcome bool :=
  if negb (bool_decide (track self = track other)) then Raised ValueError
  else Returned (Version_gt (_pep440_version self) (_pep440_version other)).

(** [__ge__], which [functools.total_ordering] derives from [__gt__]:
    [op_result = self > other], then [op_result or self == other]. *)
Definition __ge__ (self other : CharmVersion) : Outcome bool :=
  match __gt__ self other with
  | Raised e => Raised e
  | Returned op_result => Returned (op_result || __eq__ self other)
  end.

(** [CharmSpecific._is_charm_version_compatible] *)
Definition _is_charm_version_compatible (old new : CharmVersion) : Outcome bool :=
  if negb (released old && released new) then Returned false
  else if negb (bool_decide (major old = major new)) then Returned false
  else __ge__ new old.

(** [CharmSpecific.is_compatible], as a subclass calls it through
    [super()]. *)
Definition is_compatible (old_charm_version new_charm_version : CharmVersion)
    (old_workload_version new_workload_version : string) : Outcome bool :=
  match _is_charm_version_compatible old_charm_version new_charm_version with
  | Raised e => Raised e
  | Returned compatible => if negb compatible then Returned false else Returned true
  end.

End packaging.

Arguments _version {Version} _.
Arguments track {Version} _.
Arguments _pep440_version {Version} _.
Arguments released {Version} _.
Arguments major {Version} _.
Arguments __str__ {Version} _.
Arguments __eq__ {Version} _ _.
Arguments __gt__ {Version} _ _ _.
Arguments __ge__ {Version} _ _ _.
Arguments _is_charm_version_compatible {Version} _ _ _.
Arguments is_compatible {Version} _ _ _ _ _.
Arguments __init__ {Version} _ _ _ _.

End CharmVersion.

(** * Verification *)

(** ** [_PauseAfter] *)

Lemma PauseAfter_gt_priorities a b :
  PauseAfter.__gt__ a b = true ↔ PauseAfter.priorities b < PauseAfter.priorities a.
Proof. unfold PauseAfter.__gt__. apply Z.ltb_lt. Qed.

Lemma PauseAfter_priorities_inj a b :
  PauseAfter.priorities a = PauseAfter.priorities b → a = b.
Proof. destruct a, b; simpl; intros H; first [reflexivity | discriminate H]. Qed.

(** [__gt__] is a strict total order on the members, with
    none < first < all < unknown. *)
Lemma PauseAfter_gt_strict_total_order :
  (∀ a, PauseAfter.__gt__ a a = false)
  ∧ (∀ a b c, PauseAfter.__gt__ a b = true → PauseAfter.__gt__ b c = true →
              PauseAfter.__gt__ a c = true)
  ∧ (∀ a b, a = b ∨ PauseAfter.__gt__ a b = true ∨ PauseAfter.__gt__ b a = true)
  ∧ PauseAfter.__gt__ PauseAfter.FIRST PauseAfter.NONE = true
  ∧ PauseAfter.__gt__ PauseAfter.ALL PauseAfter.FIRST = true
  ∧ PauseAfter.__gt__ PauseAfter.UNKNOWN PauseAfter.ALL = true.
Proof.
  repeat split.
  - intros a. unfold PauseAfter.__gt__. apply Z.ltb_irrefl.
  - intros a b c. rewrite !PauseAfter_gt_priorities. lia.
  - intros a b. rewrite !PauseAfter_gt_priorities.
    destruct (Z.lt_trichotomy (PauseAfter.priorities a) (PauseAfter.priorities b))
      as [H | [H | H]]; auto using PauseAfter_priorities_inj.
Qed.

(** A string that is not the value of a member is coerced to [UNKNOWN];
    the constructor is total. *)
Lemma PauseAfter_call_unrecognised s :
  s ≠ "none" → s ≠ "first" → s ≠ "all" → s ≠ "unknown" →
  PauseAfter.call s = PauseAfter.UNKNOWN.
Proof.
  intros H1 H2 H3 H4. unfold PauseAfter.call, PauseAfter.lookup_by_value.
  rewrite !bool_decide_eq_false_2 by assumption. reflexivity.
Qed.

Lemma PauseAfter_call_value p : PauseAfter.call (PauseAfter.value p) = p.
Proof. destruct p; reflexivity. Qed.

(** On this class the decorator finds every comparison already defined
    (by [str] or by the class body) and adds none. *)
Lemma total_ordering_adds_nothing :
  ∃ attr, PauseAfter.total_ordering PauseAfter.class_attribute = Returned attr
          ∧ ∀ op, attr op = PauseAfter.class_attribute op.
Proof. eexists. split; [reflexivity |]. intros []; reflexivity. Qed.

(** C9 (evaluation at the failing input).  [FIRST > NONE] is decided by the
    priorities, but [<] and [>=] are the comparisons of [str]:
    [NONE < FIRST] is false, [FIRST < NONE] is true and [ALL >= FIRST] is
    false, so the four comparisons of [_PauseAfter] do not form one order
    none < first < all < unknown. *)
Theorem PauseAfter_lt_is_str_order :
  PauseAfter.compare PauseAfter.op_gt PauseAfter.FIRST PauseAfter.NONE = Some true
  ∧ PauseAfter.compare PauseAfter.op_lt PauseAfter.NONE PauseAfter.FIRST = Some false
  ∧ PauseAfter.compare PauseAfter.op_lt PauseAfter.FIRST PauseAfter.NONE = Some true
  ∧ PauseAfter.compare PauseAfter.op_ge PauseAfter.ALL PauseAfter.FIRST = Some false.
Proof. repeat split; reflexivity. Qed.

(** ** [_OriginalVersions] *)

Lemma OriginalVersions_new_spec w c m ch rev :
  match OriginalVersions.new w c m ch rev with
  | Returned v =>
      v = OriginalVersions.Build__OriginalVersions w c m ch rev
      ∧ (is_Some w ↔ m = true)
  | Raised e => e = ValueError ∧ ¬ (is_Some w ↔ m = true)
  end.
Proof.
  unfold OriginalVersions.new, OriginalVersions.__post_init__; simpl.
  destruct m, w as [s|]; simpl.
  - split; [reflexivity |]. split; eauto.
  - split; [reflexivity |]. intros [_ H]. destruct H as [? H]; [reflexivity | discriminate H].
  - split; [reflexivity |]. intros [H _]. discriminate H. eauto.
  - split; [reflexivity |]. split; [intros [? H]; discriminate H | intros H; discriminate H].
Qed.

Lemma from_app_databag_spec valid databag :
  match OriginalVersions.from_app_databag valid databag with
  | Returned v => snapshot_invariant v
  | Raised e => e = ValueError
  end.
Proof.
  unfold OriginalVersions.from_app_databag.
  destruct (original_workload_version databag) as [w|]; [| reflexivity].
  destruct (original_workload_container_version databag) as [c|]; [| reflexivity].
  destruct (original_installed_workload_container_matched_pinned_container databag)
    as [m|]; [| reflexivity].
  destruct (original_charm_version databag) as [ch|]; [| reflexivity].
  destruct (original_charm_revision databag) as [rev|]; [| reflexivity].
  destruct (valid ch); [| reflexivity].
  pose proof (OriginalVersions_new_spec w c m ch rev) as H.
  destruct (OriginalVersions.new w c m ch rev) as [v | e]; [| reflexivity].
  destruct H as [-> H]. exact H.
Qed.

(** C8.  The constructor of [_OriginalVersions] returns exactly when the
    workload version is present iff the matched flag is true, and raises
    [ValueError] otherwise; so a snapshot read with [from_app_databag]
    satisfies the invariant (any failure is a [ValueError]), and the
    snapshot that [__init__] builds to write to the app databag is always
    constructed and satisfies it. *)
Theorem OriginalVersions_invariant :
  (∀ w c m ch rev,
     match OriginalVersions.new w c m ch rev with
     | Returned v =>
         v = OriginalVersions.Build__OriginalVersions w c m ch rev ∧ snapshot_invariant v
     | Raised e => e = ValueError ∧ ¬ (is_Some w ↔ m = true)
     end)
  ∧ (∀ valid databag,
       match OriginalVersions.from_app_databag valid databag with
       | Returned v => snapshot_invariant v
       | Raised e => e = ValueError
       end)
  ∧ (∀ pinned_workload_version container pinned_container ch rev,
       let matches_pin := bool_decide (container = pinned_container) in
       ∃ v, OriginalVersions.new (if matches_pin then Some pinned_workload_version else None)
              container matches_pin ch rev = Returned v
            ∧ snapshot_invariant v).
Proof.
  split; [| split].
  - intros w c m ch rev. pose proof (OriginalVersions_new_spec w c m ch rev) as H.
    destruct (OriginalVersions.new w c m ch rev) as [v | e]; [| exact H].
    destruct H as [-> H]. split; [reflexivity | exact H].
  - apply from_app_databag_spec.
  - intros pv c pc ch rev matches_pin.
    pose proof (OriginalVersions_new_spec (if matches_pin then Some pv else None)
                  c matches_pin ch rev) as H.
    destruct (OriginalVersions.new _ c matches_pin ch rev) as [v | e].
    + destruct H as [-> H]. eexists. split; [reflexivity | exact H].
    + exfalso. destruct H as [_ H]. apply H. destruct matches_pin; split; eauto.
      * intros [? H']. discriminate H'.
      * intros H'. discriminate H'.
Qed.

(** ** The force-refresh-start action *)

(** C2 (as amended).  A force-refresh-start action run on the first unit to
    refresh while a refresh is in progress is accepted exactly when at least
    one of its three parameters is false, with no action failure; when all
    three are true it fails with "Must run with at least one of ...
    parameters =false".  Any non-empty set of checks can be bypassed,
    all three included. *)
Theorem force_start_requires_a_bypass env first_unit w cwc cc rprc :
  event env = ActionEvent (force_refresh_start cwc cc rprc) →
  charm_unit env = number first_unit →
  _ForceRefreshStartAction__init__ env first_unit true w =
    if negb cwc || negb cc || negb rprc
    then (Returned (Some {| check_workload_container := cwc;
                            check_compatibility := cc;
                            run_pre_refresh_checks := rprc |}), w)
    else (Returned None,
          with_action_output w
            (action_output w ++ [Fail Must_run_with_at_least_one_parameter_false])).
Proof.
  intros Hev Hunit. unfold _ForceRefreshStartAction__init__. rewrite Hev.
  rewrite bool_decide_eq_true_2 by exact Hunit. simpl.
  destruct cwc, cc, rprc; reflexivity.
Qed.

Lemma force_start_requires_a_bypass_witness :
  _ForceRefreshStartAction__init__
    (Deployment.env (ActionEvent (force_refresh_start true false true)) 2 false "all")
    Deployment.unit2 true (Deployment.world 2 Deployment.empty_relation)
  = (Returned (Some {| check_workload_container := true;
                       check_compatibility := false;
                       run_pre_refresh_checks := true |}),
     Deployment.world 2 Deployment.empty_relation).
Proof.
  apply (force_start_requires_a_bypass
           (Deployment.env (ActionEvent (force_refresh_start true false true)) 2 false "all")
           Deployment.unit2 (Deployment.world 2 Deployment.empty_relation)
           true false true); reflexivity.
Defined.

(** C2 (counterexample).  On unit 2 of the example deployment, the action
    with all three checks bypassed is accepted without a failure, and the
    action that bypasses no check (a strict subset) is rejected. *)
Lemma force_start_bypassing_all_checks_is_accepted :
  _ForceRefreshStartAction__init__
    (Deployment.env (ActionEvent (force_refresh_start false false false)) 2 false "all")
    Deployment.unit2 true (Deployment.world 2 Deployment.empty_relation)
  = (Returned (Some {| check_workload_container := false;
                       check_compatibility := false;
                       run_pre_refresh_checks := false |}),
     Deployment.world 2 Deployment.empty_relation)
  ∧ _ForceRefreshStartAction__init__
      (Deployment.env (ActionEvent (force_refresh_start true true true)) 2 false "all")
      Deployment.unit2 true (Deployment.world 2 Deployment.empty_relation)
    = (Returned None,
       with_action_output (Deployment.world 2 Deployment.empty_relation)
         [Fail Must_run_with_at_least_one_parameter_false]).
Proof. split; reflexivity. Qed.

(** The whole evaluation for the action that bypasses all three checks:
    the refresh is started and no check is entered. *)
Lemma force_start_bypassing_all_checks_starts_refresh :
  let w' :=
    (__init__
       (Deployment.env (ActionEvent (force_refresh_start false false false)) 2 false "all")
       (Deployment.world 2 Deployment.empty_relation)).2 in
  checks w' = []
  ∧ kubernetes_refresh_started (local_state w') = true
  ∧ action_output w'
    = [Log Skipping_check_workload_container; Log Skipping_check_compatibility;
       Log Skipping_pre_refresh_checks; Result (Workload_refreshed_on_unit_starting 2)].
Proof. vm_compute. repeat split. Qed.

(** ** The effective pause policy *)

Lemma max_loop_spec l x :
  PauseAfter.max_loop l x ∈ x :: l
  ∧ ∀ q, q ∈ x :: l →
         PauseAfter.priorities q ≤ PauseAfter.priorities (PauseAfter.max_loop l x).
Proof.
  revert x. induction l as [| y l IH]; intros x; simpl.
  - split; [left |]. intros q Hq. apply list_elem_of_singleton in Hq. subst. lia.
  - unfold PauseAfter.max_loop in *. simpl.
    destruct (PauseAfter.__gt__ y x) eqn:Hgt.
    + apply PauseAfter_gt_priorities in Hgt.
      destruct (IH y) as [Hin Hmax]. split.
      * right. exact Hin.
      * intros q Hq. apply elem_of_cons in Hq as [-> | Hq].
        -- specialize (Hmax y (list_elem_of_here _ _)). lia.
        -- apply Hmax. exact Hq.
    + assert (PauseAfter.priorities y ≤ PauseAfter.priorities x) as Hle.
      { destruct (Z.lt_ge_cases (PauseAfter.priorities x) (PauseAfter.priorities y))
          as [H | H]; [| lia].
        apply PauseAfter_gt_priorities in H. congruence. }
      destruct (IH x) as [Hin Hmax]. split.
      * apply elem_of_cons in Hin as [Hin | Hin];
          [rewrite Hin; left | right; right; exact Hin].
      * intros q Hq. apply elem_of_cons in Hq as [-> | Hq]; [apply Hmax; left |].
        apply elem_of_cons in Hq as [-> | Hq].
        -- specialize (Hmax x (list_elem_of_here _ _)). lia.
        -- apply Hmax. right. exact Hq.
Qed.

(** The generator of the source yields the present values of the most
    up-to-date units. *)
Lemma pause_after_values_spec r first_unit units_tail first_ntd ntd_tail units :
  pause_after_values r (controller_revision first_unit) (first_ntd :: ntd_tail) units
  = Returned
      (omap (λ unit, pause_after_unit_refresh_config (relation_get r (number unit)))
         (filter (λ unit, most_up_to_date (first_unit :: units_tail)
                            (first_ntd :: ntd_tail) unit = true) units)).
Proof.
  induction units as [| unit units IH]; [reflexivity |].
  simpl. rewrite IH.
  assert (most_up_to_date (first_unit :: units_tail) (first_ntd :: ntd_tail) unit
          = bool_decide (controller_revision unit = controller_revision first_unit)
            || bool_decide (controller_revision unit = controller_revision first_ntd))
    as Hm by reflexivity.
  destruct (bool_decide (controller_revision unit = controller_revision first_unit));
    simpl in *.
  - rewrite filter_cons_True by exact Hm. simpl.
    destruct (pause_after_unit_refresh_config (relation_get r (number unit))); reflexivity.
  - destruct (bool_decide (controller_revision unit = controller_revision first_ntd)).
    + rewrite filter_cons_True by exact Hm. simpl.
      destruct (pause_after_unit_refresh_config (relation_get r (number unit)));
        reflexivity.
    + rewrite filter_cons_False by (rewrite Hm; discriminate). reflexivity.
Qed.

(** When some unit is not tearing down and at least one
    value of [pause_after_unit_refresh_config] is present in the databags of
    the most up-to-date units, [self._pause_after] is a maximum, for
    none < first < all < unknown, of the [_PauseAfter] members of the present
    values. *)
Theorem effective_pause_policy r units units_not_tearing_down :
  units_not_tearing_down ≠ [] →
  present_pause_after_values r units units_not_tearing_down ≠ [] →
  ∃ p, determine_pause_after r units units_not_tearing_down = Returned p
       ∧ p ∈ PauseAfter.call <$> present_pause_after_values r units units_not_tearing_down
       ∧ ∀ q, q ∈ PauseAfter.call
                    <$> present_pause_after_values r units units_not_tearing_down →
              PauseAfter.priorities q ≤ PauseAfter.priorities p.
Proof.
  intros Hntd Hvalues.
  destruct units_not_tearing_down as [| first_ntd ntd_tail]; [congruence |].
  destruct units as [| first_unit units_tail]; [exfalso; apply Hvalues; reflexivity |].
  unfold determine_pause_after.
  rewrite (pause_after_values_spec r first_unit units_tail).
  fold (present_pause_after_values r (first_unit :: units_tail) (first_ntd :: ntd_tail)).
  destruct (present_pause_after_values r (first_unit :: units_tail) (first_ntd :: ntd_tail))
    as [| value values]; [congruence |].
  simpl. eexists. split; [reflexivity |]. apply max_loop_spec.
Qed.

Lemma effective_pause_policy_witness :
  ∃ p, determine_pause_after relation_first_all_absent units_on_v2 units_on_v2 = Returned p
       ∧ p ∈ PauseAfter.call
               <$> present_pause_after_values relation_first_all_absent units_on_v2 units_on_v2
       ∧ ∀ q, q ∈ PauseAfter.call
                    <$> present_pause_after_values relation_first_all_absent
                          units_on_v2 units_on_v2 →
              PauseAfter.priorities q ≤ PauseAfter.priorities p.
Proof.
  apply (effective_pause_policy relation_first_all_absent units_on_v2 units_on_v2).
  - discriminate.
  - vm_compute. discriminate.
Defined.

(** From the values "first", "all" and an absent one, the policy is [ALL]. *)
Lemma pause_policy_of_first_all_absent :
  present_pause_after_values relation_first_all_absent units_on_v2 units_on_v2
  = ["first"; "all"]
  ∧ determine_pause_after relation_first_all_absent units_on_v2 units_on_v2
    = Returned PauseAfter.ALL.
Proof. split; reflexivity. Qed.

(** C5.  [self._pause_after] is [max(...)] of the values that are present
    in the databags of the most up-to-date units, and [max] has no default:
    when no value is present the evaluation raises [ValueError] instead of
    taking [UNKNOWN].  On the scale-up example every unit that has refreshed
    before has written "all", but the most up-to-date unit is the new unit
    3, which has not written to the relation yet: [read_versions] returns,
    no value is present and [__init__] raises [ValueError] on unit 0.  The
    same happens on the example deployment when unit 2, the only most
    up-to-date unit, has no databag in the relation. *)
Lemma pause_policy_without_values_raises :
  sorted_reverse (pods ScaleUp.env) = ScaleUp.units
  ∧ units_not_tearing_down_of ScaleUp.relation ScaleUp.units = ScaleUp.units
  ∧ most_up_to_date ScaleUp.units ScaleUp.units ScaleUp.unit3 = true
  ∧ pause_after_unit_refresh_config (relation_get ScaleUp.relation 3) = None
  ∧ present_pause_after_values ScaleUp.relation ScaleUp.units ScaleUp.units = []
  ∧ determine_pause_after ScaleUp.relation ScaleUp.units ScaleUp.units = Raised ValueError
  ∧ (∃ versions, read_versions ScaleUp.env = Returned versions)
  ∧ (__init__ ScaleUp.env ScaleUp.world).1 = Raised ValueError
  ∧ present_pause_after_values Deployment.empty_relation
      [Deployment.unit2; Deployment.unit1; Deployment.unit0]
      [Deployment.unit2; Deployment.unit1; Deployment.unit0] = []
  ∧ determine_pause_after Deployment.empty_relation
      [Deployment.unit2; Deployment.unit1; Deployment.unit0]
      [Deployment.unit2; Deployment.unit1; Deployment.unit0] = Raised ValueError
  ∧ (__init__ (Deployment.env OtherEvent 0 false "all")
       (Deployment.world 2 Deployment.empty_relation)).1 = Raised ValueError.
Proof.
  split; [reflexivity |]. split; [reflexivity |]. split; [reflexivity |].
  split; [reflexivity |]. split; [reflexivity |]. split; [reflexivity |].
  split; [eexists; vm_compute; reflexivity |].
  repeat split; vm_compute; reflexivity.
Qed.

(** ** [_start_refresh] *)

Ltac unfold_M :=
  unfold mbind, mret, M_bind, M_ret, when, raise, lift, event_fail, event_log,
    event_result, output, enter, get_world, my_unit, set_my_unit, set_relation,
    my_app_ro, set_my_app_rw, get_local_state, set_local_state, set_app_status,
    _get_partition, _set_partition in *.


Lemma with_outputs_nil w : with_outputs w [] [] = w.
Proof. destruct w. unfold with_outputs. simpl. rewrite !app_nil_r. reflexivity. Qed.

Lemma with_outputs_twice w o1 c1 o2 c2 :
  with_outputs (with_outputs w o1 c1) o2 c2 = with_outputs w (o1 ++ o2) (c1 ++ c2).
Proof. unfold with_outputs. simpl. rewrite !app_assoc. reflexivity. Qed.

Ltac solve_outputs :=
  unfold with_outputs; simpl; rewrite ?app_nil_r, <- ?app_assoc; reflexivity.

Lemma is_Some_None_false {A} : bool_decide (is_Some (@None A)) = false.
Proof. apply bool_decide_eq_false_2. intros [x H]. discriminate H. Qed.

Lemma workload_container_check_spec env self force_start w :
  ∃ out,
    (force_start = None → out = [])
    ∧ workload_container_check env self force_start w
      = (Returned (if workload_container_check_passes self force_start then None
                   else Some (BlockedStatus
                                Juju_refresh_was_run_with_missing_or_incorrect_OCI_resource)),
         with_outputs w out
           (if skipped force_start check_workload_container then []
            else [check_workload_container_entered])).
Proof.
  unfold workload_container_check, workload_container_check_passes, if_force_start.
  destruct force_start as [f |].
  - unfold_M.
    destruct (skipped (Some f) check_workload_container); simpl.
    { eexists [_]. split; [intros H; discriminate H | solve_outputs]. }
    destruct (bool_decide (_installed_workload_container_version self = _)),
      (bool_decide (is_Some (Some f))); simpl;
      first [eexists [_]; split; [intros H; discriminate H | solve_outputs]
            | eexists []; split; [reflexivity | solve_outputs]].
  - rewrite (@is_Some_None_false _ForceRefreshStartAction). unfold_M. simpl.
    destruct (bool_decide (_installed_workload_container_version self = _)); simpl;
      eexists []; (split; [reflexivity | solve_outputs]).
Qed.

Lemma compatibility_check_spec env self original force_start w :
  ∃ out,
    (force_start = None → out = [])
    ∧ compatibility_check env self original force_start w
      = (Returned (if compatibility_check_passes env self original force_start then None
                   else Some (BlockedStatus Refresh_incompatible_rollback_with_instructions)),
         with_outputs w out
           (if skipped force_start check_compatibility then []
            else
              check_compatibility_entered
              :: (if OriginalVersions.installed_workload_container_matched_pinned_container
                       original
                     && bool_decide (_installed_workload_container_version self
                                     = Some (_pinned_workload_container_version self))
                  then [is_compatible_called
                          (OriginalVersions.charm original)
                          (_installed_charm_version self)
                          (OriginalVersions.workload original)
                          (_pinned_workload_version self)]
                  else []))).
Proof.
  unfold compatibility_check, compatibility_check_passes, if_force_start.
  destruct force_start as [f |].
  - unfold_M.
    destruct (skipped (Some f) check_compatibility); simpl.
    { eexists [_]. split; [intros H; discriminate H | solve_outputs]. }
    destruct (OriginalVersions.installed_workload_container_matched_pinned_container original
              && bool_decide (_installed_workload_container_version self = _)); simpl.
    + destruct (is_compatible env _ _ _ _), (bool_decide (is_Some (Some f))); simpl;
        first [eexists [_]; split; [intros H; discriminate H | solve_outputs]
              | eexists []; split; [reflexivity | solve_outputs]].
    + destruct (bool_decide (is_Some (Some f))); simpl;
        first [eexists [_]; split; [intros H; discriminate H | solve_outputs]
              | eexists []; split; [reflexivity | solve_outputs]].
  - rewrite (@is_Some_None_false _ForceRefreshStartAction). unfold_M. simpl.
    destruct (OriginalVersions.installed_workload_container_matched_pinned_container original
              && bool_decide (_installed_workload_container_version self = _)); simpl.
    + destruct (is_compatible env _ _ _ _); simpl;
        eexists []; (split; [reflexivity | solve_outputs]).
    + eexists []. split; [reflexivity | solve_outputs].
Qed.

Lemma pre_refresh_checks_spec env self force_start w :
  ∃ out,
    (force_start = None → out = [])
    ∧ pre_refresh_checks env self force_start w
      = (Returned
           match skipped force_start run_pre_refresh_checks,
                 run_pre_refresh_checks_after_1_unit_refreshed env with
           | false, Some message =>
               Some (BlockedStatus
                       (Rollback_with_juju_refresh_pre_refresh_check_failed message))
           | _, _ => None
           end,
         with_outputs w out
           (if skipped force_start run_pre_refresh_checks then []
            else [run_pre_refresh_checks_after_1_unit_refreshed_called])).
Proof.
  unfold pre_refresh_checks, if_force_start.
  destruct force_start as [f |].
  - unfold_M.
    destruct (skipped (Some f) run_pre_refresh_checks); simpl.
    { eexists [_]. split; [intros H; discriminate H | solve_outputs]. }
    destruct (run_pre_refresh_checks_after_1_unit_refreshed env),
      (bool_decide (is_Some (Some f))); simpl;
      first [eexists [_; _]; split; [intros H; discriminate H | solve_outputs]
            | eexists [_]; split; [intros H; discriminate H | solve_outputs]
            | eexists []; split; [reflexivity | solve_outputs]].
  - rewrite (@is_Some_None_false _ForceRefreshStartAction). unfold_M. simpl.
    destruct (run_pre_refresh_checks_after_1_unit_refreshed env); simpl;
      eexists []; (split; [reflexivity | solve_outputs]).
Qed.

Lemma bind_eq {A B} (m : M A) (k : A → M B) w a w' :
  m w = (Returned a, w') → (m ≫= k) w = k a w'.
Proof. intros H. unfold mbind, M_bind. rewrite H. reflexivity. Qed.

Lemma run_automatic_checks_spec env self original force_start w :
  ∃ self' w',
    run_automatic_checks env self original force_start w = (Returned self', w')
    ∧ checks w' = checks w ++ expected_checks env self original force_start
    ∧ _refresh_started self'
      = _refresh_started self
        || (workload_container_check_passes self force_start
            && compatibility_check_passes env self original force_start
            && pre_refresh_checks_pass env force_start)
    ∧ _unit_status_higher_priority self'
      = match expected_unit_status env self original force_start with
        | Some s => Some s
        | None => _unit_status_higher_priority self
        end
    ∧ partition w' = partition w ∧ patches w' = patches w.
Proof.
  unfold run_automatic_checks, expected_checks, expected_unit_status.
  destruct (workload_container_check_spec env self force_start w) as (o1 & _ & H1).
  rewrite (bind_eq _ _ _ _ _ H1). clear H1.
  destruct (workload_container_check_passes self force_start); simpl.
  2: { eexists _, _. split; [reflexivity |]. simpl. rewrite app_nil_r, orb_false_r.
       repeat split. }
  destruct (compatibility_check_spec env self original force_start (with_outputs w o1
              (if skipped force_start check_workload_container then []
               else [check_workload_container_entered]))) as (o2 & _ & H2).
  rewrite (bind_eq _ _ _ _ _ H2). clear H2.
  destruct (compatibility_check_passes env self original force_start); simpl.
  2: { eexists _, _. split; [reflexivity |]. simpl. rewrite app_nil_r, orb_false_r, <- app_assoc.
       repeat split. }
  match goal with |- context [(pre_refresh_checks env self force_start ≫= _) ?w0] =>
    destruct (pre_refresh_checks_spec env self force_start w0) as (o3 & _ & H3) end.
  rewrite (bind_eq _ _ _ _ _ H3). clear H3.
  unfold pre_refresh_checks_pass.
  destruct (skipped force_start run_pre_refresh_checks); simpl.
  - unfold record_refresh_started, touch_refresh_started_local_state, if_force_start.
    unfold_M. simpl.
    destruct (bool_decide (is_Some force_start)); simpl;
      eexists _, _; (split; [reflexivity |]); simpl;
      rewrite ?app_nil_r, ?orb_true_r, <- ?app_assoc; repeat split.
  - destruct (run_pre_refresh_checks_after_1_unit_refreshed env) as [message |]; simpl.
    + eexists _, _. split; [reflexivity |]. simpl. rewrite orb_false_r, <- !app_assoc.
      repeat split.
    + unfold record_refresh_started, touch_refresh_started_local_state, if_force_start.
      unfold_M. simpl.
      destruct (bool_decide (is_Some force_start)); simpl;
        eexists _, _; (split; [reflexivity |]); simpl;
        rewrite ?app_nil_r, ?orb_true_r, <- ?app_assoc; repeat split.
Qed.

Lemma force_start_init_spec env first_unit in_progress w :
  ∃ force_start out,
    _ForceRefreshStartAction__init__ env first_unit in_progress w
    = (Returned force_start, with_outputs w out []).
Proof.
  unfold _ForceRefreshStartAction__init__. unfold_M.
  destruct (event env) as [[| cwc cc rprc | |] | | |];
    try (eexists _, []; rewrite with_outputs_nil; reflexivity).
  destruct (negb (bool_decide (charm_unit env = number first_unit))).
  { eexists _, [_]. solve_outputs. }
  destruct (negb in_progress).
  { eexists _, [_]. solve_outputs. }
  destruct (any_parameter_is_False [cwc; cc; rprc]).
  - eexists _, []. rewrite with_outputs_nil. reflexivity.
  - eexists _, [_]. solve_outputs.
Qed.

Lemma append_if_missing_elem x l : x ∈ append_if_missing x l.
Proof.
  unfold append_if_missing. case_bool_decide; [assumption |].
  apply elem_of_app. right. left.
Qed.

(** Up to the test for a rollback, [_start_refresh] on the first unit to
    refresh, once that unit runs the app's controller revision. *)
Lemma _start_refresh_on_first_unit env self w first_unit rest original :
  _in_progress self = true →
  _units self = first_unit :: rest →
  rest ≠ [] →
  charm_unit env = number first_unit →
  _unit_controller_revision self = _app_controller_revision self →
  OriginalVersions.from_app_databag (CharmVersion_valid env) (my_app (relation w))
  = Returned original →
  ∃ force_start out,
    _ForceRefreshStartAction__init__ env first_unit true w
    = (Returned force_start, with_outputs w out [])
    ∧ _start_refresh env self w
      = let self0 :=
          with__refresh_started (with__unit_status_higher_priority self None)
            (refresh_started_in_databags self (relation w)) in
        ((self1 ←
            (if negb (_refresh_started self0) && is_rollback self0 original
             then record_refresh_started env self0
             else mret self0);
          if _refresh_started self1 then
            if_force_start force_start (event_fail Refresh_already_started);;
            mret self1
          else run_automatic_checks env self1 original force_start)
           : M _Kubernetes) (with_outputs w out []).
Proof.
  intros Hprogress Hunits Hrest Hme Hrev Horiginal.
  destruct (force_start_init_spec env first_unit true w) as (force_start & out & Hinit).
  exists force_start, out. split; [exact Hinit |].
  unfold _start_refresh. rewrite Hunits, Hprogress.
  rewrite (bind_eq _ _ _ _ _ Hinit).
  cbn [with__unit_status_higher_priority _in_progress negb].
  rewrite Hprogress. cbn [negb].
  unfold get_world at 1. unfold mbind at 1, M_bind at 1.
  cbn [with__refresh_started with__unit_status_higher_priority _unit_controller_revision
       _app_controller_revision _units].
  rewrite (bool_decide_eq_true_2 _ Hme). cbn [negb].
  rewrite (bool_decide_eq_true_2 _ Hrev). cbn [negb].
  rewrite Hunits.
  rewrite bool_decide_eq_true_2
    by (destruct rest; [congruence | simpl; lia]).
  cbn [negb].
  change (relation (with_outputs w out [])) with (relation w).
  rewrite Horiginal.
  unfold lift at 1. unfold mbind at 1, M_bind at 1.
  reflexivity.
Qed.

(** C3 (as amended).  On the unit with the highest number,
    [self._units[0]], whether or not its pod is tearing down, once it runs
    the app's controller revision during a refresh: if the installed charm
    version and workload container digest are the ones of the version
    snapshot, [_start_refresh] returns with the refresh started, no blocked
    unit status and no automatic check entered (neither the container
    check, nor [is_compatible], nor the pre-refresh checks); and if the
    refresh was not recorded as started before, this unit's controller
    revision is appended to its databag and the local state file is
    touched. *)
Theorem rollback_skips_checks env self w first_unit rest original :
  _in_progress self = true →
  _units self = first_unit :: rest →
  rest ≠ [] →
  charm_unit env = number first_unit →
  _unit_controller_revision self = _app_controller_revision self →
  OriginalVersions.from_app_databag (CharmVersion_valid env) (my_app (relation w))
  = Returned original →
  OriginalVersions.charm original = _installed_charm_version self →
  Some (OriginalVersions.workload_container original)
  = _installed_workload_container_version self →
  ∃ self' w',
    _start_refresh env self w = (Returned self', w')
    ∧ _refresh_started self' = true
    ∧ _unit_status_higher_priority self' = None
    ∧ checks w' = checks w
    ∧ (refresh_started_in_databags self (relation w) = false →
       refresh_started_if_app_controller_revision_hash_in
         (relation_get (relation w') (charm_unit env))
       = Some (append_if_missing (_unit_controller_revision self)
                 (default [] (refresh_started_if_app_controller_revision_hash_in
                                (relation_get (relation w) (charm_unit env)))))
       ∧ in_hashes (_unit_controller_revision self)
           (refresh_started_if_app_controller_revision_hash_in
              (relation_get (relation w') (charm_unit env))) = true
       ∧ kubernetes_refresh_started (local_state w') = true).
Proof.
  intros Hprogress Hunits Hrest Hme Hrev Horiginal Hcharm Hcontainer.
  destruct (_start_refresh_on_first_unit env self w first_unit rest original)
    as (force_start & out & _ & ->); try assumption.
  cbv zeta.
  assert (is_rollback
            (with__refresh_started (with__unit_status_higher_priority self None)
               (refresh_started_in_databags self (relation w))) original = true) as ->.
  { unfold is_rollback. simpl. rewrite !bool_decide_eq_true_2 by assumption. reflexivity. }
  rewrite andb_true_r.
  destruct (refresh_started_in_databags self (relation w)) eqn:Hstarted;
    cbn [with__refresh_started _refresh_started negb].
  - unfold if_force_start. unfold_M. simpl.
    destruct (bool_decide (is_Some force_start)); simpl;
      eexists _, _; (split; [reflexivity |]); simpl; rewrite ?app_nil_r;
      (split; [reflexivity |]); (split; [reflexivity |]); (split; [reflexivity |]);
      intros H; discriminate H.
  - unfold record_refresh_started, touch_refresh_started_local_state, if_force_start.
    unfold_M. simpl.
    destruct (bool_decide (is_Some force_start)); simpl;
      eexists _, _; (split; [reflexivity |]); simpl; rewrite ?app_nil_r;
      (split; [reflexivity |]); (split; [reflexivity |]); (split; [reflexivity |]);
      intros _; unfold relation_get; simpl; rewrite !lookup_insert_eq; simpl;
      (split; [reflexivity |]); (split; [| reflexivity]);
      unfold in_hashes; simpl; apply bool_decide_eq_true_2, append_if_missing_elem.
Qed.

(** C4.  On the first unit to refresh, when the refresh has not started
    and the unit is not rolling back, [_start_refresh] enters the checks in
    the order container, compatibility, pre-refresh checks, leaves out the
    ones the force-refresh-start action skips and stops after the first one
    that fails ([expected_checks]); the refresh is started iff every check
    passes or is skipped, and the unit status is the blocked status of the
    check that failed.  When the snapshot says that the original container
    did not match its pin and the compatibility check is not skipped, the
    refresh is not started, the unit is blocked and [is_compatible] is not
    called. *)
Theorem automatic_checks_in_order env self w first_unit rest original force_start :
  _in_progress self = true →
  _units self = first_unit :: rest →
  rest ≠ [] →
  charm_unit env = number first_unit →
  _unit_controller_revision self = _app_controller_revision self →
  OriginalVersions.from_app_databag (CharmVersion_valid env) (my_app (relation w))
  = Returned original →
  refresh_started_in_databags self (relation w) = false →
  is_rollback self original = false →
  (_ForceRefreshStartAction__init__ env first_unit true w).1 = Returned force_start →
  ∃ self' w',
    _start_refresh env self w = (Returned self', w')
    ∧ checks w' = checks w ++ expected_checks env self original force_start
    ∧ _refresh_started self'
      = workload_container_check_passes self force_start
        && compatibility_check_passes env self original force_start
        && pre_refresh_checks_pass env force_start
    ∧ _unit_status_higher_priority self' = expected_unit_status env self original force_start
    ∧ (OriginalVersions.installed_workload_container_matched_pinned_container original
       = false →
       skipped force_start check_compatibility = false →
       _refresh_started self' = false
       ∧ is_Some (_unit_status_higher_priority self')
       ∧ ∀ a b c d, is_compatible_called a b c d ∉ expected_checks env self original force_start).
Proof.
  intros Hprogress Hunits Hrest Hme Hrev Horiginal Hstarted Hrollback Hforce.
  destruct (_start_refresh_on_first_unit env self w first_unit rest original)
    as (force_start' & out & Hinit & ->); try assumption.
  rewrite Hinit in Hforce. simpl in Hforce. injection Hforce as ->.
  cbv zeta. rewrite Hstarted.
  assert (is_rollback
            (with__refresh_started (with__unit_status_higher_priority self None) false)
            original = false) as -> by exact Hrollback.
  cbn [with__refresh_started _refresh_started negb andb].
  unfold mret at 1, M_ret at 1. unfold mbind at 1, M_bind at 1.
  cbn [with__refresh_started _refresh_started].
  destruct (run_automatic_checks_spec env
              (with__refresh_started (with__unit_status_higher_priority self None) false)
              original force_start (with_outputs w out []))
    as (self' & w' & Hrun & Hchecks & Hrs & Hstatus & _).
  exists self', w'. split; [exact Hrun |].
  change (expected_checks env
            (with__refresh_started (with__unit_status_higher_priority self None) false)
            original force_start)
    with (expected_checks env self original force_start) in Hchecks.
  change (expected_unit_status env
            (with__refresh_started (with__unit_status_higher_priority self None) false)
            original force_start)
    with (expected_unit_status env self original force_start) in Hstatus.
  simpl in Hchecks, Hrs, Hstatus. rewrite app_nil_r in Hchecks.
  change (workload_container_check_passes
            (with__refresh_started (with__unit_status_higher_priority self None) false)
            force_start)
    with (workload_container_check_passes self force_start) in Hrs.
  change (compatibility_check_passes env
            (with__refresh_started (with__unit_status_higher_priority self None) false)
            original force_start)
    with (compatibility_check_passes env self original force_start) in Hrs.
  split; [exact Hchecks |]. split; [exact Hrs |].
  split; [destruct (expected_unit_status env self original force_start); exact Hstatus |].
  intros Hunmatched Hnot_skipped.
  assert (compatibility_check_passes env self original force_start = false) as Hcompat.
  { unfold compatibility_check_passes. rewrite Hunmatched, Hnot_skipped. reflexivity. }
  split; [| split].
  - rewrite Hrs, Hcompat. apply andb_false_intro1, andb_false_r.
  - rewrite Hstatus. unfold expected_unit_status. rewrite Hcompat.
    destruct (negb (workload_container_check_passes self force_start)); simpl; eauto.
  - intros a b c d. unfold expected_checks. rewrite Hunmatched, Hnot_skipped, Hcompat.
    simpl. rewrite !elem_of_app.
    destruct (skipped force_start check_workload_container),
      (workload_container_check_passes self force_start); simpl;
      rewrite ?elem_of_cons, ?elem_of_nil; intros H; decompose [or] H;
      first [discriminate | contradiction].
Qed.

Lemma rollback_skips_checks_witness :
  ∃ self' w',
    _start_refresh (Deployment.env OtherEvent 2 false "all") rolled_back_self
      (Deployment.world 2 Deployment.empty_relation) = (Returned self', w')
    ∧ _refresh_started self' = true
    ∧ _unit_status_higher_priority self' = None
    ∧ checks w' = [].
Proof.
  destruct (rollback_skips_checks (Deployment.env OtherEvent 2 false "all") rolled_back_self
              (Deployment.world 2 Deployment.empty_relation)
              Deployment.unit2 [Deployment.unit1; Deployment.unit0]
              example_original_versions)
    as (self' & w' & H1 & H2 & H3 & H4 & _);
    [reflexivity | reflexivity | discriminate | reflexivity | reflexivity
    | reflexivity | reflexivity | reflexivity |].
  exists self', w'. repeat split; assumption.
Defined.

(** C3 (counterexample).  A rollback while the pod of unit 3 is tearing
    down.  Unit 2 is the highest unit that is not tearing down, it runs the
    app's controller revision, and its charm version and workload container
    are the ones of the version snapshot; but [charm.unit] is not
    [self._units[0]], so [_start_refresh] returns before the rollback test:
    the refresh is not started, no controller revision is appended to the
    unit's databag and the local state file is not touched. *)
Lemma rollback_below_a_unit_tearing_down_is_not_certified :
  let result := __init__ Rollback.env Rollback.world in
  ∃ self original,
    result.1 = Returned self
    ∧ _units self = [Rollback.unit3; Rollback.unit2; Rollback.unit1; Rollback.unit0]
    ∧ _units_not_tearing_down self = [Rollback.unit2; Rollback.unit1; Rollback.unit0]
    ∧ charm_unit Rollback.env = number Rollback.unit2
    ∧ _in_progress self = true
    ∧ _unit_controller_revision self = _app_controller_revision self
    ∧ OriginalVersions.from_app_databag (CharmVersion_valid Rollback.env)
        (my_app (relation Rollback.world)) = Returned original
    ∧ OriginalVersions.charm original = _installed_charm_version self
    ∧ Some (OriginalVersions.workload_container original)
      = _installed_workload_container_version self
    ∧ _start_refresh Rollback.env self result.2 = (Returned self, result.2)
    ∧ _refresh_started self = false
    ∧ refresh_started_if_app_controller_revision_hash_in
        (relation_get (relation result.2) (charm_unit Rollback.env)) = None
    ∧ kubernetes_refresh_started (local_state result.2) = false
    ∧ checks result.2 = [].
Proof.
  cbv zeta. eexists _, _.
  split; [vm_compute; reflexivity |]. repeat split; vm_compute; reflexivity.
Qed.

Lemma automatic_checks_in_order_witness :
  ∃ self' w',
    _start_refresh (Deployment.env OtherEvent 2 false "all") refreshed_self
      (Deployment.world 2 Deployment.empty_relation) = (Returned self', w')
    ∧ checks w'
      = [check_workload_container_entered; check_compatibility_entered;
         is_compatible_called "14/1.0.0" "14/1.1.0" (Some "14.11") "14.12";
         run_pre_refresh_checks_after_1_unit_refreshed_called]
    ∧ _refresh_started self' = true
    ∧ _unit_status_higher_priority self' = None.
Proof.
  destruct (automatic_checks_in_order (Deployment.env OtherEvent 2 false "all")
              refreshed_self (Deployment.world 2 Deployment.empty_relation)
              Deployment.unit2 [Deployment.unit1; Deployment.unit0]
              example_original_versions None)
    as (self' & w' & H1 & H2 & H3 & H4 & _);
    [reflexivity | reflexivity | discriminate | reflexivity | reflexivity
    | reflexivity | reflexivity | reflexivity | reflexivity |].
  exists self', w'. repeat split; assumption.
Defined.

(** A force-refresh-start action that skips only the compatibility check
    still runs the container check and the pre-refresh checks; here the
    pre-refresh checks fail, the action fails and the refresh is not
    started. *)
Lemma force_start_without_compatibility_check_runs_the_other_checks :
  let env :=
    {| event := ActionEvent (force_refresh_start true false true);
       charm_unit := 2; charm_app := "postgresql-k8s"; is_leader := false;
       config_pause_after_unit_refresh := "all"; status_allowed := true;
       update_revision := "v2";
       pods := [Deployment.unit0; Deployment.unit2; Deployment.unit1];
       this_pod_containerStatuses :=
         Some [{| status_name := "postgresql";
                  imageID := "registry/postgresql-image@sha256:new" |}];
       peer_relation_available := true;
       refresh_versions_toml_charm := Some "14/1.1.0";
       refresh_versions_toml_workload := Some "14.12";
       metadata_yaml_upstream_source :=
         Some "ghcr.io/canonical/charmed-postgresql@sha256:new";
       metadata_yaml_workload_containers := ["postgresql"];
       juju_charm_file := "ch:amd64/jammy/postgresql-k8s-2";
       workload_name := "PostgreSQL"; CharmVersion_valid := λ _, true;
       is_compatible := λ _ _ _ _, false;
       run_pre_refresh_checks_after_1_unit_refreshed := Some "Backup in progress";
       run_pre_refresh_checks_before_any_units_refreshed := None |} in
  let result := _start_refresh env refreshed_self
                  (Deployment.world 2 Deployment.empty_relation) in
  checks result.2
  = [check_workload_container_entered; run_pre_refresh_checks_after_1_unit_refreshed_called]
  ∧ action_output result.2
    = [Log Checked_workload_container; Log Skipping_check_compatibility;
       Log Running_pre_refresh_checks; Fail (Pre_refresh_check_failed "Backup in progress")]
  ∧ kubernetes_refresh_started (local_state result.2) = false
  ∧ (_refresh_started <$> match result.1 with Returned s => Some s | Raised _ => None end)
    = Some false.
Proof. vm_compute. repeat split. Qed.

(** ** [_set_partition_and_app_status] *)

Lemma next_unit_to_refresh_loop_lookup revision units i last index unit :
  next_unit_to_refresh_loop revision units i last = Some (index, unit) →
  (last = Some (index, unit) ∧ units = [])
  ∨ ((i ≤ index)%nat ∧ units !! (index - i)%nat = Some unit).
Proof.
  revert i last. induction units as [| u units IH]; intros i last H; simpl in H.
  - left. split; [exact H | reflexivity].
  - right. destruct (negb (bool_decide (controller_revision u = revision))).
    + injection H as <- <-. split; [lia |]. rewrite Nat.sub_diag. reflexivity.
    + apply IH in H as [[H ->] | [Hle H]].
      * injection H as <- <-. split; [lia |]. rewrite Nat.sub_diag. reflexivity.
      * split; [lia |]. replace (index - i)%nat with (S (index - S i)) by lia. exact H.
Qed.

Lemma next_unit_to_refresh_lookup revision units index unit :
  next_unit_to_refresh_loop revision units 0 None = Some (index, unit) →
  units !! index = Some unit.
Proof.
  intros H. apply next_unit_to_refresh_loop_lookup in H as [[H _] | [_ H]];
    [discriminate H |]. rewrite Nat.sub_0_r in H. exact H.
Qed.


(** [determine_allow_next_unit_to_refresh] only adds action output. *)
Lemma determine_allow_frame env self handle_action action next_unit index w :
  ∃ o out,
    determine_allow_next_unit_to_refresh env self handle_action action next_unit index w
    = (o, with_outputs w out []).
Proof.
  unfold determine_allow_next_unit_to_refresh. unfold_M.
  destruct (bool_decide (action = Some false)).
  { destruct handle_action; simpl;
      first [eexists _, []; rewrite with_outputs_nil; reflexivity
            | eexists _, [_; _]; solve_outputs]. }
  destruct (negb (_refresh_started self)).
  { destruct (handle_action && bool_decide (is_Some action)); simpl;
      [| eexists _, []; rewrite with_outputs_nil; reflexivity].
    destruct (_units self); simpl;
      first [eexists _, []; rewrite with_outputs_nil; reflexivity
            | eexists _, [_]; solve_outputs]. }
  simpl.
  destruct (first_unit_that_has_not_allowed _ _ _).
  { destruct (handle_action && bool_decide (is_Some action)); simpl;
      first [eexists _, []; rewrite with_outputs_nil; reflexivity
            | eexists _, [_]; solve_outputs]. }
  destruct (pause_after_permits _ _ _);
    [| eexists _, []; rewrite with_outputs_nil; reflexivity].
  destruct (handle_action && bool_decide (is_Some action)); simpl;
    [| eexists _, []; rewrite with_outputs_nil; reflexivity].
  destruct (bool_decide (_pause_after self = PauseAfter.NONE)); simpl;
    [eexists _, []; rewrite with_outputs_nil; reflexivity |].
  destruct (bool_decide (_pause_after self = PauseAfter.FIRST)); simpl;
    eexists _, [_]; solve_outputs.
Qed.


Lemma bind_raised {A B} (m : M A) (k : A → M B) w e w' :
  m w = (Raised e, w') → (m ≫= k) w = (Raised e, w').
Proof. intros H. unfold mbind, M_bind. rewrite H. reflexivity. Qed.

Lemma policy_step_outputs ip w out : policy_step ip w (with_outputs w out []).
Proof. unfold policy_step. simpl. rewrite app_nil_r. repeat split. left. split; reflexivity. Qed.

Ltac policy_step_same :=
  unfold policy_step, with_outputs; simpl; rewrite ?app_nil_r;
  (split; [reflexivity |]); (split; [reflexivity |]); (split; [reflexivity |]);
  left; split; reflexivity.

Ltac destruct_last_head :=
  match goal with
  | |- context [match List.last ?l ?d with _ => _ end] => destruct (List.last l d)
  end;
  try match goal with
  | |- context [match head ?l with _ => _ end] => destruct (head l)
  end.

Lemma _set_partition_and_app_status_step env self handle_action w :
  policy_step (_in_progress self) w (_set_partition_and_app_status env self handle_action w).2.
Proof.
  unfold _set_partition_and_app_status.
  destruct (negb (is_leader env)).
  { unfold_M. destruct (handle_action && _); policy_step_same. }
  cbv zeta.
  match goal with
  | |- context [if bool_decide (?p = PauseAfter.UNKNOWN) then ?a else ?b] =>
      set (self0 := if bool_decide (p = PauseAfter.UNKNOWN) then a else b)
  end.
  assert (_in_progress self0 = _in_progress self) as Hip.
  { subst self0. destruct (bool_decide _); reflexivity. }
  rewrite Hip.
  destruct (_in_progress self) eqn:Hprogress; cbn [negb].
  - (* refresh in progress *)
    match goal with
    | |- context [mbind _ (if ?c then ?a else ?b)] =>
        set (action_step := if c then a else b)
    end.
    assert (∃ action out, action_step w = (Returned action, with_outputs w out []))
      as (action & out0 & Haction).
    { subst action_step. destruct (handle_action && _ && _); unfold_M; simpl.
      - eexists _, [_]. solve_outputs.
      - eexists _, []. rewrite with_outputs_nil. reflexivity. }
    rewrite (bind_eq _ _ _ _ _ Haction).
    destruct (next_unit_to_refresh_loop _ _ _ _) as [[index next_unit] |];
      [| apply policy_step_outputs].
    destruct (determine_allow_frame env self0 handle_action action next_unit index
                (with_outputs w out0 [])) as (o & out1 & Hallow).
    rewrite with_outputs_twice in Hallow. simpl in Hallow.
    destruct o as [allow | e];
      [| rewrite (bind_raised _ _ _ _ _ Hallow); apply policy_step_outputs].
    rewrite (bind_eq _ _ _ _ _ Hallow).
    match goal with
    | |- context [mbind _ (if allow then ?a else ?b)] =>
        set (target_step := if allow then a else b)
    end.
    assert ((∃ target, target_step = mret target) ∨ target_step = raise IndexError)
      as [[target Htarget] | Htarget].
    { subst target_step. destruct allow; [left; eauto |].
      destruct (_ !! _); [left; eauto | right; reflexivity]. }
    2: { rewrite Htarget. apply policy_step_outputs. }
    rewrite Htarget. unfold_M. cbn [partition with_outputs].
    destruct (target <? partition w) eqn:Hlt; simpl.
    + apply Z.ltb_lt in Hlt.
      destruct_last_head;
        unfold policy_step, with_outputs; simpl; rewrite ?app_nil_r;
        (split; [reflexivity |]); (split; [reflexivity |]); (split; [reflexivity |]);
        right; left; (split; [reflexivity |]); (split; [assumption | reflexivity]).
    + destruct_last_head; policy_step_same.
  - (* no refresh in progress *)
    unfold_M. cbn [partition].
    destruct (bool_decide (partition w = 0)) eqn:Hzero; simpl.
    + destruct (handle_action && _), (_app_status_higher_priority self0); policy_step_same.
    + apply bool_decide_eq_false in Hzero.
      destruct (handle_action && _), (_app_status_higher_priority self0);
        unfold policy_step, with_outputs; simpl; rewrite ?app_nil_r;
        (split; [reflexivity |]); (split; [reflexivity |]); (split; [reflexivity |]);
        right; right; (split; [reflexivity |]); (split; [reflexivity |]);
        (split; [assumption | reflexivity]).
Qed.

Lemma recomputations_bound steps p0 :
  Forall (λ step : Env * _Kubernetes * World, _in_progress step.1.2 = true) steps →
  Forall (λ q, q ≤ p0) (recomputations steps p0).
Proof.
  intros Hsteps. revert p0.
  induction Hsteps as [| [[env self] w] steps Hstep _ IH]; intros p0; simpl;
    [constructor |].
  simpl in Hstep.
  pose proof (_set_partition_and_app_status_step env self true (with_partition w p0))
    as (_ & _ & _ & Hpartition).
  rewrite Hstep in Hpartition. simpl in Hpartition.
  assert ((_set_partition_and_app_status env self true (with_partition w p0)).2.(partition)
          ≤ p0) as Hle.
  { destruct Hpartition as [[-> _] | [(_ & Hlt & _) | (Hfalse & _)]];
      [lia | lia | discriminate Hfalse]. }
  constructor; [exact Hle |].
  eapply Forall_impl; [apply IH |]. simpl. intros q Hq. lia.
Qed.


(** The partitions of the example: lowered to 2, then to 1 by the
    resume-refresh action. *)
Lemma example_steps_partitions : recomputations example_steps 3 = [2; 1].
Proof. reflexivity. Qed.


(** The pause policies on the example deployment, for an ordinary event on
    the leader with the partition at 2: "none" lowers the partition to the
    next unit, "first" and "all" leave it and block the app until the
    resume-refresh action, which lowers it. *)
Lemma pause_policies_on_the_example :
  let run pause_after e :=
    (_set_partition_and_app_status (Deployment.env e 2 true "first")
       (leader_self pause_after) true (Deployment.world 2 relation_unit2_allowed)).2 in
  patches (run PauseAfter.NONE OtherEvent) = [1]
  ∧ patches (run PauseAfter.FIRST OtherEvent) = []
  ∧ patches (run PauseAfter.ALL OtherEvent) = []
  ∧ patches (run PauseAfter.UNKNOWN OtherEvent) = []
  ∧ app_status (run PauseAfter.ALL OtherEvent)
    = Some (BlockedStatus (Refreshing_check_units_are_healthy_and_run_resume_refresh 2))
  ∧ patches (run PauseAfter.ALL (ActionEvent (resume_refresh true))) = [1]
  ∧ patches (run PauseAfter.FIRST (ActionEvent (resume_refresh true))) = [1].
Proof. repeat split; reflexivity. Qed.

(** ** The [next_unit_allowed_to_refresh] property *)

Lemma workload_allowed_to_start_reads env self w :
  workload_allowed_to_start env self w
  = (workload_allowed_to_start_value env self (relation w), w).
Proof.
  unfold workload_allowed_to_start_value, workload_allowed_to_start. unfold_M.
  destruct (negb (_in_progress self)); [reflexivity |]. simpl.
  destruct (existsb _ _); [reflexivity |].
  destruct (in_hashes _ _); [reflexivity |].
  destruct (OriginalVersions.from_app_databag _ _); [| reflexivity].
  destruct (_ && _); reflexivity.
Qed.

Lemma workload_allowed_to_start_value_ext env self r1 r2 :
  my_app r1 = my_app r2 →
  (∀ unit, refresh_started_if_app_controller_revision_hash_in (relation_get r1 unit)
           = refresh_started_if_app_controller_revision_hash_in (relation_get r2 unit)) →
  workload_allowed_to_start_value env self r1 = workload_allowed_to_start_value env self r2.
Proof.
  intros Happ Hunits.
  unfold workload_allowed_to_start_value, workload_allowed_to_start. unfold_M.
  destruct (negb (_in_progress self)); [reflexivity |]. cbn [fst snd relation].
  rewrite Happ.
  assert (existsb
            (λ unit, in_hashes (_unit_controller_revision self)
                       (refresh_started_if_app_controller_revision_hash_in
                          (relation_get r1 (number unit)))) (_units self)
          = existsb
              (λ unit, in_hashes (_unit_controller_revision self)
                         (refresh_started_if_app_controller_revision_hash_in
                            (relation_get r2 (number unit)))) (_units self)) as ->.
  { induction (_units self) as [| u l IH]; [reflexivity |]. simpl.
    rewrite Hunits, IH. reflexivity. }
  destruct (existsb _ _); [reflexivity |].
  destruct (in_hashes _ _); [reflexivity |].
  destruct (OriginalVersions.from_app_databag _ _); [| reflexivity].
  destruct (_ && _); reflexivity.
Qed.

Lemma relation_get_insert r me d unit :
  relation_get {| unit_databags := <[me := d]> (unit_databags r); my_app := my_app r |} unit
  = if bool_decide (me = unit) then d else relation_get r unit.
Proof.
  unfold relation_get. simpl. case_bool_decide as H.
  - subst. rewrite lookup_insert_eq. reflexivity.
  - rewrite lookup_insert_ne by exact H. reflexivity.
Qed.

Lemma set_next_unit_allowed_to_refresh_allowed env self w :
  workload_allowed_to_start_value env self (relation w) = Returned true →
  set_next_unit_allowed_to_refresh env self py_True w
  = if bool_decide
         (next_unit_allowed_to_refresh_if_app_controller_revision_hash_equals
            (relation_get (relation w) (charm_unit env))
          = Some (_unit_controller_revision self))
    then (Returned self, w)
    else _set_partition_and_app_status env self false
           (set_my_unit (charm_unit env)
              (with_next_unit_allowed (relation_get (relation w) (charm_unit env))
                 (Some (_unit_controller_revision self))) w).2.
Proof.
  intros Hallowed. unfold set_next_unit_allowed_to_refresh.
  pose proof (workload_allowed_to_start_reads env self w) as Hreads.
  rewrite Hallowed in Hreads. rewrite (bind_eq _ _ _ _ _ Hreads). cbn [negb].
  unfold my_unit at 1. unfold mbind at 1, M_bind at 1.
  destruct (bool_decide _); cbn [negb]; reflexivity.
Qed.

(** C10.  Setting [next_unit_allowed_to_refresh] to a value that is not
    [True] raises [ValueError]; setting it to [True] while
    [workload_allowed_to_start] is [False] raises an exception; in both
    cases the world, this unit's databag included, is left as it was.  When
    the set returns, this unit's databag holds this unit's controller
    revision under
    [next_unit_allowed_to_refresh_if_app_controller_revision_hash_equals],
    reading the property returns [True], and setting it again returns
    without changing anything. *)
Theorem set_next_unit_allowed_to_refresh_spec env self value w :
  let result := set_next_unit_allowed_to_refresh env self value w in
  (value ≠ py_True → result = (Raised ValueError, w))
  ∧ (value = py_True →
     workload_allowed_to_start env self w = (Returned false, w) →
     result = (Raised Exception_, w))
  ∧ (∀ self',
       result.1 = Returned self' →
       value = py_True
       ∧ next_unit_allowed_to_refresh_if_app_controller_revision_hash_equals
           (relation_get (relation result.2) (charm_unit env))
         = Some (_unit_controller_revision self)
       ∧ next_unit_allowed_to_refresh env self result.2 = (Returned true, result.2)
       ∧ set_next_unit_allowed_to_refresh env self py_True result.2
         = (Returned self, result.2)).
Proof.
  intros result. split; [| split].
  - intros Hvalue. subst result. destruct value; first [congruence | reflexivity].
  - intros -> Hallowed. subst result. unfold set_next_unit_allowed_to_refresh.
    rewrite (bind_eq _ _ _ _ _ Hallowed). reflexivity.
  - intros self' Hresult.
    destruct value; try discriminate Hresult. split; [reflexivity |].
    pose proof (workload_allowed_to_start_reads env self w) as Hreads.
    destruct (workload_allowed_to_start_value env self (relation w)) as [[|] | e] eqn:Hallowed.
    2: { exfalso. subst result. unfold set_next_unit_allowed_to_refresh in Hresult.
         rewrite (bind_eq _ _ _ _ _ Hreads) in Hresult. discriminate Hresult. }
    2: { exfalso. subst result. unfold set_next_unit_allowed_to_refresh in Hresult.
         rewrite (bind_raised _ _ _ _ _ Hreads) in Hresult. discriminate Hresult. }
    clear Hresult.
    assert (relation result.2
            = (if bool_decide
                    (next_unit_allowed_to_refresh_if_app_controller_revision_hash_equals
                       (relation_get (relation w) (charm_unit env))
                     = Some (_unit_controller_revision self))
               then relation w
               else {| unit_databags :=
                         <[charm_unit env :=
                             with_next_unit_allowed
                               (relation_get (relation w) (charm_unit env))
                               (Some (_unit_controller_revision self))]>
                           (unit_databags (relation w));
                       my_app := my_app (relation w) |})) as Hrelation.
    { subst result. rewrite (set_next_unit_allowed_to_refresh_allowed _ _ _ Hallowed).
      destruct (bool_decide _); [reflexivity |].
      pose proof (_set_partition_and_app_status_step env self false
                    (set_my_unit (charm_unit env)
                       (with_next_unit_allowed (relation_get (relation w) (charm_unit env))
                          (Some (_unit_controller_revision self))) w).2) as (H & _).
      rewrite H. reflexivity. }
    clearbody result.
    assert (next_unit_allowed_to_refresh_if_app_controller_revision_hash_equals
              (relation_get (relation result.2) (charm_unit env))
            = Some (_unit_controller_revision self)) as Hnow.
    { rewrite Hrelation. case_bool_decide as Halready; [exact Halready |].
      rewrite relation_get_insert, bool_decide_eq_true_2 by reflexivity. reflexivity. }
    assert (workload_allowed_to_start_value env self (relation result.2) = Returned true)
      as Hallowed2.
    { rewrite <- Hallowed, Hrelation. case_bool_decide as Halready; [reflexivity |].
      apply workload_allowed_to_start_value_ext; [reflexivity |].
      intros unit. rewrite relation_get_insert. case_bool_decide as Hme; [| reflexivity].
      subst. reflexivity. }
    split; [exact Hnow |]. split.
    + unfold next_unit_allowed_to_refresh. unfold_M. simpl.
      rewrite bool_decide_eq_true_2 by exact Hnow. reflexivity.
    + rewrite (set_next_unit_allowed_to_refresh_allowed _ _ _ Hallowed2).
      rewrite bool_decide_eq_true_2 by exact Hnow. reflexivity.
Qed.

Lemma set_next_unit_allowed_to_refresh_witness :
  let env := Deployment.env OtherEvent 2 true "first" in
  let result :=
    set_next_unit_allowed_to_refresh env (leader_self PauseAfter.FIRST) py_True
      (Deployment.world 2 relation_unit2_started) in
  next_unit_allowed_to_refresh_if_app_controller_revision_hash_equals
    (relation_get (relation result.2) 2) = Some "v2"
  ∧ next_unit_allowed_to_refresh env (leader_self PauseAfter.FIRST) result.2
    = (Returned true, result.2)
  ∧ set_next_unit_allowed_to_refresh env (leader_self PauseAfter.FIRST) py_True result.2
    = (Returned (leader_self PauseAfter.FIRST), result.2).
Proof.
  intros env result.
  destruct (set_next_unit_allowed_to_refresh_spec env (leader_self PauseAfter.FIRST) py_True
              (Deployment.world 2 relation_unit2_started)) as (_ & _ & H).
  destruct (H _ eq_refl) as (_ & H1 & H2 & H3).
  repeat split; assumption.
Defined.

(** The setter on the example: the databag of unit 2 did not hold the
    revision before, and the other values are refused without a write. *)
Lemma set_next_unit_allowed_to_refresh_example :
  let env := Deployment.env OtherEvent 2 true "first" in
  let w := Deployment.world 2 relation_unit2_started in
  next_unit_allowed_to_refresh env (leader_self PauseAfter.FIRST) w = (Returned false, w)
  ∧ set_next_unit_allowed_to_refresh env (leader_self PauseAfter.FIRST) py_False w
    = (Raised ValueError, w)
  ∧ set_next_unit_allowed_to_refresh env (leader_self PauseAfter.FIRST) (py_int 1) w
    = (Raised ValueError, w)
  ∧ set_next_unit_allowed_to_refresh env refreshed_self py_True
      (Deployment.world 2 Deployment.empty_relation)
    = (Raised Exception_, Deployment.world 2 Deployment.empty_relation).
Proof. repeat split; reflexivity. Qed.

(** ** A second evaluation of [__init__] *)

Lemma relation_get_put_eq r me d a : relation_get (put r me d a) me = d.
Proof. unfold relation_get, put. simpl. rewrite lookup_insert_eq. reflexivity. Qed.

Lemma relation_get_put_ne r me d a unit :
  me ≠ unit → relation_get (put r me d a) unit = relation_get r unit.
Proof. intros H. unfold relation_get, put. simpl. rewrite lookup_insert_ne by exact H. reflexivity. Qed.

Lemma put_put r me d a d' a' : put (put r me d a) me d' a' = put r me d' a'.
Proof. unfold put. simpl. rewrite insert_insert_eq. reflexivity. Qed.

Lemma set_my_unit_put me d w :
  set_my_unit me d w
  = (Returned (),
     {| partition := partition w; patches := patches w; local_state := local_state w;
        relation := put (relation w) me d (my_app (relation w));
        action_output := action_output w; app_status := app_status w;
        checks := checks w |}).
Proof. reflexivity. Qed.

Lemma pre_refresh_check_action_outputs env in_progress installed w :
  installed = this_pod_image_digest env →
  pre_refresh_check_action env in_progress installed w
  = (Returned (),
     with_outputs w (pre_refresh_check_outputs env in_progress).1
       (pre_refresh_check_outputs env in_progress).2).
Proof.
  intros ->. unfold pre_refresh_check_action, pre_refresh_check_outputs. unfold_M.
  destruct (event env) as [[| | |] | | |]; try (rewrite with_outputs_nil; reflexivity).
  destruct in_progress; [solve_outputs |].
  destruct (is_leader env); [| solve_outputs].
  destruct (truthy (this_pod_image_digest env)); [| solve_outputs].
  destruct (run_pre_refresh_checks_before_any_units_refreshed env); solve_outputs.
Qed.

Lemma raise_partition_after_pod_restart_run env this_unit in_progress w :
  let me := charm_unit env in
  let raised :=
    negb (kubernetes_had_opportunity_to_raise_partition_after_pod_restart (local_state w))
    && in_progress && (partition w <? me) in
  raise_partition_after_pod_restart env this_unit in_progress w
  = (Returned (),
     world_of w (if raised then me else partition w)
       (patches w ++ (if raised then [me] else []))
       (with_had_opportunity (local_state w) true)
       (if raised
        then put (relation w) me
               (with_unused_pod_uid (relation_get (relation w) me) (Some (pod_uid this_unit)))
               (my_app (relation w))
        else relation w)).
Proof.
  intros me raised. subst raised me.
  unfold raise_partition_after_pod_restart, raise_partition. unfold_M. unfold world_of.
  destruct (negb _ && in_progress); cbn [andb partition local_state];
    [| rewrite app_nil_r; reflexivity].
  destruct (partition w <? charm_unit env); cbn [partition local_state];
    [reflexivity | rewrite app_nil_r; reflexivity].
Qed.

Lemma set_pause_after_config_run env w :
  set_pause_after_config env w
  = (Returned (),
     world_of w (partition w) (patches w) (local_state w)
       (put (relation w) (charm_unit env)
          (with_pause_after_config (relation_get (relation w) (charm_unit env))
             (Some (config_pause_after_unit_refresh env)))
          (my_app (relation w)))).
Proof. reflexivity. Qed.

Lemma propagate_pod_uids_local_state_run env w :
  propagate_pod_uids_local_state env w
  = (Returned (),
     world_of w (partition w) (patches w) (local_state w)
       (match kubernetes_pod_ids_of_units_that_are_tearing_down_json (local_state w) with
        | Some uids =>
            put (relation w) (charm_unit env)
              (with_pod_uids_tearing_down (relation_get (relation w) (charm_unit env))
                 (Some (foldl (λ acc uid, append_if_missing uid acc)
                          (default [] (pod_uids_of_units_that_are_tearing_down
                                         (relation_get (relation w) (charm_unit env))))
                          uids)))
              (my_app (relation w))
        | None => relation w
        end)).
Proof.
  unfold propagate_pod_uids_local_state. unfold_M. unfold world_of.
  destruct (kubernetes_pod_ids_of_units_that_are_tearing_down_json (local_state w));
    [reflexivity | destruct w; reflexivity].
Qed.

Lemma save_departing_unit_run env units w :
  save_departing_unit env units w
  = match departing_uids env units with
    | [] => (Returned (), w)
    | [uid] =>
        let uids :=
          append_if_missing uid
            (default [] (pod_uids_of_units_that_are_tearing_down
                           (relation_get (relation w) (charm_unit env)))) in
        (Returned (),
         world_of w (partition w) (patches w)
           (with_pod_ids_json (local_state w) (Some uids))
           (put (relation w) (charm_unit env)
              (with_pod_uids_tearing_down (relation_get (relation w) (charm_unit env))
                 (Some uids))
              (my_app (relation w))))
    | _ => (Raised AssertionError, w)
    end.
Proof.
  unfold save_departing_unit, departing_uids. unfold_M.
  destruct (event env) as [| departing_unit | |]; try reflexivity.
  destruct (bool_decide (unit_app departing_unit = charm_app env)); [| reflexivity].
  destruct (pod_uid <$> filter _ units) as [| uid [| uid' uids]]; reflexivity.
Qed.

Lemma save_controller_revision_during_stop_event_run env in_progress revision w :
  save_controller_revision_during_stop_event env in_progress revision w
  = (Returned (),
     world_of w (partition w) (patches w) (local_state w)
       (if is_StopEvent (event env) && in_progress
        then put (relation w) (charm_unit env)
               (with_unused_controller_revision (relation_get (relation w) (charm_unit env))
                  (Some revision))
               (my_app (relation w))
        else relation w)).
Proof.
  unfold save_controller_revision_during_stop_event. unfold_M. unfold world_of.
  destruct (is_StopEvent (event env) && in_progress); [reflexivity | destruct w; reflexivity].
Qed.

Lemma propagate_refresh_started_local_state_run env revision w :
  propagate_refresh_started_local_state env revision w
  = (Returned (),
     world_of w (partition w) (patches w) (local_state w)
       (if kubernetes_refresh_started (local_state w)
        then put (relation w) (charm_unit env)
               (with_refresh_started (relation_get (relation w) (charm_unit env))
                  (Some (append_if_missing revision
                           (default [] (refresh_started_if_app_controller_revision_hash_in
                                          (relation_get (relation w) (charm_unit env)))))))
               (my_app (relation w))
        else relation w)).
Proof.
  unfold propagate_refresh_started_local_state. unfold_M. unfold world_of.
  destruct (kubernetes_refresh_started (local_state w)); [reflexivity | destruct w; reflexivity].
Qed.

Lemma clean_up_and_save_versions_run env w :
  clean_up_and_save_versions env (refresh_versions_charm env) (refresh_versions_workload env)
    (upstream_source_digest env) (this_pod_image_digest env) w
  = (Returned (),
     world_of w (partition w) (patches w)
       (with_pod_ids_json (with_refresh_started_local (local_state w) false) None)
       (put (relation w) (charm_unit env)
          (with_pod_uids_tearing_down
             (with_refresh_started (relation_get (relation w) (charm_unit env)) None) None)
          (if is_leader env then saved_app_databag env (my_app (relation w))
           else my_app (relation w)))).
Proof.
  unfold clean_up_and_save_versions, saved_app_databag. unfold_M. unfold world_of.
  cbn [partition patches local_state relation action_output app_status checks
       unit_databags my_app].
  destruct (is_leader env); [| reflexivity].
  destruct (this_pod_image_digest env) as [container |]; [| reflexivity].
  cbn [truthy]. destruct (negb (bool_decide (container = ""))); [| reflexivity].
  unfold OriginalVersions.new, OriginalVersions.__post_init__. cbn.
  destruct (bool_decide (container = upstream_source_digest env)); reflexivity.
Qed.

Lemma my_app_put r me d a : my_app (put r me d a) = a.
Proof. reflexivity. Qed.

(** The blocks of [set_attributes] on a world whose relation holds the
    databag [d] for this unit. *)
Section Blocks.
Context (env : Env) (w : World) (p : Z) (ps : list Z) (l : LocalState)
  (r : PeerRelation) (d : UnitDatabag) (a : AppDatabag).
Let me := charm_unit env.

Lemma propagate_pod_uids_local_state_put :
  propagate_pod_uids_local_state env (world_of w p ps l (put r me d a))
  = (Returned (), world_of w p ps l (put r me (uids_step l d) a)).
Proof.
  rewrite propagate_pod_uids_local_state_run. unfold uids_step, world_of.
  cbn [partition patches local_state relation action_output app_status checks].
  destruct (kubernetes_pod_ids_of_units_that_are_tearing_down_json l); [| reflexivity].
  fold me. rewrite relation_get_put_eq, put_put. reflexivity.
Qed.

Lemma save_departing_unit_put units :
  save_departing_unit env units (world_of w p ps l (put r me d a))
  = match departing_uids env units with
    | [] => (Returned (), world_of w p ps l (put r me d a))
    | [uid] =>
        (Returned (),
         world_of w p ps (with_pod_ids_json l (Some (departing_step uid d)))
           (put r me (with_pod_uids_tearing_down d (Some (departing_step uid d))) a))
    | _ => (Raised AssertionError, world_of w p ps l (put r me d a))
    end.
Proof.
  rewrite save_departing_unit_run. unfold departing_step, world_of.
  cbn [partition patches local_state relation action_output app_status checks].
  destruct (departing_uids env units) as [| uid [| uid' uids]]; try reflexivity.
  fold me. rewrite relation_get_put_eq, put_put. reflexivity.
Qed.

Lemma save_controller_revision_during_stop_event_put in_progress revision :
  save_controller_revision_during_stop_event env in_progress revision
    (world_of w p ps l (put r me d a))
  = (Returned (), world_of w p ps l (put r me (stop_step env in_progress revision d) a)).
Proof.
  rewrite save_controller_revision_during_stop_event_run. unfold stop_step, world_of.
  cbn [partition patches local_state relation action_output app_status checks].
  destruct (is_StopEvent (event env) && in_progress); [| reflexivity].
  fold me. rewrite relation_get_put_eq, put_put. reflexivity.
Qed.

Lemma propagate_refresh_started_local_state_put revision :
  propagate_refresh_started_local_state env revision (world_of w p ps l (put r me d a))
  = (Returned (), world_of w p ps l (put r me (hashes_step revision l d) a)).
Proof.
  rewrite propagate_refresh_started_local_state_run. unfold hashes_step, world_of.
  cbn [partition patches local_state relation action_output app_status checks].
  destruct (kubernetes_refresh_started l); [| reflexivity].
  fold me. rewrite relation_get_put_eq, put_put. reflexivity.
Qed.

Lemma propagate_to_app_put units :
  when (is_leader env)
    (w ← get_world; set_my_app_rw (propagate_refresh_started_to_app (relation w) units))
    (world_of w p ps l (put r me d a))
  = (Returned (),
     world_of w p ps l
       (put r me d
          (if is_leader env then propagate_refresh_started_to_app (put r me d a) units
           else a))).
Proof. unfold when. destruct (is_leader env); reflexivity. Qed.

Lemma clean_up_put in_progress :
  when (negb in_progress)
    (clean_up_and_save_versions env (refresh_versions_charm env)
       (refresh_versions_workload env) (upstream_source_digest env)
       (this_pod_image_digest env))
    (world_of w p ps l (put r me d a))
  = (Returned (),
     world_of w p ps (clean_up_local_state in_progress l)
       (put r me (clean_up_step in_progress d)
          (if in_progress then a
           else if is_leader env then saved_app_databag env a else a))).
Proof.
  unfold when, clean_up_step, clean_up_local_state.
  destruct in_progress; cbn [negb]; [reflexivity |].
  rewrite clean_up_and_save_versions_run. unfold world_of.
  cbn [partition patches local_state relation action_output app_status checks].
  fold me. rewrite relation_get_put_eq, put_put, my_app_put. reflexivity.
Qed.

Lemma versions_check_put in_progress :
  when (in_progress || (is_leader env && truthy (this_pod_image_digest env)))
    (app ← my_app_ro;
     lift (OriginalVersions.from_app_databag (CharmVersion_valid env) app);;
     mret ())
    (world_of w p ps l (put r me d a))
  = if negb (in_progress || (is_leader env && truthy (this_pod_image_digest env)))
       || versions_readable (CharmVersion_valid env) a
    then (Returned (), world_of w p ps l (put r me d a))
    else (Raised ValueError, world_of w p ps l (put r me d a)).
Proof.
  unfold when.
  destruct (in_progress || (is_leader env && truthy (this_pod_image_digest env)));
    cbn [negb orb]; [| reflexivity].
  unfold_M. unfold versions_readable. cbn [relation my_app world_of put].
  pose proof (from_app_databag_spec (CharmVersion_valid env) a) as Hspec.
  destruct (OriginalVersions.from_app_databag (CharmVersion_valid env) a) as [v | e];
    [reflexivity |].
  subst e. reflexivity.
Qed.

End Blocks.

Lemma get_world_bind {A} (k : World → M A) w : (get_world ≫= k) w = k w w.
Proof. reflexivity. Qed.

Lemma lift_bind {A B} (o : Outcome A) (k : A → M B) w :
  (lift o ≫= k) w = match o with Returned a => k a w | Raised e => (Raised e, w) end.
Proof. destruct o; reflexivity. Qed.

Lemma read_versions_returned env versions :
  read_versions env = Returned versions →
  installed_charm_version versions = refresh_versions_charm env
  ∧ pinned_workload_version versions = refresh_versions_workload env
  ∧ pinned_workload_container_version versions = upstream_source_digest env
  ∧ installed_workload_container_version versions = this_pod_image_digest env.
Proof.
  intros H.
  unfold refresh_versions_charm, refresh_versions_workload, upstream_source_digest,
    this_pod_image_digest.
  rewrite H. repeat split.
Qed.

Ltac step_rest_of_set_attributes env w pA psA a0 units this_unit in_progress :=
  cbv zeta; rewrite get_world_bind; cbn [world_of relation];
  match goal with
  | |- context [world_of w pA psA ?lC (put (relation w) (charm_unit env) ?dC a0)] =>
      rewrite (bind_eq _ _ _ _ _
                 (save_controller_revision_during_stop_event_put env w pA psA lC
                    (relation w) dC a0 in_progress (controller_revision this_unit)));
      rewrite (bind_eq _ _ _ _ _
                 (propagate_refresh_started_local_state_put env w pA psA lC (relation w)
                    _ a0 (controller_revision this_unit)));
      set (dE := hashes_step _ lC _);
      rewrite (bind_eq _ _ _ _ _
                 (propagate_to_app_put env w pA psA lC (relation w) dE a0 units));
      set (aF := if is_leader env then _ else a0);
      rewrite lift_bind;
      destruct (read_versions env) as [versions | e] eqn:Hversions; [| eauto];
      destruct (read_versions_returned env versions Hversions) as (-> & -> & -> & ->);
      rewrite get_world_bind; cbn [world_of relation];
      rewrite lift_bind;
      destruct (determine_pause_after _ units _) as [pause_after | e]; [| eauto];
      rewrite (bind_eq _ _ _ _ _
                 (clean_up_put env w pA psA lC (relation w) dE aF in_progress));
      set (aG := if in_progress then aF else _);
      pose proof (versions_check_put env w pA psA (clean_up_local_state in_progress lC)
                    (relation w) (clean_up_step in_progress dE) aG in_progress)
        as Hcheck;
      destruct (negb _ || versions_readable _ aG);
      [rewrite (bind_eq _ _ _ _ _ Hcheck);
       rewrite (bind_eq _ _ _ _ _
                  (pre_refresh_check_action_outputs env in_progress _ _ eq_refl));
       reflexivity
      | rewrite (bind_raised _ _ _ _ _ Hcheck); eauto]
  end.

Lemma set_attributes_closed_form env units this_unit in_progress w :
  match read_versions env, attributes_closed_form env units this_unit in_progress w with
  | Returned _, Some (self, w') =>
      set_attributes env units this_unit in_progress w = (Returned self, w')
  | _, _ => ∃ e w', set_attributes env units this_unit in_progress w = (Raised e, w')
  end.
Proof.
  unfold set_attributes, attributes_closed_form, attributes_after_departing. cbv zeta.
  rewrite (bind_eq _ _ _ _ _ (raise_partition_after_pod_restart_run env this_unit in_progress w)).
  cbv zeta. fold (raised_after_pod_restart env in_progress w).
  set (raised := raised_after_pod_restart env in_progress w).
  rewrite (bind_eq _ _ _ _ _ (set_pause_after_config_run env _)).
  cbn [world_of partition patches local_state relation].
  set (dA := with_pause_after_config
               (if raised then _ else relation_get (relation w) (charm_unit env)) _).
  match goal with
  | |- context [put ?r0 (charm_unit env) ?d0 ?a0] =>
      replace (put r0 (charm_unit env) d0 a0)
        with (put (relation w) (charm_unit env) dA (my_app (relation w)))
        by (subst dA; destruct raised;
            [rewrite relation_get_put_eq, put_put |]; reflexivity)
  end.
  set (lA := with_had_opportunity (local_state w) true).
  set (pA := if raised then charm_unit env else partition w).
  set (psA := patches w ++ (if raised then [charm_unit env] else [])).
  set (a0 := my_app (relation w)).
  change (world_of (world_of w pA psA lA ?r1) pA psA lA ?r2) with (world_of w pA psA lA r2).
  rewrite (bind_eq _ _ _ _ _
             (propagate_pod_uids_local_state_put env w pA psA lA (relation w) dA a0)).
  set (dB := uids_step lA dA).
  pose proof (save_departing_unit_put env w pA psA lA (relation w) dB a0 units) as Hdeparting.
  destruct (departing_uids env units) as [| uid [| uid' uids]];
    [rewrite (bind_eq _ _ _ _ _ Hdeparting) | rewrite (bind_eq _ _ _ _ _ Hdeparting)
    | rewrite (bind_raised _ _ _ _ _ Hdeparting); destruct (read_versions env); eauto];
    clear Hdeparting.
  - step_rest_of_set_attributes env w pA psA a0 units this_unit in_progress.
  - step_rest_of_set_attributes env w pA psA a0 units this_unit in_progress.
Qed.

Lemma force_start_init_uniform env first_unit in_progress :
  ∃ out,
    (is_force_refresh_start (event env) = false → out = [])
    ∧ ∀ w, _ForceRefreshStartAction__init__ env first_unit in_progress w
           = (Returned (force_start_of env first_unit in_progress), with_outputs w out []).
Proof.
  unfold _ForceRefreshStartAction__init__, force_start_of. unfold_M.
  destruct (event env) as [[| cwc cc rprc | |] | | |];
    try (exists []; split; [reflexivity | intros w; rewrite with_outputs_nil; reflexivity]).
  destruct (bool_decide (charm_unit env = number first_unit)); cbn [negb andb].
  2: { eexists [_]. split; [intros H; discriminate H | intros w; solve_outputs]. }
  destruct in_progress; cbn [negb].
  2: { eexists [_]. split; [intros H; discriminate H | intros w; solve_outputs]. }
  destruct (any_parameter_is_False [cwc; cc; rprc]).
  - exists []. split; [reflexivity | intros w; rewrite with_outputs_nil; reflexivity].
  - eexists [_]. split; [intros H; discriminate H | intros w; solve_outputs].
Qed.

Lemma force_start_of_not_force env first_unit in_progress :
  is_force_refresh_start (event env) = false → force_start_of env first_unit in_progress = None.
Proof.
  unfold force_start_of, is_force_refresh_start.
  destruct (event env) as [[| | |] | | |]; first [reflexivity | intros H; discriminate H].
Qed.

Lemma record_refresh_started_run env self w :
  record_refresh_started env self w
  = (Returned (with__refresh_started self true), started_world env self w).
Proof. reflexivity. Qed.

Lemma started_world_with_outputs env self w out cs :
  started_world env self (with_outputs w out cs)
  = with_outputs (started_world env self w) out cs.
Proof. reflexivity. Qed.

(** [run_automatic_checks] starts the refresh when every check passes and
    leaves a blocked status otherwise; without a force-refresh-start action
    nothing is told to the event. *)
Lemma run_automatic_checks_run env self original force_start w :
  let pass :=
    workload_container_check_passes self force_start
    && compatibility_check_passes env self original force_start
    && pre_refresh_checks_pass env force_start in
  ∃ out cs,
    (force_start = None → out = [])
    ∧ run_automatic_checks env self original force_start w
      = (Returned (if pass then with__refresh_started self true
                   else with__unit_status_higher_priority self
                          (expected_unit_status env self original force_start)),
         with_outputs (if pass then started_world env self w else w) out cs).
Proof.
  cbv zeta. unfold run_automatic_checks, expected_unit_status.
  destruct (workload_container_check_spec env self force_start w) as (o1 & Ho1 & H1).
  rewrite (bind_eq _ _ _ _ _ H1). clear H1.
  destruct (workload_container_check_passes self force_start); cbn [andb negb].
  2: { eexists _, _. split; [exact Ho1 | reflexivity]. }
  match goal with |- context [(compatibility_check env self original force_start ≫= _) ?w0] =>
    destruct (compatibility_check_spec env self original force_start w0) as (o2 & Ho2 & H2)
  end.
  rewrite (bind_eq _ _ _ _ _ H2). clear H2. rewrite with_outputs_twice.
  destruct (compatibility_check_passes env self original force_start); cbn [andb negb].
  2: { eexists _, _. split; [| reflexivity]. intros H. rewrite Ho1, Ho2 by exact H. reflexivity. }
  match goal with |- context [(pre_refresh_checks env self force_start ≫= _) ?w0] =>
    destruct (pre_refresh_checks_spec env self force_start w0) as (o3 & Ho3 & H3) end.
  rewrite (bind_eq _ _ _ _ _ H3). clear H3. rewrite with_outputs_twice.
  unfold pre_refresh_checks_pass.
  assert (∀ w0, ∃ out,
            (force_start = None → out = [])
            ∧ (self1 ← record_refresh_started env self;
               if_force_start force_start
                 (event_result (Workload_refreshed_on_unit_starting (charm_unit env)));;
               mret self1) w0
              = (Returned (with__refresh_started self true),
                 with_outputs (started_world env self w0) out [])) as Hstart.
  { intros w0. rewrite (bind_eq _ _ _ _ _ (record_refresh_started_run env self w0)).
    unfold if_force_start, when. destruct force_start.
    - rewrite bool_decide_eq_true_2 by eauto. unfold_M.
      eexists [_]. split; [intros H; discriminate H |]. f_equal.
      unfold with_outputs. cbn. rewrite app_nil_r. reflexivity.
    - rewrite (@is_Some_None_false _ForceRefreshStartAction). unfold_M.
      exists []. split; [reflexivity |]. rewrite with_outputs_nil. reflexivity. }
  destruct (skipped force_start run_pre_refresh_checks) eqn:Hskipped; cbn [orb].
  - match goal with |- context [_ (with_outputs w ?o ?c) = _] =>
      destruct (Hstart (with_outputs w o c)) as (o4 & Ho4 & ->) end.
    rewrite started_world_with_outputs, with_outputs_twice.
    eexists _, _. split; [| reflexivity].
    intros H. rewrite Ho1, Ho2, Ho3, Ho4 by exact H. reflexivity.
  - destruct (run_pre_refresh_checks_after_1_unit_refreshed env) as [message |].
    + replace (bool_decide (Some message = None)) with false
        by (symmetry; apply bool_decide_eq_false_2; discriminate).
      eexists _, _. split; [| reflexivity].
      intros H. rewrite Ho1, Ho2, Ho3 by exact H. reflexivity.
    + replace (bool_decide (@None string = None)) with true
        by (symmetry; apply bool_decide_eq_true_2; reflexivity).
      match goal with |- context [_ (with_outputs w ?o ?c) = _] =>
        destruct (Hstart (with_outputs w o c)) as (o4 & Ho4 & ->) end.
      rewrite started_world_with_outputs, with_outputs_twice.
      eexists _, _. split; [| reflexivity].
      intros H. rewrite Ho1, Ho2, Ho3, Ho4 by exact H. reflexivity.
Qed.

Lemma mret_bind {A B} (a : A) (k : A → M B) (w : World) : (mret a ≫= k) w = k a w.
Proof. reflexivity. Qed.

Lemma _start_refresh_run env self w first_unit rest :
  _units self = first_unit :: rest →
  ∃ out cs,
    (is_force_refresh_start (event env) = false → out = [])
    ∧ if _in_progress self then
        match start_refresh_result env self first_unit
                (refresh_started_in_databags self (relation w))
                (OriginalVersions.from_app_databag (CharmVersion_valid env)
                   (my_app (relation w))) with
        | Returned (self', started) =>
            _start_refresh env self w
            = (Returned self',
               with_outputs (if started then started_world env self w else w) out cs)
        | Raised e => ∃ w', _start_refresh env self w = (Raised e, w')
        end
      else
        _start_refresh env self w
        = (Returned (with__unit_status_higher_priority self None), with_outputs w out cs).
Proof.
  intros Hunits. unfold _start_refresh, start_refresh_result. rewrite Hunits.
  destruct (force_start_init_uniform env first_unit (_in_progress self))
    as (out0 & Hout0 & Hinit).
  rewrite (bind_eq _ _ _ _ _ (Hinit w)).
  cbn [with__unit_status_higher_priority _in_progress].
  destruct (_in_progress self) eqn:Hprogress; cbn [negb].
  2: { exists out0, []. split; [exact Hout0 | reflexivity]. }
  rewrite get_world_bind.
  change (relation (with_outputs w out0 [])) with (relation w).
  cbn [with__refresh_started with__unit_status_higher_priority _unit_controller_revision
       _app_controller_revision _units _in_progress].
  repeat match goal with
  | |- context [refresh_started_in_databags ?s (relation w)] =>
      lazymatch s with
      | self => fail
      | _ => change (refresh_started_in_databags s (relation w))
               with (refresh_started_in_databags self (relation w))
      end
  end.
  set (started := refresh_started_in_databags self (relation w)).
  destruct (bool_decide (charm_unit env = number first_unit)); cbn [negb andb].
  2: { exists out0, []. split; [exact Hout0 | reflexivity]. }
  destruct (bool_decide (_unit_controller_revision self = _app_controller_revision self));
    cbn [negb].
  2: { unfold if_force_start, when. destruct (bool_decide (is_Some _)) eqn:Hforce.
       - unfold_M. eexists (out0 ++ [_]), []. split.
         + intros H. rewrite (force_start_of_not_force _ _ _ H) in Hforce.
           rewrite (@is_Some_None_false _ForceRefreshStartAction) in Hforce.
           discriminate Hforce.
         + unfold with_outputs. cbn. rewrite !app_nil_r, <- app_assoc. reflexivity.
       - unfold_M. exists out0, []. split; [exact Hout0 | reflexivity]. }
  rewrite Hunits.
  destruct (bool_decide (1 < length (first_unit :: rest))%nat); cbn [negb];
    [| exists [], []; split; [reflexivity | eauto]].
  rewrite lift_bind.
  destruct (OriginalVersions.from_app_databag _ _) as [original | e];
    [| exists [], []; split; [reflexivity | eauto]].
  cbn [_refresh_started with__refresh_started].
  assert (∀ (self1 : _Kubernetes) w1,
            ∃ out,
              (is_force_refresh_start (event env) = false → out = [])
              ∧ (if_force_start (force_start_of env first_unit true)
                   (event_fail Refresh_already_started);; mret self1) w1
                = (Returned self1, with_outputs w1 out [])) as Halready.
  { intros self1 w1. unfold if_force_start, when.
    destruct (bool_decide (is_Some _)) eqn:Hforce; unfold_M.
    - eexists [_]. split; [| unfold with_outputs; cbn; rewrite app_nil_r; reflexivity].
      intros H. rewrite (force_start_of_not_force _ _ _ H) in Hforce.
      rewrite (@is_Some_None_false _ForceRefreshStartAction) in Hforce. discriminate Hforce.
    - exists []. split; [reflexivity |]. rewrite with_outputs_nil. reflexivity. }
  destruct started; cbn [negb andb].
  { rewrite mret_bind.
    cbn [_refresh_started with__refresh_started].
    destruct (Halready
                (with__refresh_started (with__unit_status_higher_priority self None) true)
                (with_outputs w out0 [])) as (out1 & Hout1 & ->).
    rewrite with_outputs_twice. eexists _, _. split; [| reflexivity].
    intros H. rewrite Hout0, Hout1 by exact H. reflexivity. }
  change (is_rollback (with__refresh_started (with__unit_status_higher_priority self None) false)
            original) with (is_rollback self original).
  destruct (is_rollback self original); cbn [orb].
  { rewrite (bind_eq _ _ _ _ _ (record_refresh_started_run env _ _)).
    cbn [_refresh_started with__refresh_started].
    match goal with |- context [(_ ;; mret ?s) ?w1] =>
      destruct (Halready s w1) as (out1 & Hout1 & ->) end.
    rewrite started_world_with_outputs, with_outputs_twice.
    eexists _, _. split; [| reflexivity].
    intros H. rewrite Hout0, Hout1 by exact H. reflexivity. }
  rewrite mret_bind.
  cbn [_refresh_started with__refresh_started].
  destruct (run_automatic_checks_run env
              (with__refresh_started (with__unit_status_higher_priority self None) false)
              original (force_start_of env first_unit true) (with_outputs w out0 []))
    as (out1 & cs & Hout1 & ->).
  change (workload_container_check_passes
            (with__refresh_started (with__unit_status_higher_priority self None) false)
            (force_start_of env first_unit true))
    with (workload_container_check_passes self (force_start_of env first_unit true)).
  change (compatibility_check_passes env
            (with__refresh_started (with__unit_status_higher_priority self None) false)
            original (force_start_of env first_unit true))
    with (compatibility_check_passes env self original (force_start_of env first_unit true)).
  change (expected_unit_status env
            (with__refresh_started (with__unit_status_higher_priority self None) false)
            original (force_start_of env first_unit true))
    with (expected_unit_status env self original (force_start_of env first_unit true)).
  destruct (workload_container_check_passes self _ && compatibility_check_passes env self _ _
            && pre_refresh_checks_pass env _).
  - rewrite started_world_with_outputs, with_outputs_twice.
    eexists _, _. split; [| reflexivity].
    intros H. rewrite Hout0, (Hout1 (force_start_of_not_force _ _ _ H)) by exact H.
    reflexivity.
  - rewrite with_outputs_twice.
    eexists _, _. split; [| reflexivity].
    intros H. rewrite Hout0, (Hout1 (force_start_of_not_force _ _ _ H)) by exact H.
    reflexivity.
Qed.

(** Lists built with [append_if_missing]. *)
Lemma append_if_missing_present x l : x ∈ l → append_if_missing x l = l.
Proof. intros H. unfold append_if_missing. rewrite bool_decide_eq_true_2 by exact H. reflexivity. Qed.

Lemma append_if_missing_keeps x y l : x ∈ l → x ∈ append_if_missing y l.
Proof.
  intros H. unfold append_if_missing. destruct (bool_decide (y ∈ l)); [exact H |].
  apply elem_of_app. left. exact H.
Qed.

Lemma foldl_append_if_missing_keeps x xs acc :
  x ∈ acc → x ∈ foldl (λ acc y, append_if_missing y acc) acc xs.
Proof.
  revert acc. induction xs as [| y xs IH]; intros acc H; simpl; [exact H |].
  apply IH, append_if_missing_keeps, H.
Qed.

Lemma foldl_append_if_missing_adds x xs acc :
  x ∈ xs → x ∈ foldl (λ acc y, append_if_missing y acc) acc xs.
Proof.
  revert acc. induction xs as [| y xs IH]; intros acc H; simpl.
  - apply elem_of_nil in H. contradiction.
  - apply elem_of_cons in H. destruct H as [-> | H].
    + apply foldl_append_if_missing_keeps, append_if_missing_elem.
    + apply IH, H.
Qed.

Lemma foldl_append_if_missing_present xs acc :
  (∀ x, x ∈ xs → x ∈ acc) → foldl (λ acc y, append_if_missing y acc) acc xs = acc.
Proof.
  induction xs as [| y xs IH]; intros H; simpl; [reflexivity |].
  rewrite append_if_missing_present by (apply H; left).
  apply IH. intros x Hx. apply H. right. exact Hx.
Qed.

Lemma gather_hashes_keeps hashes_of units acc x :
  x ∈ acc → x ∈ gather_hashes hashes_of units acc.
Proof.
  unfold gather_hashes. revert acc.
  induction units as [| unit units IH]; intros acc H; simpl; [exact H |].
  apply IH, foldl_append_if_missing_keeps, H.
Qed.

Lemma gather_hashes_adds hashes_of units acc unit x :
  unit ∈ units → x ∈ hashes_of unit → x ∈ gather_hashes hashes_of units acc.
Proof.
  unfold gather_hashes. revert acc.
  induction units as [| unit' units IH]; intros acc Hunit Hx; simpl.
  - apply elem_of_nil in Hunit. contradiction.
  - apply elem_of_cons in Hunit. destruct Hunit as [-> | Hunit].
    + apply (gather_hashes_keeps hashes_of units), foldl_append_if_missing_adds, Hx.
    + apply IH; assumption.
Qed.

Lemma gather_hashes_present hashes_of units acc :
  (∀ unit x, unit ∈ units → x ∈ hashes_of unit → x ∈ acc) →
  gather_hashes hashes_of units acc = acc.
Proof.
  unfold gather_hashes.
  induction units as [| unit units IH]; intros H; simpl; [reflexivity |].
  rewrite foldl_append_if_missing_present.
  - apply IH. intros unit' x Hunit Hx. apply (H unit'); [right |]; assumption.
  - intros x Hx. apply (H unit); [left | exact Hx].
Qed.

Lemma propagate_refresh_started_to_app_gather r units :
  propagate_refresh_started_to_app r units
  = with_app_refresh_started (my_app r)
      (Some (gather_hashes
               (λ unit, default [] (refresh_started_if_app_controller_revision_hash_in
                                      (relation_get r (number unit))))
               units
               (default [] (app_refresh_started_if_app_controller_revision_hash_in
                              (my_app r))))).
Proof. reflexivity. Qed.

(** Propagating a second time changes nothing. *)
Lemma propagate_refresh_started_to_app_twice m a units :
  propagate_refresh_started_to_app
    {| unit_databags := m;
       my_app := propagate_refresh_started_to_app {| unit_databags := m; my_app := a |} units |}
    units
  = propagate_refresh_started_to_app {| unit_databags := m; my_app := a |} units.
Proof.
  rewrite !propagate_refresh_started_to_app_gather.
  unfold relation_get. cbn [unit_databags my_app].
  set (hashes_of := λ unit : _KubernetesUnit,
         default [] (refresh_started_if_app_controller_revision_hash_in
                       (default empty_unit_databag (m !! number unit)))).
  set (gathered := gather_hashes hashes_of units
                     (default [] (app_refresh_started_if_app_controller_revision_hash_in a))).
  cbn [with_app_refresh_started app_refresh_started_if_app_controller_revision_hash_in
       default from_option].
  change (id gathered) with gathered.
  rewrite (gather_hashes_present hashes_of units gathered); [reflexivity |].
  intros unit x Hunit Hx. apply (gather_hashes_adds _ _ _ unit); assumption.
Qed.

Lemma from_app_databag_with_app_refresh_started valid a hashes :
  OriginalVersions.from_app_databag valid (with_app_refresh_started a hashes)
  = OriginalVersions.from_app_databag valid a.
Proof. reflexivity. Qed.

(** Writing to a databag, or to the local state, the value it holds. *)
Lemma with_had_opportunity_same l v :
  kubernetes_had_opportunity_to_raise_partition_after_pod_restart l = v →
  with_had_opportunity l v = l.
Proof. destruct l. cbn. intros <-. reflexivity. Qed.

Lemma with_pod_ids_json_same l v :
  kubernetes_pod_ids_of_units_that_are_tearing_down_json l = v → with_pod_ids_json l v = l.
Proof. destruct l. cbn. intros <-. reflexivity. Qed.

Lemma with_refresh_started_local_same l v :
  kubernetes_refresh_started l = v → with_refresh_started_local l v = l.
Proof. destruct l. cbn. intros <-. reflexivity. Qed.

Lemma with_pause_after_config_same d v :
  pause_after_unit_refresh_config d = v → with_pause_after_config d v = d.
Proof. destruct d. cbn. intros <-. reflexivity. Qed.

Lemma with_pod_uids_tearing_down_same d v :
  pod_uids_of_units_that_are_tearing_down d = v → with_pod_uids_tearing_down d v = d.
Proof. destruct d. cbn. intros <-. reflexivity. Qed.

Lemma with_refresh_started_same d v :
  refresh_started_if_app_controller_revision_hash_in d = v → with_refresh_started d v = d.
Proof. destruct d. cbn. intros <-. reflexivity. Qed.

(** On settled state the steps of [set_attributes] write what is there. *)
Lemma settled_uids_step env units revision d l :
  settled env units revision d l → uids_step l d = d.
Proof.
  intros (_ & _ & Huids & _). unfold uids_step.
  destruct (kubernetes_pod_ids_of_units_that_are_tearing_down_json l) as [uids |];
    [| reflexivity].
  destruct (Huids uids eq_refl) as (known & Hknown & Hin).
  apply with_pod_uids_tearing_down_same. rewrite Hknown. cbn.
  rewrite foldl_append_if_missing_present by exact Hin. reflexivity.
Qed.

Lemma settled_departing_step env units revision d l uid :
  settled env units revision d l →
  departing_uids env units = [uid] →
  with_pod_uids_tearing_down d (Some (departing_step uid d)) = d
  ∧ with_pod_ids_json l (Some (departing_step uid d)) = l.
Proof.
  intros (_ & _ & _ & Hdeparting & _) Huid.
  destruct (Hdeparting uid Huid) as (known & Hknown & Hin & Hjson).
  unfold departing_step. rewrite Hknown. cbn.
  rewrite append_if_missing_present by exact Hin.
  split; [apply with_pod_uids_tearing_down_same | apply with_pod_ids_json_same]; assumption.
Qed.

Lemma settled_hashes_step env units revision d l :
  settled env units revision d l → hashes_step revision l d = d.
Proof.
  intros (_ & _ & _ & _ & Hstarted & _). unfold hashes_step.
  destruct (kubernetes_refresh_started l); [| reflexivity].
  destruct (Hstarted eq_refl) as (hashes & Hhashes & Hin).
  apply with_refresh_started_same. rewrite Hhashes. cbn.
  rewrite append_if_missing_present by exact Hin. reflexivity.
Qed.

Lemma with_unused_controller_revision_same d v :
  _unused_controller_revision_during_last_stop_event d = v →
  with_unused_controller_revision d v = d.
Proof. destruct d. cbn. intros <-. reflexivity. Qed.

Lemma settled_stop_step env units revision d l :
  settled env units revision d l → stop_step env true revision d = d.
Proof.
  intros (_ & _ & _ & _ & _ & Hrevision). unfold stop_step.
  destruct (is_StopEvent (event env)); [| reflexivity].
  apply with_unused_controller_revision_same, Hrevision. reflexivity.
Qed.

(** What the attributes read of the relation. *)
Lemma relation_get_put r me d a unit :
  relation_get (put r me d a) unit
  = if bool_decide (unit = me) then d else relation_get r unit.
Proof.
  destruct (bool_decide (unit = me)) eqn:H.
  - apply bool_decide_eq_true in H. subst. apply relation_get_put_eq.
  - apply bool_decide_eq_false in H. apply relation_get_put_ne. congruence.
Qed.

Lemma units_not_tearing_down_of_ext r r' units :
  (∀ unit, pod_uids_of_units_that_are_tearing_down (relation_get r unit)
           = pod_uids_of_units_that_are_tearing_down (relation_get r' unit)) →
  units_not_tearing_down_of r units = units_not_tearing_down_of r' units.
Proof.
  intros H. unfold units_not_tearing_down_of.
  replace ((λ unit, default [] (pod_uids_of_units_that_are_tearing_down
                                  (relation_get r (number unit)))) <$> units)
    with ((λ unit, default [] (pod_uids_of_units_that_are_tearing_down
                                 (relation_get r' (number unit)))) <$> units);
    [reflexivity |].
  apply list_fmap_ext. intros _ unit _. rewrite H. reflexivity.
Qed.

Lemma pause_after_values_ext r r' revision units_not_tearing_down units :
  (∀ unit, pause_after_unit_refresh_config (relation_get r unit)
           = pause_after_unit_refresh_config (relation_get r' unit)) →
  pause_after_values r revision units_not_tearing_down units
  = pause_after_values r' revision units_not_tearing_down units.
Proof.
  intros H. induction units as [| unit units IH]; simpl; [reflexivity |].
  rewrite IH, H. reflexivity.
Qed.

Lemma determine_pause_after_ext r r' units units_not_tearing_down :
  (∀ unit, pause_after_unit_refresh_config (relation_get r unit)
           = pause_after_unit_refresh_config (relation_get r' unit)) →
  determine_pause_after r units units_not_tearing_down
  = determine_pause_after r' units units_not_tearing_down.
Proof.
  intros H. unfold determine_pause_after. destruct units as [| first_unit units];
    [reflexivity |].
  rewrite (pause_after_values_ext r r' _ _ _ H). reflexivity.
Qed.

(** When every unit is on one controller revision, the units that are not
    tearing down are not read. *)
Lemma pause_after_values_same_revision r revision units_not_tearing_down
    units_not_tearing_down' units :
  (∀ unit, unit ∈ units → controller_revision unit = revision) →
  pause_after_values r revision units_not_tearing_down units
  = pause_after_values r revision units_not_tearing_down' units.
Proof.
  induction units as [| unit units IH]; intros H; simpl; [reflexivity |].
  rewrite bool_decide_eq_true_2 by (apply H; left).
  rewrite IH by (intros unit' H'; apply H; right; exact H'). reflexivity.
Qed.

Lemma in_progress_of_false env units :
  in_progress_of env units = false →
  ∀ unit, unit ∈ units → controller_revision unit = update_revision env.
Proof.
  unfold in_progress_of. intros H unit Hunit.
  destruct (decide (controller_revision unit = update_revision env)) as [Heq | Hne];
    [exact Heq |].
  assert (existsb (λ unit, negb (bool_decide (controller_revision unit = update_revision env)))
            units = true) as Htrue; [| rewrite Htrue in H; discriminate H].
  apply existsb_exists. exists unit. split.
  - apply list_elem_of_In. exact Hunit.
  - rewrite bool_decide_eq_false_2 by exact Hne. reflexivity.
Qed.

Lemma determine_pause_after_not_in_progress env r units units_not_tearing_down
    units_not_tearing_down' :
  in_progress_of env units = false →
  determine_pause_after r units units_not_tearing_down
  = determine_pause_after r units units_not_tearing_down'.
Proof.
  intros H. unfold determine_pause_after. destruct units as [| first_unit units];
    [reflexivity |].
  rewrite (pause_after_values_same_revision r _ units_not_tearing_down
             units_not_tearing_down').
  - reflexivity.
  - intros unit Hunit.
    rewrite (in_progress_of_false env _ H unit Hunit).
    rewrite (in_progress_of_false env _ H first_unit) by left. reflexivity.
Qed.

Lemma pod_uids_hashes_step revision l d :
  pod_uids_of_units_that_are_tearing_down (hashes_step revision l d)
  = pod_uids_of_units_that_are_tearing_down d.
Proof. unfold hashes_step. destruct (kubernetes_refresh_started l); reflexivity. Qed.

Lemma pause_hashes_step revision l d :
  pause_after_unit_refresh_config (hashes_step revision l d)
  = pause_after_unit_refresh_config d.
Proof. unfold hashes_step. destruct (kubernetes_refresh_started l); reflexivity. Qed.

Lemma pod_uids_stop_step env in_progress revision d :
  pod_uids_of_units_that_are_tearing_down (stop_step env in_progress revision d)
  = pod_uids_of_units_that_are_tearing_down d.
Proof. unfold stop_step. destruct (_ && _); reflexivity. Qed.

Lemma pause_stop_step env in_progress revision d :
  pause_after_unit_refresh_config (stop_step env in_progress revision d)
  = pause_after_unit_refresh_config d.
Proof. unfold stop_step. destruct (_ && _); reflexivity. Qed.

Lemma stop_step_revision env revision l d :
  is_StopEvent (event env) = true →
  _unused_controller_revision_during_last_stop_event
    (hashes_step revision l (stop_step env true revision d))
  = Some revision.
Proof.
  intros H. unfold hashes_step, stop_step. rewrite H.
  destruct (kubernetes_refresh_started l); reflexivity.
Qed.

Lemma pause_uids_step l d :
  pause_after_unit_refresh_config (uids_step l d) = pause_after_unit_refresh_config d.
Proof.
  unfold uids_step.
  destruct (kubernetes_pod_ids_of_units_that_are_tearing_down_json l); reflexivity.
Qed.

Lemma hashes_step_started revision l d :
  kubernetes_refresh_started l = true →
  ∃ hashes, refresh_started_if_app_controller_revision_hash_in (hashes_step revision l d)
            = Some hashes
            ∧ revision ∈ hashes.
Proof.
  intros H. unfold hashes_step. rewrite H. eexists. split; [reflexivity |].
  apply append_if_missing_elem.
Qed.

Lemma uids_step_known l d uids :
  kubernetes_pod_ids_of_units_that_are_tearing_down_json l = Some uids →
  ∃ known, pod_uids_of_units_that_are_tearing_down (uids_step l d) = Some known
           ∧ ∀ uid, uid ∈ uids → uid ∈ known.
Proof.
  intros H. unfold uids_step. rewrite H. eexists. split; [reflexivity |].
  intros uid Huid. apply foldl_append_if_missing_adds, Huid.
Qed.

Lemma units_not_tearing_down_of_put r me d d' a a' units :
  pod_uids_of_units_that_are_tearing_down d = pod_uids_of_units_that_are_tearing_down d' →
  units_not_tearing_down_of (put r me d a) units
  = units_not_tearing_down_of (put r me d' a') units.
Proof.
  intros H. apply units_not_tearing_down_of_ext. intros unit.
  rewrite !relation_get_put. destruct (bool_decide (unit = me)); [exact H | reflexivity].
Qed.

Lemma determine_pause_after_put r me d d' a a' units units_not_tearing_down :
  pause_after_unit_refresh_config d = pause_after_unit_refresh_config d' →
  determine_pause_after (put r me d a) units units_not_tearing_down
  = determine_pause_after (put r me d' a') units units_not_tearing_down.
Proof.
  intros H. apply determine_pause_after_ext. intros unit.
  rewrite !relation_get_put. destruct (bool_decide (unit = me)); [exact H | reflexivity].
Qed.

(** [set_attributes] during a refresh: what it leaves is settled. *)
Lemma attributes_closed_form_in_progress env units this_unit w selfA wA :
  attributes_closed_form env units this_unit true w = Some (selfA, wA) →
  let me := charm_unit env in
  let raised := raised_after_pod_restart env true w in
  ∃ d l pause_after,
    let units_not_tearing_down :=
      units_not_tearing_down_of (put (relation w) me d (my_app (relation w))) units in
    let app :=
      if is_leader env
      then propagate_refresh_started_to_app (put (relation w) me d (my_app (relation w))) units
      else my_app (relation w) in
    settled env units (controller_revision this_unit) d l
    ∧ (length (departing_uids env units) ≤ 1)%nat
    ∧ kubernetes_unit_tearing_down l = kubernetes_unit_tearing_down (local_state w)
    ∧ determine_pause_after (put (relation w) me d app) units units_not_tearing_down
      = Returned pause_after
    ∧ versions_readable (CharmVersion_valid env) app = true
    ∧ selfA = attributes env units this_unit true units_not_tearing_down pause_after
    ∧ wA = with_outputs
             (world_of w (if raised then me else partition w)
                (patches w ++ (if raised then [me] else [])) l
                (put (relation w) me d app))
             (pre_refresh_check_outputs env true).1 (pre_refresh_check_outputs env true).2.
Proof.
  unfold attributes_closed_form, attributes_after_departing, clean_up_step,
    clean_up_local_state.
  cbn [andb orb negb]. cbv zeta.
  set (me := charm_unit env). set (raised := raised_after_pod_restart env true w).
  set (revision := controller_revision this_unit).
  set (dA := with_pause_after_config _ _).
  set (lA := with_had_opportunity _ _).
  assert (pause_after_unit_refresh_config dA = Some (config_pause_after_unit_refresh env))
    as HpauseA by reflexivity.
  destruct (departing_uids env units) as [| uid [| ? ?]] eqn:Hdeparting;
    cbv beta iota; [| | intros H; discriminate H].
  - set (d := hashes_step revision lA (stop_step env true revision (uids_step lA dA))).
    rewrite (units_not_tearing_down_of_put _ me (uids_step lA dA) d _ (my_app (relation w)))
      by (unfold d; rewrite pod_uids_hashes_step, pod_uids_stop_step; reflexivity).
    destruct (determine_pause_after _ _ _) as [pause_after |] eqn:Hpause;
      cbv beta iota; [| intros H; discriminate H].
    destruct (versions_readable _ _) eqn:Hreadable; cbv beta iota;
      [| intros H; discriminate H].
    intros H. injection H as <- <-. exists d, lA, pause_after. cbv zeta.
    split; [| split; [simpl; lia | split; [reflexivity | split; [exact Hpause |
      split; [exact Hreadable | split; reflexivity]]]]].
    split; [reflexivity |].
    split; [unfold d; rewrite pause_hashes_step, pause_stop_step, pause_uids_step;
            exact HpauseA |].
    split; [| split; [intros ? H; rewrite Hdeparting in H; discriminate H
                      | split; [apply hashes_step_started
                               | intros Hstop; apply stop_step_revision, Hstop]]].
    intros uids Huids. unfold d. rewrite pod_uids_hashes_step, pod_uids_stop_step.
    apply uids_step_known, Huids.
  - set (dB := uids_step lA dA).
    set (known := departing_step uid dB).
    set (dC := with_pod_uids_tearing_down dB (Some known)).
    set (lC := with_pod_ids_json lA (Some known)).
    set (d := hashes_step revision lC (stop_step env true revision dC)).
    rewrite (units_not_tearing_down_of_put _ me dC d _ (my_app (relation w)))
      by (unfold d; rewrite pod_uids_hashes_step, pod_uids_stop_step; reflexivity).
    destruct (determine_pause_after _ _ _) as [pause_after |] eqn:Hpause;
      cbv beta iota; [| intros H; discriminate H].
    destruct (versions_readable _ _) eqn:Hreadable; cbv beta iota;
      [| intros H; discriminate H].
    intros H. injection H as <- <-. exists d, lC, pause_after. cbv zeta.
    split; [| split; [simpl; lia | split; [reflexivity | split; [exact Hpause |
      split; [exact Hreadable | split; reflexivity]]]]].
    split; [reflexivity |].
    split; [unfold d; rewrite pause_hashes_step, pause_stop_step; unfold dC; cbn;
            fold dB; unfold dB; rewrite pause_uids_step; exact HpauseA |].
    split; [| split; [| split; [apply hashes_step_started
                               | intros Hstop; apply stop_step_revision, Hstop]]].
    + intros uids Huids. unfold d. rewrite pod_uids_hashes_step, pod_uids_stop_step.
      exists known. split; [reflexivity |].
      cbn in Huids. injection Huids as <-. intros ? H. exact H.
    + intros uid' Huid'. rewrite Hdeparting in Huid'. injection Huid' as <-. unfold d.
      rewrite pod_uids_hashes_step, pod_uids_stop_step.
      exists known. split; [reflexivity | split; [| reflexivity]].
      apply append_if_missing_elem.
Qed.

(** [set_attributes] on settled state during a refresh writes only to the
    app databag. *)
Lemma attributes_closed_form_settled env units this_unit w0 p ps l r d a :
  settled env units (controller_revision this_unit) d l →
  (length (departing_uids env units) ≤ 1)%nat →
  let me := charm_unit env in
  let units_not_tearing_down := units_not_tearing_down_of (put r me d a) units in
  let app :=
    if is_leader env then propagate_refresh_started_to_app (put r me d a) units else a in
  attributes_closed_form env units this_unit true (world_of w0 p ps l (put r me d a))
  = match determine_pause_after (put r me d app) units units_not_tearing_down with
    | Raised _ => None
    | Returned pause_after =>
        if versions_readable (CharmVersion_valid env) app then
          Some (attributes env units this_unit true units_not_tearing_down pause_after,
                with_outputs (world_of w0 p ps l (put r me d app))
                  (pre_refresh_check_outputs env true).1
                  (pre_refresh_check_outputs env true).2)
        else None
    end.
Proof.
  intros Hsettled Hdeparting. cbv zeta.
  pose proof Hsettled as (Hhad & Hpause & _).
  unfold attributes_closed_form, attributes_after_departing, raised_after_pod_restart,
    clean_up_step, clean_up_local_state.
  cbn [world_of partition patches local_state relation].
  rewrite Hhad, relation_get_put_eq, my_app_put. cbn [negb andb orb].
  rewrite (with_pause_after_config_same d) by exact Hpause.
  rewrite (with_had_opportunity_same l) by exact Hhad.
  rewrite (settled_uids_step _ _ _ _ _ Hsettled).
  destruct (departing_uids env units) as [| uid [| ? ?]] eqn:Huid;
    [| | simpl in Hdeparting; lia].
  - rewrite (settled_stop_step _ _ _ _ _ Hsettled), (settled_hashes_step _ _ _ _ _ Hsettled).
    rewrite !put_put, app_nil_r. reflexivity.
  - destruct (settled_departing_step _ _ _ _ _ uid Hsettled Huid) as [-> ->].
    rewrite (settled_stop_step _ _ _ _ _ Hsettled), (settled_hashes_step _ _ _ _ _ Hsettled).
    rewrite !put_put, app_nil_r. reflexivity.
Qed.

Lemma saved_app_databag_twice env a hashes :
  saved_app_databag env (with_app_refresh_started (saved_app_databag env a) hashes)
  = saved_app_databag env a.
Proof.
  unfold saved_app_databag. destruct (this_pod_image_digest env); [| reflexivity].
  destruct (truthy _); reflexivity.
Qed.

Lemma raised_after_pod_restart_not_in_progress env w :
  raised_after_pod_restart env false w = false.
Proof. unfold raised_after_pod_restart. rewrite andb_false_r. reflexivity. Qed.

Lemma attributes_after_departing_not_in_progress env units this_unit w dC lC selfA wA :
  in_progress_of env units = false →
  pause_after_unit_refresh_config dC = Some (config_pause_after_unit_refresh env) →
  kubernetes_had_opportunity_to_raise_partition_after_pod_restart lC = true →
  attributes_after_departing env units this_unit false w dC lC = Some (selfA, wA) →
  let me := charm_unit env in
  ∃ d l app units_not_tearing_down pause_after,
    cleaned env d l
    ∧ kubernetes_unit_tearing_down l = kubernetes_unit_tearing_down lC
    ∧ (∀ d' app' units_not_tearing_down',
         pause_after_unit_refresh_config d' = Some (config_pause_after_unit_refresh env) →
         determine_pause_after (put (relation w) me d' app') units units_not_tearing_down'
         = Returned pause_after)
    ∧ (is_leader env = true →
       ∀ hashes, saved_app_databag env (with_app_refresh_started app hashes) = app)
    ∧ negb (is_leader env && truthy (this_pod_image_digest env))
      || versions_readable (CharmVersion_valid env) app = true
    ∧ selfA = attributes env units this_unit false units_not_tearing_down pause_after
    ∧ wA = with_outputs
             (world_of w (partition w) (patches w) l (put (relation w) me d app))
             (pre_refresh_check_outputs env false).1
             (pre_refresh_check_outputs env false).2.
Proof.
  intros Hprogress HpauseC Hhad. unfold attributes_after_departing.
  rewrite raised_after_pod_restart_not_in_progress.
  unfold stop_step, clean_up_step, clean_up_local_state.
  rewrite andb_false_r. cbn [andb orb negb]. cbv zeta.
  destruct (determine_pause_after _ _ _) as [pause_after |] eqn:Hpause; cbv beta iota;
    [| intros H; discriminate H].
  match goal with |- (if ?c then _ else _) = _ → _ => destruct c eqn:Hreadable end;
    [| intros H; discriminate H].
  intros H. injection H as <- <-. rewrite app_nil_r.
  eexists _, _, _, _, pause_after.
  split; [| split; [| split; [| split; [| split; [| split; reflexivity]]]]].
  - unfold cleaned. cbn. rewrite pause_hashes_step. repeat split; assumption.
  - reflexivity.
  - intros d' app' units_not_tearing_down' Hd'. rewrite <- Hpause.
    rewrite (determine_pause_after_not_in_progress env _ _ units_not_tearing_down'
               (units_not_tearing_down_of
                  (put (relation w) (charm_unit env) dC (my_app (relation w))) units))
      by exact Hprogress.
    apply determine_pause_after_put. rewrite pause_hashes_step. congruence.
  - intros Hleader hashes. rewrite Hleader. apply saved_app_databag_twice.
  - exact Hreadable.
Qed.

(** [set_attributes] when no refresh is in progress: what it leaves is
    cleaned. *)
Lemma attributes_closed_form_not_in_progress env units this_unit w selfA wA :
  in_progress_of env units = false →
  attributes_closed_form env units this_unit false w = Some (selfA, wA) →
  let me := charm_unit env in
  ∃ d l app units_not_tearing_down pause_after,
    cleaned env d l
    ∧ (length (departing_uids env units) ≤ 1)%nat
    ∧ kubernetes_unit_tearing_down l = kubernetes_unit_tearing_down (local_state w)
    ∧ (∀ d' app' units_not_tearing_down',
         pause_after_unit_refresh_config d' = Some (config_pause_after_unit_refresh env) →
         determine_pause_after (put (relation w) me d' app') units units_not_tearing_down'
         = Returned pause_after)
    ∧ (is_leader env = true →
       ∀ hashes, saved_app_databag env (with_app_refresh_started app hashes) = app)
    ∧ negb (is_leader env && truthy (this_pod_image_digest env))
      || versions_readable (CharmVersion_valid env) app = true
    ∧ selfA = attributes env units this_unit false units_not_tearing_down pause_after
    ∧ wA = with_outputs
             (world_of w (partition w) (patches w) l (put (relation w) me d app))
             (pre_refresh_check_outputs env false).1
             (pre_refresh_check_outputs env false).2.
Proof.
  intros Hprogress. unfold attributes_closed_form. cbv zeta.
  destruct (departing_uids env units) as [| uid [| ? ?]] eqn:Hdeparting;
    [| | intros H; discriminate H];
    intros H;
    (apply attributes_after_departing_not_in_progress in H;
     [| exact Hprogress | cbn; rewrite pause_uids_step; reflexivity | reflexivity]);
    destruct H as (d & l & app & units_not_tearing_down & pause_after & H1 & H2 & H3);
    exists d, l, app, units_not_tearing_down, pause_after;
    (split; [exact H1 | split; [simpl; lia | split; [exact H2 | exact H3]]]).
Qed.

Lemma cleaned_after_departing env d l known :
  cleaned env d l →
  with_pod_uids_tearing_down
    (with_refresh_started (with_pod_uids_tearing_down d known) None) None = d
  ∧ with_pod_ids_json (with_refresh_started_local (with_pod_ids_json l known) false) None = l.
Proof.
  intros (_ & _ & Hjson & Hstarted & Huids & Hhashes).
  destruct d, l. cbn in *. subst. split; reflexivity.
Qed.

Lemma cleaned_after_nothing env d l :
  cleaned env d l →
  with_pod_uids_tearing_down (with_refresh_started d None) None = d
  ∧ with_pod_ids_json (with_refresh_started_local l false) None = l.
Proof.
  intros (_ & _ & Hjson & Hstarted & Huids & Hhashes).
  destruct d, l. cbn in *. subst. split; reflexivity.
Qed.

Lemma attributes_after_departing_cleaned env units this_unit w0 p ps l r d a dC lC
    pause_after :
  let me := charm_unit env in
  pause_after_unit_refresh_config dC = Some (config_pause_after_unit_refresh env) →
  kubernetes_refresh_started lC = false →
  with_pod_uids_tearing_down (with_refresh_started dC None) None = d →
  with_pod_ids_json (with_refresh_started_local lC false) None = l →
  (∀ d' app' units_not_tearing_down',
     pause_after_unit_refresh_config d' = Some (config_pause_after_unit_refresh env) →
     determine_pause_after (put r me d' app') units units_not_tearing_down'
     = Returned pause_after) →
  (is_leader env = true →
   ∀ hashes, saved_app_databag env (with_app_refresh_started a hashes) = a) →
  negb (is_leader env && truthy (this_pod_image_digest env))
  || versions_readable (CharmVersion_valid env) a = true →
  ∃ units_not_tearing_down,
    attributes_after_departing env units this_unit false
      (world_of w0 p ps l (put r me d a)) dC lC
    = Some (attributes env units this_unit false units_not_tearing_down pause_after,
            with_outputs (world_of w0 p ps l (put r me d a))
              (pre_refresh_check_outputs env false).1
              (pre_refresh_check_outputs env false).2).
Proof.
  intros me HpauseC HstartedC Hd Hl Hpause Hsaved Hreadable.
  unfold attributes_after_departing.
  rewrite raised_after_pod_restart_not_in_progress.
  unfold stop_step, clean_up_step, clean_up_local_state, hashes_step.
  rewrite andb_false_r, HstartedC. cbn [andb orb negb]. cbv zeta.
  cbn [world_of partition patches local_state relation]. fold me.
  rewrite my_app_put, !put_put, Hpause by exact HpauseC.
  rewrite Hd, Hl, app_nil_r.
  assert ((if is_leader env
           then saved_app_databag env
                  (if is_leader env
                   then propagate_refresh_started_to_app (put r me dC a) units
                   else a)
           else if is_leader env
                then propagate_refresh_started_to_app (put r me dC a) units
                else a) = a) as ->.
  { destruct (is_leader env) eqn:Hleader; [| reflexivity].
    rewrite propagate_refresh_started_to_app_gather, my_app_put.
    apply Hsaved. reflexivity. }
  rewrite Hreadable. eexists. reflexivity.
Qed.

(** [set_attributes] on cleaned state when no refresh is in progress
    writes nothing. *)
Lemma attributes_closed_form_cleaned env units this_unit w0 p ps l r d a pause_after :
  let me := charm_unit env in
  cleaned env d l →
  (length (departing_uids env units) ≤ 1)%nat →
  (∀ d' app' units_not_tearing_down',
     pause_after_unit_refresh_config d' = Some (config_pause_after_unit_refresh env) →
     determine_pause_after (put r me d' app') units units_not_tearing_down'
     = Returned pause_after) →
  (is_leader env = true →
   ∀ hashes, saved_app_databag env (with_app_refresh_started a hashes) = a) →
  negb (is_leader env && truthy (this_pod_image_digest env))
  || versions_readable (CharmVersion_valid env) a = true →
  ∃ units_not_tearing_down,
    attributes_closed_form env units this_unit false (world_of w0 p ps l (put r me d a))
    = Some (attributes env units this_unit false units_not_tearing_down pause_after,
            with_outputs (world_of w0 p ps l (put r me d a))
              (pre_refresh_check_outputs env false).1
              (pre_refresh_check_outputs env false).2).
Proof.
  intros me Hcleaned Hdeparting Hpause Hsaved Hreadable.
  pose proof Hcleaned as (Hhad & Hpause_d & Hjson & Hstarted & Huids & Hhashes).
  unfold attributes_closed_form. rewrite raised_after_pod_restart_not_in_progress.
  cbv zeta. cbn [world_of partition patches local_state relation]. fold me.
  rewrite relation_get_put_eq.
  rewrite (with_pause_after_config_same d) by exact Hpause_d.
  rewrite (with_had_opportunity_same l) by exact Hhad.
  assert (uids_step l d = d) as -> by (unfold uids_step; rewrite Hjson; reflexivity).
  destruct (departing_uids env units) as [| uid [| ? ?]] eqn:Huid;
    [| | simpl in Hdeparting; lia].
  - apply attributes_after_departing_cleaned; try assumption;
      apply (cleaned_after_nothing env d l Hcleaned).
  - apply attributes_after_departing_cleaned; try assumption;
      first [apply (cleaned_after_departing env d l _ Hcleaned)
            | destruct l; exact Hstarted ].
Qed.

Lemma first_unit_that_has_not_allowed_ext r r' revision units :
  unit_databags r' = unit_databags r →
  first_unit_that_has_not_allowed r' revision units
  = first_unit_that_has_not_allowed r revision units.
Proof.
  intros H. unfold first_unit_that_has_not_allowed, unit_allowed_next, relation_get.
  rewrite H. reflexivity.
Qed.

(** [determine_allow_next_unit_to_refresh] reads the unit databags only,
    and only adds action output. *)
Lemma determine_allow_uniform env self handle_action action next_unit index w0 :
  ∃ o out,
    ∀ w, unit_databags (relation w) = unit_databags (relation w0) →
         determine_allow_next_unit_to_refresh env self handle_action action next_unit index w
         = (o, with_outputs w out []).
Proof.
  unfold determine_allow_next_unit_to_refresh. unfold_M.
  destruct (bool_decide (action = Some false)).
  { destruct handle_action; simpl;
      first [eexists _, []; intros w _; rewrite with_outputs_nil; reflexivity
            | eexists _, [_; _]; intros w _; solve_outputs]. }
  destruct (negb (_refresh_started self)).
  { destruct (handle_action && bool_decide (is_Some action)); simpl;
      [| eexists _, []; intros w _; rewrite with_outputs_nil; reflexivity].
    destruct (_units self); simpl;
      first [eexists _, []; intros w _; rewrite with_outputs_nil; reflexivity
            | eexists _, [_]; intros w _; solve_outputs]. }
  simpl.
  destruct (first_unit_that_has_not_allowed (relation w0) (_app_controller_revision self)
              (take index (_units_not_tearing_down self))) as [unit |] eqn:Hfirst.
  { destruct (handle_action && bool_decide (is_Some action)); simpl.
    - eexists _, [_]. intros w Hw.
      rewrite (first_unit_that_has_not_allowed_ext _ _ _ _ Hw), Hfirst. solve_outputs.
    - eexists _, []. intros w Hw.
      rewrite (first_unit_that_has_not_allowed_ext _ _ _ _ Hw), Hfirst.
      rewrite with_outputs_nil. reflexivity. }
  destruct (pause_after_permits _ _ _).
  2: { eexists _, []. intros w Hw.
       rewrite (first_unit_that_has_not_allowed_ext _ _ _ _ Hw), Hfirst.
       rewrite with_outputs_nil. reflexivity. }
  destruct (handle_action && bool_decide (is_Some action)); simpl.
  2: { eexists _, []. intros w Hw.
       rewrite (first_unit_that_has_not_allowed_ext _ _ _ _ Hw), Hfirst.
       rewrite with_outputs_nil. reflexivity. }
  destruct (bool_decide (_pause_after self = PauseAfter.NONE)); simpl.
  { eexists _, []. intros w Hw.
    rewrite (first_unit_that_has_not_allowed_ext _ _ _ _ Hw), Hfirst.
    rewrite with_outputs_nil. reflexivity. }
  destruct (bool_decide (_pause_after self = PauseAfter.FIRST)); simpl;
    eexists _, [_]; intros w Hw;
    rewrite (first_unit_that_has_not_allowed_ext _ _ _ _ Hw), Hfirst; solve_outputs.
Qed.

(** During a refresh, [_set_partition_and_app_status] at the partition that
    it left: it returns the same attributes, tells the same to the event,
    sets the same app status and issues no patch. *)
Lemma policy_in_progress_again env self w w' s1 w1 :
  _in_progress self = true →
  unit_databags (relation w') = unit_databags (relation w) →
  app_status w' = app_status w →
  _set_partition_and_app_status env self true w = (Returned s1, w1) →
  partition w' = partition w1 →
  ∃ out,
    action_output w1 = action_output w ++ out
    ∧ _set_partition_and_app_status env self true w'
      = (Returned s1, told w' out (app_status w1)).
Proof.
  intros Hprogress Hdatabags Hstatus. unfold _set_partition_and_app_status.
  destruct (negb (is_leader env)).
  { unfold_M. destruct (true && _); intros H Hp; injection H as <- <-; simpl.
    - eexists [_]. split; [reflexivity |]. unfold told. rewrite <- Hstatus. reflexivity.
    - exists []. rewrite app_nil_r. split; [reflexivity |].
      unfold told. rewrite <- Hstatus, app_nil_r. destruct w'. reflexivity. }
  cbv zeta.
  match goal with
  | |- context [if bool_decide (?p = PauseAfter.UNKNOWN) then ?a else ?b] =>
      set (self0 := if bool_decide (p = PauseAfter.UNKNOWN) then a else b)
  end.
  assert (_in_progress self0 = true) as ->.
  { subst self0. destruct (bool_decide _); exact Hprogress. }
  cbn [negb].
  match goal with
  | |- context [mbind _ (if ?c then ?a else ?b)] =>
      set (action_step := if c then a else b)
  end.
  assert (∃ action out, ∀ w, action_step w = (Returned action, with_outputs w out []))
    as (action & out0 & Haction).
  { subst action_step. destruct (true && _ && _); unfold_M; simpl.
    - eexists _, [_]. intros ?. solve_outputs.
    - eexists _, []. intros ?. rewrite with_outputs_nil. reflexivity. }
  rewrite !(bind_eq _ _ _ _ _ (Haction _)).
  destruct (next_unit_to_refresh_loop _ _ _ _) as [[index next_unit] |];
    [| intros H; discriminate H].
  destruct (determine_allow_uniform env self0 true action next_unit index w)
    as (o & out1 & Hallow).
  pose proof (Hallow (with_outputs w out0 []) eq_refl) as Hallow1.
  pose proof (Hallow (with_outputs w' out0 []) Hdatabags) as Hallow2.
  rewrite with_outputs_twice in Hallow1, Hallow2. simpl in Hallow1, Hallow2.
  destruct o as [allow | e];
    [| rewrite (bind_raised _ _ _ _ _ Hallow1); intros H; discriminate H].
  rewrite (bind_eq _ _ _ _ _ Hallow1), (bind_eq _ _ _ _ _ Hallow2).
  match goal with
  | |- context [mbind _ (if allow then ?a else ?b)] =>
      set (target_step := if allow then a else b)
  end.
  assert ((∃ target, target_step = mret target) ∨ target_step = raise IndexError)
    as [[target Htarget] | Htarget].
  { subst target_step. destruct allow; [left; eauto |].
    destruct (_ !! _); [left; eauto | right; reflexivity]. }
  2: { rewrite Htarget. intros H. discriminate H. }
  rewrite Htarget. unfold_M. cbn [partition with_outputs].
  destruct (List.last (Some <$> _units self0) None) as [last_unit |];
    [| destruct (target <? partition w); intros H; discriminate H].
  destruct (head (_units_not_tearing_down self0)) as [first_unit_not_tearing_down |];
    [| destruct (target <? partition w); intros H; discriminate H].
  destruct (target <? partition w) eqn:Hlt; simpl; intros H Hp;
    injection H as <- <-; simpl in Hp; rewrite Hp.
  - rewrite Z.ltb_irrefl. simpl. exists (out0 ++ out1).
    split; [reflexivity |]. unfold told. simpl. rewrite app_nil_r, Hp. reflexivity.
  - rewrite Hlt. simpl. exists (out0 ++ out1).
    split; [reflexivity |]. unfold told. simpl. rewrite app_nil_r, Hp. reflexivity.
Qed.

(** When no refresh is in progress, [_set_partition_and_app_status] sets
    the partition to 0 on the leader. *)
Lemma policy_not_in_progress env self w :
  _in_progress self = false →
  let status :=
    if is_leader env && bool_decide (_pause_after self = PauseAfter.UNKNOWN)
    then Some (BlockedStatus Pause_after_unit_refresh_config_must_be_set)
    else None in
  _set_partition_and_app_status env self true w
  = (Returned (with__app_status_higher_priority self status),
     {| partition := if is_leader env then 0 else partition w;
        patches := patches w
                   ++ (if is_leader env && negb (bool_decide (partition w = 0))
                       then [0] else []);
        local_state := local_state w;
        relation := relation w;
        action_output :=
          action_output w
          ++ (if bool_decide (is_Some (resume_refresh_action env))
              then [Fail (if is_leader env then No_refresh_in_progress
                          else Must_run_action_on_leader_unit)]
              else []);
        app_status := match status with Some s => Some s | None => app_status w end;
        checks := checks w |}).
Proof.
  intros Hprogress. unfold _set_partition_and_app_status.
  destruct (is_leader env); cbn [negb andb].
  2: { unfold_M. destruct (bool_decide _); simpl; rewrite ?app_nil_r;
         destruct w; reflexivity. }
  cbv zeta. cbn [_pause_after with__app_status_higher_priority].
  destruct (bool_decide (_pause_after self = PauseAfter.UNKNOWN));
    cbn [_in_progress with__app_status_higher_priority]; rewrite Hprogress; cbn [negb];
    unfold_M; cbn [partition];
    destruct (bool_decide (partition w = 0)) eqn:Hzero;
    destruct (bool_decide (is_Some _)); simpl; rewrite ?app_nil_r;
    try (apply bool_decide_eq_true in Hzero; rewrite <- Hzero);
    destruct w; reflexivity.
Qed.

(** Recording that the refresh has started keeps the state settled. *)
Lemma settled_started env units revision d l :
  settled env units revision d l →
  settled env units revision
    (with_refresh_started d
       (Some (append_if_missing revision
                (default [] (refresh_started_if_app_controller_revision_hash_in d)))))
    (with_refresh_started_local l true).
Proof.
  intros (Hhad & Hpause & Huids & Hdeparting & _ & Hrevision).
  split; [exact Hhad |]. split; [exact Hpause |]. split; [exact Huids |].
  split; [exact Hdeparting |]. split; [| exact Hrevision].
  intros _. eexists. split; [reflexivity |]. apply append_if_missing_elem.
Qed.

Lemma start_refresh_result_in_progress env self first_unit started original self' certified :
  start_refresh_result env self first_unit started original = Returned (self', certified) →
  _in_progress self' = _in_progress self
  ∧ _units self' = _units self
  ∧ _refresh_started self' = (certified || started).
Proof.
  unfold start_refresh_result.
  destruct (negb _); [intros H; injection H as <- <-; auto |].
  destruct (negb _); [intros H; discriminate H |].
  destruct original as [original |]; [| intros H; discriminate H].
  destruct started; [intros H; injection H as <- <-; auto |].
  destruct (_ || _); intros H; injection H as <- <-; auto.
Qed.

Lemma start_refresh_result_certified env self first_unit started original self' :
  start_refresh_result env self first_unit started original = Returned (self', true) →
  charm_unit env = number first_unit
  ∧ _unit_controller_revision self = _app_controller_revision self.
Proof.
  unfold start_refresh_result.
  destruct (bool_decide (charm_unit env = number first_unit)) eqn:Hfirst;
    [| intros H; discriminate H].
  destruct (bool_decide (_unit_controller_revision self = _app_controller_revision self))
    eqn:Hrevision; [| intros H; discriminate H].
  intros _. split; [eapply bool_decide_eq_true_1 | eapply bool_decide_eq_true_1]; eassumption.
Qed.

(** Once [_start_refresh] has returned, it returns the same attributes on
    the databags that it left, and does not start the refresh again. *)
Lemma start_refresh_result_again env self first_unit started original self' certified :
  start_refresh_result env self first_unit started original = Returned (self', certified) →
  start_refresh_result env self first_unit (certified || started) original
  = Returned (self', false).
Proof.
  unfold start_refresh_result.
  destruct (negb _); [intros H; injection H as <- <-; reflexivity |].
  destruct (negb _); [intros H; discriminate H |].
  destruct original as [original |]; [| intros H; discriminate H].
  destruct started; [intros H; injection H as <- <-; reflexivity |].
  destruct (_ || _); intros H; injection H as <- <-; reflexivity.
Qed.

Lemma refresh_started_in_databags_put self r me d a :
  refresh_started_in_databags self (put r me d a)
  = existsb
      (λ unit, in_hashes (_app_controller_revision self)
                 (refresh_started_if_app_controller_revision_hash_in
                    (if bool_decide (number unit = me) then d else relation_get r (number unit))))
      (_units self)
    || in_hashes (_app_controller_revision self)
         (app_refresh_started_if_app_controller_revision_hash_in a).
Proof.
  unfold refresh_started_in_databags. rewrite my_app_put. f_equal.
  induction (_units self) as [| unit units IH]; simpl; [reflexivity |].
  rewrite relation_get_put, IH. reflexivity.
Qed.

Lemma refresh_started_in_databags_certified env self r d a first_unit rest :
  _units self = first_unit :: rest →
  charm_unit env = number first_unit →
  _unit_controller_revision self = _app_controller_revision self →
  refresh_started_in_databags self
    (put r (charm_unit env)
       (with_refresh_started d
          (Some (append_if_missing (_unit_controller_revision self)
                   (default [] (refresh_started_if_app_controller_revision_hash_in d)))))
       a)
  = true.
Proof.
  intros Hunits Hfirst Hrevision. rewrite refresh_started_in_databags_put, Hunits. simpl.
  rewrite bool_decide_eq_true_2 by (symmetry; exact Hfirst). simpl.
  unfold in_hashes. simpl. rewrite <- Hrevision.
  rewrite bool_decide_eq_true_2 by apply append_if_missing_elem. reflexivity.
Qed.

Lemma propagate_refresh_started_to_app_put_twice r me d a units :
  propagate_refresh_started_to_app
    (put r me d (propagate_refresh_started_to_app (put r me d a) units)) units
  = propagate_refresh_started_to_app (put r me d a) units.
Proof. apply propagate_refresh_started_to_app_twice. Qed.

Lemma versions_readable_propagate valid r units :
  versions_readable valid (propagate_refresh_started_to_app r units)
  = versions_readable valid (my_app r).
Proof. reflexivity. Qed.

Lemma _start_refresh_no_units env self w :
  _units self = [] → _start_refresh env self w = (Raised IndexError, w).
Proof. intros H. unfold _start_refresh. rewrite H. reflexivity. Qed.

(** During a refresh, the statements of [__init__] from the first use of
    the peer relation on, evaluated again
    on what they left: the same attributes, no patch, the same partition,
    local state and unit databags; the leader propagates to the app databag
    what the first evaluation wrote to its unit databag. *)
Lemma evaluation_again_in_progress env units this_unit w self1 w1 :
  action_output w = [] →
  app_status w = None →
  (self ← set_attributes env units this_unit true;
   self ← _start_refresh env self;
   _set_partition_and_app_status env self true) w = (Returned self1, w1) →
  ∃ w2,
    (self ← set_attributes env units this_unit true;
     self ← _start_refresh env self;
     _set_partition_and_app_status env self true) (fresh w1) = (Returned self1, w2)
    ∧ patches w2 = []
    ∧ partition w2 = partition w1
    ∧ local_state w2 = local_state w1
    ∧ unit_databags (relation w2) = unit_databags (relation w1)
    ∧ my_app (relation w2)
      = (if is_leader env then propagate_refresh_started_to_app (relation w1) units
         else my_app (relation w1))
    ∧ app_status w2 = app_status w1
    ∧ (is_force_refresh_start (event env) = false → action_output w2 = action_output w1)
    ∧ kubernetes_unit_tearing_down (local_state w1)
      = kubernetes_unit_tearing_down (local_state w).
Proof.
  intros Houtput Hstatus H.
  (* the first evaluation *)
  pose proof (set_attributes_closed_form env units this_unit true w) as HA.
  destruct (read_versions env) as [versions | e0] eqn:Hversions.
  2: { destruct HA as (e & w' & HA). rewrite (bind_raised _ _ _ _ _ HA) in H. discriminate H. }
  destruct (attributes_closed_form env units this_unit true w) as [[selfA wA] |] eqn:Hclosed.
  2: { destruct HA as (e & w' & HA). rewrite (bind_raised _ _ _ _ _ HA) in H. discriminate H. }
  rewrite (bind_eq _ _ _ _ _ HA) in H. clear HA.
  apply (attributes_closed_form_in_progress env units this_unit w selfA wA) in Hclosed.
  cbv zeta in Hclosed.
  destruct Hclosed as (d & l & pause_after & Hsettled & Hdeparting & Htearing & Hpause
                       & Hreadable & HselfA & HwA).
  set (me := charm_unit env) in *. set (r := relation w) in *. set (a0 := my_app r) in *.
  set (units_not_tearing_down := units_not_tearing_down_of (put r me d a0) units) in *.
  set (app := if is_leader env then propagate_refresh_started_to_app (put r me d a0) units
              else a0) in *.
  destruct units as [| first_unit rest].
  { rewrite (bind_raised _ _ _ _ _ (_start_refresh_no_units env selfA wA
                                      ltac:(rewrite HselfA; reflexivity))) in H.
    discriminate H. }
  set (units := first_unit :: rest) in *.
  assert (_units selfA = first_unit :: rest) as Hunits by (rewrite HselfA; reflexivity).
  assert (_in_progress selfA = true) as HprogressA by (rewrite HselfA; reflexivity).
  assert (_unit_controller_revision selfA = controller_revision this_unit) as HrevisionA
    by (rewrite HselfA; reflexivity).
  assert (relation wA = put r me d app) as HrA by (rewrite HwA; reflexivity).
  destruct (_start_refresh_run env selfA wA first_unit rest Hunits) as (out & cs & Hout & Hrun).
  rewrite HprogressA in Hrun.
  set (started1 := refresh_started_in_databags selfA (relation wA)) in *.
  set (original := OriginalVersions.from_app_databag (CharmVersion_valid env)
                     (my_app (relation wA))) in *.
  destruct (start_refresh_result env selfA first_unit started1 original)
    as [[selfB certified] | e] eqn:Hresult.
  2: { destruct Hrun as (w' & Hrun). rewrite (bind_raised _ _ _ _ _ Hrun) in H.
       discriminate H. }
  rewrite (bind_eq _ _ _ _ _ Hrun) in H. clear Hrun.
  set (wB := with_outputs (if certified then started_world env selfA wA else wA) out cs) in *.
  set (d1 := if certified
             then with_refresh_started d
                    (Some (append_if_missing (controller_revision this_unit)
                             (default [] (refresh_started_if_app_controller_revision_hash_in
                                            d))))
             else d).
  set (l1 := if certified then with_refresh_started_local l true else l).
  assert (relation wB = put r me d1 app ∧ local_state wB = l1 ∧ app_status wB = None
          ∧ action_output wB = (pre_refresh_check_outputs env true).1 ++ out)
    as (HrB & HlB & HsB & HoB).
  { subst wB d1 l1. destruct certified.
    - unfold started_world. cbn [with_outputs world_of relation local_state app_status
                                 action_output].
      rewrite HrA, relation_get_put_eq, put_put, my_app_put, HrevisionA.
      rewrite HwA. cbn. rewrite Hstatus, Houtput. auto.
    - rewrite HwA. cbn. rewrite Hstatus, Houtput. auto. }
  assert (settled env units (controller_revision this_unit) d1 l1) as Hsettled1.
  { subst d1 l1. destruct certified; [apply settled_started |]; exact Hsettled. }
  pose proof (_set_partition_and_app_status_step env selfB true wB) as (Hr1 & Hl1 & _).
  rewrite H in Hr1, Hl1. cbn [snd] in Hr1, Hl1.
  (* the second evaluation: the attributes *)
  assert (fresh w1 = world_of (fresh w1) (partition w1) [] l1 (put r me d1 app)) as Hfresh.
  { unfold fresh, world_of. cbn. rewrite Hr1, Hl1, HrB, HlB. reflexivity. }
  pose proof (set_attributes_closed_form env units this_unit true (fresh w1)) as HA2.
  rewrite Hversions in HA2.
  rewrite Hfresh in HA2.
  pose proof (attributes_closed_form_settled env units this_unit (fresh w1) (partition w1) []
                l1 r d1 app Hsettled1 Hdeparting) as Hclosed2.
  cbv zeta in Hclosed2. fold me in Hclosed2. rewrite Hclosed2 in HA2. clear Hclosed2.
  set (app2 := if is_leader env then propagate_refresh_started_to_app (put r me d1 app) units
               else app) in *.
  assert (pod_uids_of_units_that_are_tearing_down d1
          = pod_uids_of_units_that_are_tearing_down d
          ∧ pause_after_unit_refresh_config d1 = pause_after_unit_refresh_config d)
    as [Huids1 Hpause1] by (subst d1; destruct certified; split; reflexivity).
  rewrite (units_not_tearing_down_of_put r me d1 d app a0 units Huids1) in HA2.
  fold units_not_tearing_down in HA2.
  rewrite (determine_pause_after_put r me d1 d app2 app units units_not_tearing_down Hpause1),
    Hpause in HA2.
  assert (versions_readable (CharmVersion_valid env) app2 = true) as Hreadable2.
  { subst app2. destruct (is_leader env); [| exact Hreadable].
    rewrite versions_readable_propagate, my_app_put. exact Hreadable. }
  rewrite Hreadable2, <- HselfA, <- Hfresh in HA2.
  set (wA2 := with_outputs (world_of (fresh w1) (partition w1) [] l1 (put r me d1 app2)) _ _)
    in HA2.
  (* the second evaluation: [_start_refresh] *)
  destruct (_start_refresh_run env selfA wA2 first_unit rest Hunits)
    as (out2 & cs2 & Hout2 & Hrun2).
  rewrite HprogressA in Hrun2.
  assert (refresh_started_in_databags selfA (relation wA2) = certified || started1)
    as Hstarted2.
  { change (relation wA2) with (put r me d1 app2). subst d1 app2. destruct certified.
    - destruct (start_refresh_result_certified _ _ _ _ _ _ Hresult) as [Hfirst Hrevision].
      rewrite <- HrevisionA.
      apply (refresh_started_in_databags_certified env selfA r d _ first_unit rest);
        assumption.
    - cbn [orb]. subst started1. rewrite HrA. f_equal. f_equal. subst app.
      destruct (is_leader env); [| reflexivity].
      apply propagate_refresh_started_to_app_put_twice. }
  assert (OriginalVersions.from_app_databag (CharmVersion_valid env) (my_app (relation wA2))
          = original) as Horiginal2.
  { subst original. rewrite HrA. change (relation wA2) with (put r me d1 app2).
    rewrite !my_app_put. subst app2. destruct (is_leader env); reflexivity. }
  rewrite Hstarted2, Horiginal2, (start_refresh_result_again _ _ _ _ _ _ _ Hresult) in Hrun2.
  (* the second evaluation: [_set_partition_and_app_status] *)
  destruct (start_refresh_result_in_progress _ _ _ _ _ _ _ Hresult) as (HprogressB & _).
  rewrite HprogressA in HprogressB.
  destruct (policy_in_progress_again env selfB wB (with_outputs wA2 out2 cs2) self1 w1
              HprogressB) as (outP & HoutP & Hpolicy).
  { rewrite HrB. reflexivity. }
  { rewrite HsB. reflexivity. }
  { exact H. }
  { reflexivity. }
  exists (told (with_outputs wA2 out2 cs2) outP (app_status w1)). split.
  { rewrite (bind_eq _ _ _ _ _ HA2), (bind_eq _ _ _ _ _ Hrun2). exact Hpolicy. }
  cbn [told with_outputs wA2 world_of partition patches local_state relation app_status
       action_output fresh].
  split; [reflexivity |]. split; [reflexivity |].
  split; [rewrite Hl1, HlB; reflexivity |].
  split; [rewrite Hr1, HrB; reflexivity |].
  split; [rewrite Hr1, HrB; reflexivity |].
  split; [reflexivity |].
  split.
  { intros Hforce. rewrite HoutP, HoB, (Hout Hforce), (Hout2 Hforce), !app_nil_r.
    reflexivity. }
  rewrite Hl1, HlB, <- Htearing. subst l1. destruct certified; reflexivity.
Qed.

(** When no refresh is in progress, the same statements evaluated again on
    what they left: no patch, the same partition, local state and databags,
    the same statuses. *)
Lemma evaluation_again_not_in_progress env units this_unit w self1 w1 :
  in_progress_of env units = false →
  action_output w = [] →
  app_status w = None →
  (self ← set_attributes env units this_unit false;
   self ← _start_refresh env self;
   _set_partition_and_app_status env self true) w = (Returned self1, w1) →
  ∃ self2 w2,
    (self ← set_attributes env units this_unit false;
     self ← _start_refresh env self;
     _set_partition_and_app_status env self true) (fresh w1) = (Returned self2, w2)
    ∧ patches w2 = []
    ∧ partition w2 = partition w1
    ∧ local_state w2 = local_state w1
    ∧ relation w2 = relation w1
    ∧ _unit_status_higher_priority self2 = _unit_status_higher_priority self1
    ∧ _app_status_higher_priority self2 = _app_status_higher_priority self1
    ∧ _pause_after self2 = _pause_after self1
    ∧ _refresh_started self2 = _refresh_started self1
    ∧ app_status w2 = app_status w1
    ∧ (is_force_refresh_start (event env) = false → action_output w2 = action_output w1)
    ∧ kubernetes_unit_tearing_down (local_state w1)
      = kubernetes_unit_tearing_down (local_state w).
Proof.
  intros Hprogress Houtput Hstatus H.
  (* the first evaluation *)
  pose proof (set_attributes_closed_form env units this_unit false w) as HA.
  destruct (read_versions env) as [versions | e0] eqn:Hversions.
  2: { destruct HA as (e & w' & HA). rewrite (bind_raised _ _ _ _ _ HA) in H. discriminate H. }
  destruct (attributes_closed_form env units this_unit false w) as [[selfA wA] |] eqn:Hclosed.
  2: { destruct HA as (e & w' & HA). rewrite (bind_raised _ _ _ _ _ HA) in H. discriminate H. }
  rewrite (bind_eq _ _ _ _ _ HA) in H. clear HA.
  apply (attributes_closed_form_not_in_progress env units this_unit w selfA wA Hprogress)
    in Hclosed.
  cbv zeta in Hclosed.
  destruct Hclosed as (d & l & app & units_not_tearing_down & pause_after & Hcleaned
                       & Hdeparting & Htearing & Hpause & Hsaved & Hreadable & HselfA
                       & HwA).
  set (me := charm_unit env) in *. set (r := relation w) in *.
  destruct units as [| first_unit rest].
  { rewrite (bind_raised _ _ _ _ _ (_start_refresh_no_units env selfA wA
                                      ltac:(rewrite HselfA; reflexivity))) in H.
    discriminate H. }
  set (units := first_unit :: rest) in *.
  destruct (_start_refresh_run env selfA wA first_unit rest ltac:(rewrite HselfA; reflexivity))
    as (out & cs & Hout & Hrun).
  replace (_in_progress selfA) with false in Hrun by (rewrite HselfA; reflexivity).
  rewrite (bind_eq _ _ _ _ _ Hrun) in H. clear Hrun.
  rewrite policy_not_in_progress in H by (rewrite HselfA; reflexivity).
  injection H as <- <-.
  (* the second evaluation *)
  match goal with
  | |- ∃ self2 w2, _ (fresh ?w1) = _ ∧ _ =>
      assert (fresh w1 = world_of (fresh w1) (partition w1) [] l (put r me d app)) as Hfresh
        by (rewrite HwA; reflexivity);
      set (w1' := w1) in *
  end.
  destruct (attributes_closed_form_cleaned env units this_unit (fresh w1') (partition w1') []
              l r d app pause_after Hcleaned Hdeparting Hpause Hsaved Hreadable)
    as (units_not_tearing_down2 & Hclosed2).
  fold me in Hclosed2.
  pose proof (set_attributes_closed_form env units this_unit false (fresh w1')) as HA2.
  rewrite Hversions in HA2.
  rewrite Hfresh, Hclosed2, <- Hfresh in HA2. clear Hclosed2.
  set (selfA2 := attributes env units this_unit false units_not_tearing_down2 pause_after)
    in *.
  set (wA2 := with_outputs _ _ _) in HA2.
  destruct (_start_refresh_run env selfA2 wA2 first_unit rest eq_refl)
    as (out2 & cs2 & Hout2 & Hrun2).
  change (_in_progress selfA2) with false in Hrun2. cbv beta iota in Hrun2.
  eexists _, _. split.
  { rewrite (bind_eq _ _ _ _ _ HA2), (bind_eq _ _ _ _ _ Hrun2).
    apply policy_not_in_progress. reflexivity. }
  subst w1' wA2 selfA2. rewrite HselfA, HwA.
  cbn [with_outputs world_of fresh partition patches local_state relation app_status
       action_output with__app_status_higher_priority with__unit_status_higher_priority
       attributes _pause_after _refresh_started _unit_status_higher_priority
       _app_status_higher_priority].
  rewrite Hstatus, Houtput.
  split.
  { destruct (is_leader env); [| reflexivity].
    rewrite bool_decide_eq_true_2 by reflexivity. reflexivity. }
  split; [destruct (is_leader env); reflexivity |].
  split; [reflexivity |]. split; [reflexivity |]. split; [reflexivity |].
  split; [reflexivity |]. split; [reflexivity |]. split; [reflexivity |].
  split; [reflexivity |].
  split; [| exact Htearing].
  intros Hforce. rewrite (Hout Hforce), (Hout2 Hforce). reflexivity.
Qed.

Lemma when_false_bind {A} (body : M ()) (k : () → M A) (w : World) :
  (when false body ≫= k) w = k () w.
Proof. reflexivity. Qed.

(** [__init__] returns only past its guards. *)
Lemma __init___returned env w self1 w1 :
  __init__ env w = (Returned self1, w1) →
  ∃ this_unit,
    List.find (λ unit, bool_decide (number unit = charm_unit env)) (sorted_reverse (pods env))
    = Some this_unit
    ∧ kubernetes_unit_tearing_down (local_state w) = false
    ∧ ∀ w',
        kubernetes_unit_tearing_down (local_state w') = false →
        __init__ env w'
        = (self ← set_attributes env (sorted_reverse (pods env)) this_unit
                    (in_progress_of env (sorted_reverse (pods env)));
           self ← _start_refresh env self;
           _set_partition_and_app_status env self true) (raised_during_stop_event env w').
Proof.
  unfold __init__.
  destruct (match event env with
            | RelationDepartedEvent _ => _
            | _ => false
            end) eqn:Hdeparting.
  { unfold_M. cbn [local_state with_tearing_down kubernetes_unit_tearing_down].
    destruct (negb (status_allowed env));
      [destruct (is_leader env); intros H; discriminate H |].
    destruct (List.find _ _); [| intros H; discriminate H].
    cbn [local_state with_tearing_down kubernetes_unit_tearing_down].
    destruct (is_refresh_action _), (negb _); intros H; discriminate H. }
  rewrite when_false_bind.
  destruct (negb (status_allowed env)).
  { unfold_M. destruct (is_leader env); intros H; discriminate H. }
  destruct (List.find _ _) as [this_unit |]; [| intros H; discriminate H].
  unfold get_local_state at 1. unfold mbind at 1, M_bind at 1.
  destruct (kubernetes_unit_tearing_down (local_state w)) eqn:Htearing.
  { unfold_M. destruct (is_refresh_action _), (negb _); intros H; discriminate H. }
  destruct (negb (peer_relation_available env)).
  { unfold raise_partition. unfold_M.
    destruct (_ && _); [cbn [partition]; destruct (partition w <? charm_unit env) |];
      intros H; discriminate H. }
  intros _. exists this_unit. split; [reflexivity |]. split; [reflexivity |].
  intros w' Htearing'.
  rewrite when_false_bind.
  unfold get_local_state at 1. unfold mbind at 1, M_bind at 1.
  rewrite Htearing'. unfold raised_during_stop_event.
  destruct (is_StopEvent (event env) && in_progress_of env (sorted_reverse (pods env)));
    cbn [andb]; [| rewrite when_false_bind; reflexivity].
  unfold when at 1, raise_partition. unfold_M. cbn [partition].
  destruct (partition w' <? charm_unit env); reflexivity.
Qed.

Lemma raised_during_stop_event_frame env w :
  action_output (raised_during_stop_event env w) = action_output w
  ∧ app_status (raised_during_stop_event env w) = app_status w
  ∧ local_state (raised_during_stop_event env w) = local_state w.
Proof. unfold raised_during_stop_event. destruct (_ && _ && _); repeat split. Qed.

(** C7 (as amended).  An evaluation of [__init__] that returns, followed by
    a second evaluation for the same event on the partition, the local
    state and the databags that the first one left.  Unless the event is a
    stop event during a refresh and the first evaluation has left the
    partition below this unit's number, the second evaluation returns,
    issues no patch, leaves the partition, the local state and every unit
    databag as they are, and computes the same statuses, pause policy and
    started flag.  On the leader during a refresh it writes to the app
    databag the hashes of the unit databags, which include what the first
    evaluation wrote to this unit's databag; otherwise the app databag is
    unchanged.  Unless the event is the force-refresh-start action, the
    action output is the same. *)
Theorem second_evaluation_changes_nothing env w self1 w1 :
  is_StopEvent (event env) && in_progress_of env (sorted_reverse (pods env))
    && (partition w1 <? charm_unit env) = false →
  __init__ env (fresh w) = (Returned self1, w1) →
  ∃ self2 w2,
    __init__ env (fresh w1) = (Returned self2, w2)
    ∧ patches w2 = []
    ∧ partition w2 = partition w1
    ∧ local_state w2 = local_state w1
    ∧ unit_databags (relation w2) = unit_databags (relation w1)
    ∧ my_app (relation w2)
      = (if is_leader env && in_progress_of env (sorted_reverse (pods env))
         then propagate_refresh_started_to_app (relation w1) (sorted_reverse (pods env))
         else my_app (relation w1))
    ∧ _unit_status_higher_priority self2 = _unit_status_higher_priority self1
    ∧ _app_status_higher_priority self2 = _app_status_higher_priority self1
    ∧ _pause_after self2 = _pause_after self1
    ∧ _refresh_started self2 = _refresh_started self1
    ∧ app_status w2 = app_status w1
    ∧ (is_force_refresh_start (event env) = false → action_output w2 = action_output w1).
Proof.
  intros Hguard H.
  destruct (__init___returned _ _ _ _ H) as (this_unit & _ & Htearing & Hbody).
  rewrite (Hbody (fresh w) Htearing) in H.
  destruct (raised_during_stop_event_frame env (fresh w)) as (Houtput0 & Hstatus0 & Hlocal0).
  assert (raised_during_stop_event env (fresh w1) = fresh w1) as Hagain.
  { unfold raised_during_stop_event. cbn [fresh partition]. rewrite Hguard. reflexivity. }
  destruct (in_progress_of env (sorted_reverse (pods env))) eqn:Hprogress.
  - destruct (evaluation_again_in_progress env _ this_unit _ self1 w1 Houtput0 Hstatus0 H)
      as (w2 & H2 & Hpatches & Hpartition & Hlocal & Hunits & Happ & Hstatus & Houtput
          & Htearing1).
    exists self1, w2. rewrite (Hbody (fresh w1)), Hagain.
    + rewrite andb_true_r.
      split; [exact H2 |]. split; [exact Hpatches |]. split; [exact Hpartition |].
      split; [exact Hlocal |]. split; [exact Hunits |]. split; [exact Happ |].
      split; [reflexivity |]. split; [reflexivity |]. split; [reflexivity |].
      split; [reflexivity |]. split; [exact Hstatus | exact Houtput].
    + cbn [fresh local_state]. rewrite Htearing1, Hlocal0. exact Htearing.
  - destruct (evaluation_again_not_in_progress env _ this_unit _ self1 w1
                Hprogress Houtput0 Hstatus0 H)
      as (self2 & w2 & H2 & Hpatches & Hpartition & Hlocal & Hrelation & Hunit & Happ
          & Hpause & Hstarted & Hstatus & Houtput & Htearing1).
    exists self2, w2. rewrite (Hbody (fresh w1)), Hagain.
    + rewrite andb_false_r, Hrelation.
      split; [exact H2 |]. split; [exact Hpatches |]. split; [exact Hpartition |].
      split; [exact Hlocal |]. split; [reflexivity |]. split; [reflexivity |].
      split; [exact Hunit |]. split; [exact Happ |]. split; [exact Hpause |].
      split; [exact Hstarted |]. split; [exact Hstatus | exact Houtput].
    + cbn [fresh local_state]. rewrite Htearing1, Hlocal0. exact Htearing.
Qed.

Lemma second_evaluation_changes_nothing_witness :
  let env := Deployment.env StopEvent 1 false "first" in
  let first := __init__ env (fresh (Deployment.world 0 relation_unit2_allowed)) in
  ∃ self1,
    first = (Returned self1, first.2)
    ∧ patches first.2 = [1]
    ∧ is_StopEvent (event env) && in_progress_of env (sorted_reverse (pods env))
        && (partition first.2 <? charm_unit env) = false
    ∧ ∃ self2 w2,
        __init__ env (fresh first.2) = (Returned self2, w2)
        ∧ patches w2 = []
        ∧ partition w2 = partition first.2
        ∧ local_state w2 = local_state first.2
        ∧ unit_databags (relation w2) = unit_databags (relation first.2)
        ∧ my_app (relation w2)
          = (if is_leader env && in_progress_of env (sorted_reverse (pods env))
             then propagate_refresh_started_to_app (relation first.2)
                    (sorted_reverse (pods env))
             else my_app (relation first.2))
        ∧ _unit_status_higher_priority self2 = _unit_status_higher_priority self1
        ∧ _app_status_higher_priority self2 = _app_status_higher_priority self1
        ∧ _pause_after self2 = _pause_after self1
        ∧ _refresh_started self2 = _refresh_started self1
        ∧ app_status w2 = app_status first.2
        ∧ (is_force_refresh_start (event env) = false
           → action_output w2 = action_output first.2).
Proof.
  cbv zeta.
  assert (∃ self1,
            __init__ (Deployment.env StopEvent 1 false "first")
              (fresh (Deployment.world 0 relation_unit2_allowed))
            = (Returned self1,
               (__init__ (Deployment.env StopEvent 1 false "first")
                  (fresh (Deployment.world 0 relation_unit2_allowed))).2)) as [self1 H]
    by (eexists; vm_compute; reflexivity).
  exists self1. split; [exact H |]. split; [vm_compute; reflexivity |].
  split; [vm_compute; reflexivity |].
  exact (second_evaluation_changes_nothing (Deployment.env StopEvent 1 false "first")
           (Deployment.world 0 relation_unit2_allowed) self1
           (__init__ (Deployment.env StopEvent 1 false "first")
              (fresh (Deployment.world 0 relation_unit2_allowed))).2
           ltac:(vm_compute; reflexivity) H).
Defined.

(** A stop event on the leader, unit 2, while the pause policy is "all":
    the first evaluation raises the partition from 1 to 2 and the policy
    leaves it there; the second evaluation patches nothing. *)
Lemma stop_event_on_paused_leader :
  let env := Deployment.env StopEvent 2 true "all" in
  let first := __init__ env (fresh (Deployment.world 1 relation_unit2_allowed)) in
  let second := __init__ env (fresh first.2) in
  patches first.2 = [2]
  ∧ partition first.2 = 2
  ∧ patches second.2 = []
  ∧ partition second.2 = 2.
Proof. cbv zeta. repeat split; vm_compute; reflexivity. Qed.

(** C7 (counterexample).  A stop event on the leader, unit 2 of the
    example deployment, while a refresh is in progress: the evaluation
    leaves the partition, the local state and the databags exactly as it
    found them, and patches the partition twice, to raise it to 2 and to
    lower it to 1 again; the second evaluation, on the same state, issues
    the same two patches. *)
Lemma stop_event_patches_every_time :
  let env := Deployment.env StopEvent 2 true "none" in
  let first := __init__ env (fresh leader_stopping) in
  let second := __init__ env (fresh first.2) in
  first.1 = Returned leader_after_start
  ∧ partition first.2 = partition leader_stopping
  ∧ local_state first.2 = local_state leader_stopping
  ∧ relation first.2 = relation leader_stopping
  ∧ patches first.2 = [2; 1]
  ∧ second.1 = Returned leader_after_start
  ∧ patches second.2 = [2; 1].
Proof. cbv zeta. repeat split; vm_compute; reflexivity. Qed.

(** On the example deployment at the start of a refresh, for an ordinary
    event on the leader: the first evaluation starts the refresh, and the
    second evaluation, on the state that the first one left, changes the app
    databag. *)
Lemma second_evaluation_writes_to_app_databag :
  let env := Deployment.env OtherEvent 2 true "none" in
  let first := __init__ env (fresh start_of_refresh) in
  let second := __init__ env (fresh first.2) in
  first = (Returned leader_after_start, refresh_just_started)
  ∧ second.1 = Returned leader_after_start
  ∧ app_refresh_started_if_app_controller_revision_hash_in (my_app (relation first.2))
    = Some []
  ∧ app_refresh_started_if_app_controller_revision_hash_in (my_app (relation second.2))
    = Some ["v2"]
  ∧ my_app (relation second.2) ≠ my_app (relation first.2).
Proof.
  cbv zeta.
  split; [vm_compute; reflexivity |]. split; [vm_compute; reflexivity |].
  split; [vm_compute; reflexivity |]. split; [vm_compute; reflexivity |].
  vm_compute. intros H. discriminate H.
Qed.

(** The force-refresh-start action succeeds in the first evaluation and
    fails in the second, because the refresh has started. *)
Lemma force_refresh_start_answers_differently :
  let env := Deployment.env (ActionEvent (force_refresh_start false true true)) 2 true "none" in
  let first := __init__ env (fresh start_of_refresh) in
  let second := __init__ env (fresh first.2) in
  List.last (Some <$> action_output first.2) None
  = Some (Result (Workload_refreshed_on_unit_starting 2))
  ∧ action_output second.2 = [Fail Refresh_already_started].
Proof. cbv zeta. split; vm_compute; reflexivity. Qed.

(** ** The partition along evaluations of [__init__] *)

Lemma keeps_mret {A} (a : A) : keeps_partition (mret a).
Proof. intros w. split; reflexivity. Qed.

Lemma keeps_raise {A} e : keeps_partition (@raise A e).
Proof. intros w. split; reflexivity. Qed.

Lemma keeps_lift {A} (o : Outcome A) : keeps_partition (lift o).
Proof. intros w. split; reflexivity. Qed.

Lemma keeps_bind {A B} (m : M A) (k : A → M B) :
  keeps_partition m → (∀ a, keeps_partition (k a)) → keeps_partition (m ≫= k).
Proof.
  intros Hm Hk w. unfold mbind, M_bind. specialize (Hm w).
  destruct (m w) as [[a | e] w']; cbn [snd] in *; [| exact Hm].
  destruct (Hk a w') as [-> ->]. exact Hm.
Qed.

Lemma keeps_when c body : keeps_partition body → keeps_partition (when c body).
Proof. intros H. destruct c; [exact H | apply keeps_mret]. Qed.

Lemma keeps_get_world : keeps_partition get_world.
Proof. intros w. split; reflexivity. Qed.

Lemma keeps_get_local_state : keeps_partition get_local_state.
Proof. intros w. split; reflexivity. Qed.

Lemma keeps_set_local_state l : keeps_partition (set_local_state l).
Proof. intros w. split; reflexivity. Qed.

Lemma keeps_my_unit me : keeps_partition (my_unit me).
Proof. intros w. split; reflexivity. Qed.

Lemma keeps_set_my_unit me d : keeps_partition (set_my_unit me d).
Proof. intros w. split; reflexivity. Qed.

Lemma keeps_my_app_ro : keeps_partition my_app_ro.
Proof. intros w. split; reflexivity. Qed.

Lemma keeps_set_my_app_rw a : keeps_partition (set_my_app_rw a).
Proof. intros w. split; reflexivity. Qed.

Lemma keeps_output o : keeps_partition (output o).
Proof. intros w. split; reflexivity. Qed.

Lemma keeps_enter c : keeps_partition (enter c).
Proof. intros w. split; reflexivity. Qed.

Lemma keeps_set_app_status s : keeps_partition (set_app_status s).
Proof. intros w. split; reflexivity. Qed.

Lemma keeps__get_partition : keeps_partition _get_partition.
Proof. intros w. split; reflexivity. Qed.

Create HintDb keeps.
#[local] Hint Resolve keeps_mret keeps_raise keeps_lift keeps_get_world keeps_get_local_state
  keeps_set_local_state keeps_my_unit keeps_set_my_unit keeps_my_app_ro keeps_set_my_app_rw
  keeps_output keeps_enter keeps_set_app_status keeps__get_partition : keeps.

(** Goes through a computation that is built from the operations above. *)
Ltac keeps :=
  repeat first
    [ progress (unfold event_fail, event_log, event_result, if_force_start)
    | solve [auto with keeps]
    | apply keeps_bind; [| intros ?]
    | apply keeps_when
    | progress cbv zeta
    | match goal with
      | |- keeps_partition (match ?x with _ => _ end) => destruct x
      end ].

Lemma keeps_set_pause_after_config env : keeps_partition (set_pause_after_config env).
Proof. unfold set_pause_after_config. keeps. Qed.

Lemma keeps_propagate_pod_uids_local_state env :
  keeps_partition (propagate_pod_uids_local_state env).
Proof. unfold propagate_pod_uids_local_state. keeps. Qed.

Lemma keeps_save_departing_unit env units : keeps_partition (save_departing_unit env units).
Proof. unfold save_departing_unit. keeps. Qed.

Lemma keeps_save_controller_revision_during_stop_event env in_progress revision :
  keeps_partition (save_controller_revision_during_stop_event env in_progress revision).
Proof. unfold save_controller_revision_during_stop_event. keeps. Qed.

Lemma keeps_propagate_refresh_started_local_state env revision :
  keeps_partition (propagate_refresh_started_local_state env revision).
Proof. unfold propagate_refresh_started_local_state. keeps. Qed.

Lemma keeps_clean_up_and_save_versions env charm workload pinned installed :
  keeps_partition (clean_up_and_save_versions env charm workload pinned installed).
Proof. unfold clean_up_and_save_versions. keeps. Qed.

Lemma keeps_pre_refresh_check_action env in_progress installed :
  keeps_partition (pre_refresh_check_action env in_progress installed).
Proof. unfold pre_refresh_check_action. keeps. Qed.

#[local] Hint Resolve keeps_set_pause_after_config keeps_propagate_pod_uids_local_state
  keeps_save_departing_unit keeps_save_controller_revision_during_stop_event
  keeps_propagate_refresh_started_local_state keeps_clean_up_and_save_versions
  keeps_pre_refresh_check_action : keeps.

Lemma keeps__ForceRefreshStartAction__init__ env first_unit in_progress :
  keeps_partition (_ForceRefreshStartAction__init__ env first_unit in_progress).
Proof. unfold _ForceRefreshStartAction__init__. keeps. Qed.

Lemma keeps_record_refresh_started env self : keeps_partition (record_refresh_started env self).
Proof. unfold record_refresh_started, touch_refresh_started_local_state. keeps. Qed.

Lemma keeps_workload_container_check env self force_start :
  keeps_partition (workload_container_check env self force_start).
Proof. unfold workload_container_check. keeps. Qed.

Lemma keeps_compatibility_check env self original force_start :
  keeps_partition (compatibility_check env self original force_start).
Proof. unfold compatibility_check. keeps. Qed.

Lemma keeps_pre_refresh_checks env self force_start :
  keeps_partition (pre_refresh_checks env self force_start).
Proof. unfold pre_refresh_checks. keeps. Qed.

#[local] Hint Resolve keeps__ForceRefreshStartAction__init__ keeps_record_refresh_started
  keeps_workload_container_check keeps_compatibility_check keeps_pre_refresh_checks : keeps.

Lemma keeps_run_automatic_checks env self original force_start :
  keeps_partition (run_automatic_checks env self original force_start).
Proof. unfold run_automatic_checks. keeps. Qed.

#[local] Hint Resolve keeps_run_automatic_checks : keeps.

(** [_start_refresh] never patches the partition. *)
Lemma keeps__start_refresh env self : keeps_partition (_start_refresh env self).
Proof. unfold _start_refresh. keeps. Qed.

(** [set_attributes] patches the partition only after a pod restart. *)
Lemma set_attributes_partition env units this_unit in_progress w :
  let w' := (set_attributes env units this_unit in_progress w).2 in
  let raised := raised_after_pod_restart env in_progress w in
  partition w' = (if raised then charm_unit env else partition w)
  ∧ patches w' = patches w ++ (if raised then [charm_unit env] else []).
Proof.
  cbv zeta. unfold set_attributes. cbv zeta.
  rewrite (bind_eq _ _ _ _ _ (raise_partition_after_pod_restart_run env this_unit in_progress w)).
  cbv zeta. fold (raised_after_pod_restart env in_progress w).
  match goal with
  | |- context [?rest ?w0] =>
      match type of w0 with
      | World =>
          match type of rest with
          | M _Kubernetes =>
              assert (keeps_partition rest) as Hkeeps by keeps;
              destruct (Hkeeps w0) as [-> ->]
          end
      end
  end.
  split; reflexivity.
Qed.

Lemma attributes_closed_form_self env units this_unit in_progress w selfA wA :
  attributes_closed_form env units this_unit in_progress w = Some (selfA, wA) →
  _in_progress selfA = in_progress ∧ _units selfA = units.
Proof.
  unfold attributes_closed_form, attributes_after_departing. cbv zeta.
  destruct (departing_uids env units) as [| ? [| ? ?]]; [| | intros H; discriminate H];
    (destruct (determine_pause_after _ _ _); [| intros H; discriminate H]);
    (destruct (_ || _); [| intros H; discriminate H]);
    intros H; injection H as <- _; split; reflexivity.
Qed.

(** During a refresh, what follows the guards of [__init__] leaves the
    partition at or below what the pod-restart guard left. *)
Lemma body_partition env units this_unit w :
  let w' := ((self ← set_attributes env units this_unit true;
              self ← _start_refresh env self;
              _set_partition_and_app_status env self true) w).2 in
  partition w'
  ≤ (if raised_after_pod_restart env true w then charm_unit env else partition w).
Proof.
  cbv zeta.
  destruct (set_attributes_partition env units this_unit true w) as [Hpartition _].
  cbv zeta in Hpartition. rewrite <- Hpartition. clear Hpartition.
  pose proof (set_attributes_closed_form env units this_unit true w) as HA.
  unfold mbind at 1, M_bind at 1.
  destruct (set_attributes env units this_unit true w) as [[selfA | e] wA]; cbn [snd];
    [| lia].
  assert (_in_progress selfA = true ∧ _units selfA = units) as [HprogressA HunitsA].
  { destruct (read_versions env); [| destruct HA as (? & ? & HA); discriminate HA].
    destruct (attributes_closed_form env units this_unit true w) as [[selfA' wA'] |] eqn:H;
      [| destruct HA as (? & ? & HA); discriminate HA].
    injection HA as <- <-. apply (attributes_closed_form_self _ _ _ _ _ _ _ H). }
  destruct (keeps__start_refresh env selfA wA) as [HpartitionB _].
  rewrite <- HpartitionB. clear HpartitionB.
  unfold mbind at 1, M_bind at 1.
  destruct units as [| first_unit rest].
  { rewrite (_start_refresh_no_units env selfA wA HunitsA). cbn [snd]. lia. }
  destruct (_start_refresh_run env selfA wA first_unit rest HunitsA) as (out & cs & _ & Hrun).
  rewrite HprogressA in Hrun.
  destruct (start_refresh_result env selfA first_unit _ _) as [[selfB certified] | e]
    eqn:Hresult.
  2: { destruct Hrun as (w0 & ->). cbn [snd]. lia. }
  rewrite Hrun. cbn [snd fst].
  destruct (start_refresh_result_in_progress _ _ _ _ _ _ _ Hresult) as (HprogressB & _).
  pose proof (_set_partition_and_app_status_step env selfB true
                (with_outputs (if certified then started_world env selfA wA else wA) out cs))
    as (_ & _ & _ & Hstep).
  rewrite HprogressB, HprogressA in Hstep.
  destruct Hstep as [[-> _] | [(_ & Hlt & _) | (Hfalse & _)]];
    [lia | lia | discriminate Hfalse].
Qed.

(** How far an evaluation of [__init__] gets: it raises before the stop
    event guard, or where the peer relation is missing, or it goes on to
    the statements that follow the guards. *)
Lemma __init___cases env w result :
  __init__ env w = result →
  (partition result.2 = partition w ∧ patches result.2 = patches w)
  ∨ result.2 = raised_during_stop_event env w
  ∨ ∃ this_unit,
      result
      = (self ← set_attributes env (sorted_reverse (pods env)) this_unit
                  (in_progress_of env (sorted_reverse (pods env)));
         self ← _start_refresh env self;
         _set_partition_and_app_status env self true) (raised_during_stop_event env w).
Proof.
  unfold __init__.
  destruct (match event env with
            | RelationDepartedEvent _ => _
            | _ => false
            end) eqn:Hdeparting.
  { intros <-. left. unfold_M.
    cbn [local_state with_tearing_down kubernetes_unit_tearing_down].
    destruct (negb (status_allowed env)); [destruct (is_leader env); split; reflexivity |].
    destruct (List.find _ _); [| split; reflexivity].
    cbn [local_state with_tearing_down kubernetes_unit_tearing_down].
    destruct (is_refresh_action _), (negb _); split; reflexivity. }
  rewrite when_false_bind.
  destruct (negb (status_allowed env)).
  { intros <-. left. unfold_M. destruct (is_leader env); split; reflexivity. }
  destruct (List.find _ _) as [this_unit |]; [| intros <-; left; split; reflexivity].
  unfold get_local_state at 1. unfold mbind at 1, M_bind at 1.
  destruct (kubernetes_unit_tearing_down (local_state w)) eqn:Htearing.
  { intros <-. left. unfold_M. destruct (is_refresh_action _), (negb _); split; reflexivity. }
  unfold raised_during_stop_event.
  destruct (negb (peer_relation_available env)).
  { intros <-. right. left. unfold raise_partition. unfold_M.
    destruct (_ && _); cbn [andb partition]; [| reflexivity].
    destruct (partition w <? charm_unit env); reflexivity. }
  intros <-. right. right. exists this_unit.
  destruct (is_StopEvent (event env) && in_progress_of env (sorted_reverse (pods env)));
    cbn [andb]; [| rewrite when_false_bind; reflexivity].
  unfold when at 1, raise_partition. unfold_M. cbn [partition].
  destruct (partition w <? charm_unit env); reflexivity.
Qed.

(** During a refresh, an evaluation of [__init__] leaves the partition at
    or below the larger of the partition it found and this unit's number,
    and at or below the partition it found when no guard can raise it. *)
Lemma __init___partition env w :
  in_progress_of env (sorted_reverse (pods env)) = true →
  partition (__init__ env w).2 ≤ Z.max (partition w) (charm_unit env)
  ∧ (guard_may_raise env w = false → partition (__init__ env w).2 ≤ partition w).
Proof.
  intros Hprogress.
  assert (partition (raised_during_stop_event env w)
          = (if is_StopEvent (event env) && (partition w <? charm_unit env)
             then charm_unit env else partition w)
          ∧ local_state (raised_during_stop_event env w) = local_state w) as [Hp Hl].
  { unfold raised_during_stop_event. rewrite Hprogress, andb_true_r.
    destruct (_ && _); split; reflexivity. }
  unfold guard_may_raise.
  destruct (__init___cases env w _ eq_refl) as [[-> _] | [-> | [this_unit ->]]].
  - split; [lia | intros _; lia].
  - rewrite Hp. destruct (is_StopEvent (event env)), (partition w <? charm_unit env);
      cbn [andb orb negb]; split; try lia; intros H; discriminate H.
  - rewrite Hprogress.
    pose proof (body_partition env (sorted_reverse (pods env)) this_unit
                  (raised_during_stop_event env w)) as Hbody.
    cbv zeta in Hbody. unfold raised_after_pod_restart in Hbody. rewrite Hp, Hl in Hbody.
    destruct (is_StopEvent (event env)),
      (kubernetes_had_opportunity_to_raise_partition_after_pod_restart (local_state w)),
      (partition w <? charm_unit env) eqn:Hlt; cbn [andb orb negb] in *;
      rewrite ?Z.ltb_irrefl, ?Hlt in Hbody; cbn [andb orb negb] in *;
      (split; [lia | first [intros H; discriminate H | intros _; lia]]).
Qed.

Lemma evaluations_sorted steps p0 :
  Forall (λ step : Env * World,
            in_progress_of step.1 (sorted_reverse (pods step.1)) = true) steps →
  no_guard_raises steps p0 = true →
  StronglySorted (λ a b, b ≤ a) (p0 :: evaluations steps p0).
Proof.
  intros Hsteps. revert p0.
  assert (∀ p0, no_guard_raises steps p0 = true →
                Forall (λ q, q ≤ p0) (evaluations steps p0)
                ∧ StronglySorted (λ a b, b ≤ a) (evaluations steps p0)) as H.
  { induction Hsteps as [| [env w] steps Hstep Hsteps IH]; intros p0 Hguards; simpl;
      [split; constructor |].
    simpl in Hguards. apply andb_true_iff in Hguards as [Hguard Hguards].
    apply negb_true_iff in Hguard.
    destruct (__init___partition env (with_partition w p0) Hstep) as [_ Hle].
    specialize (Hle Hguard). cbn [with_partition partition] in Hle.
    destruct (IH _ Hguards) as [Hbound Hsorted].
    split.
    - constructor; [exact Hle |]. eapply Forall_impl; [exact Hbound |]. simpl. intros q Hq. lia.
    - constructor; assumption. }
  intros p0 Hguards. destruct (H p0 Hguards). constructor; assumption.
Qed.

(** C1 (as amended).  During a refresh, [_set_partition_and_app_status]
    writes the partition only to lower it: in any sequence of its runs,
    each starting from the partition the previous run left, the partition
    never increases, and each run either leaves the partition alone and
    patches nothing, or issues one patch whose value is strictly lower than
    the partition it found.  A whole evaluation of [__init__] during a
    refresh leaves the partition at or below the larger of the partition it
    found and this unit's number; in any sequence of evaluations in which
    neither the stop event guard nor the pod restart guard can raise the
    partition, each starting from the partition the previous one left, the
    partition never increases. *)
Theorem partition_only_lowered steps p0 evaluation_steps p1 :
  Forall (λ step : Env * _Kubernetes * World, _in_progress step.1.2 = true) steps →
  Forall (λ step : Env * World,
            in_progress_of step.1 (sorted_reverse (pods step.1)) = true) evaluation_steps →
  no_guard_raises evaluation_steps p1 = true →
  StronglySorted (λ a b, b ≤ a) (p0 :: recomputations steps p0)
  ∧ Forall
      (λ step : Env * _Kubernetes * World,
         ∀ handle_action,
           let w := step.2 in
           let w' := (_set_partition_and_app_status step.1.1 step.1.2 handle_action w).2 in
           (partition w' = partition w ∧ patches w' = patches w)
           ∨ (partition w' < partition w ∧ patches w' = patches w ++ [partition w']))
      steps
  ∧ StronglySorted (λ a b, b ≤ a) (p1 :: evaluations evaluation_steps p1)
  ∧ Forall
      (λ step : Env * World,
         partition (__init__ step.1 step.2).2
         ≤ Z.max (partition step.2) (charm_unit step.1))
      evaluation_steps.
Proof.
  intros Hsteps Hevaluations Hguards. split; [| split; [| split]].
  - constructor; [| apply recomputations_bound; exact Hsteps].
    revert p0. induction Hsteps as [| [[env self] w] steps Hstep Hsteps IH]; intros p0; simpl;
      [constructor |].
    constructor; [apply IH | apply recomputations_bound; exact Hsteps].
  - eapply Forall_impl; [exact Hsteps |].
    intros [[env self] w] Hstep handle_action. simpl in *.
    pose proof (_set_partition_and_app_status_step env self handle_action w)
      as (_ & _ & _ & Hpartition).
    rewrite Hstep in Hpartition.
    destruct Hpartition as [H | [(_ & Hlt & Hpatches) | (Hfalse & _)]];
      [left; exact H | right; split; assumption | discriminate Hfalse].
  - apply evaluations_sorted; assumption.
  - eapply Forall_impl; [exact Hevaluations |].
    intros [env w] Hstep. apply __init___partition, Hstep.
Qed.

Lemma partition_only_lowered_witness :
  StronglySorted (λ a b, b ≤ a) (3 :: recomputations example_steps 3)
  ∧ Forall
      (λ step : Env * _Kubernetes * World,
         ∀ handle_action,
           let w := step.2 in
           let w' := (_set_partition_and_app_status step.1.1 step.1.2 handle_action w).2 in
           (partition w' = partition w ∧ patches w' = patches w)
           ∨ (partition w' < partition w ∧ patches w' = patches w ++ [partition w']))
      example_steps
  ∧ StronglySorted (λ a b, b ≤ a) (3 :: evaluations example_evaluations 3)
  ∧ Forall
      (λ step : Env * World,
         partition (__init__ step.1 step.2).2
         ≤ Z.max (partition step.2) (charm_unit step.1))
      example_evaluations.
Proof.
  apply (partition_only_lowered example_steps 3 example_evaluations 3).
  - repeat constructor.
  - repeat constructor.
  - vm_compute. reflexivity.
Defined.

(** The partitions of the example evaluations: lowered to 2, then to 1 by
    the resume-refresh action. *)
Lemma example_evaluations_partitions : evaluations example_evaluations 3 = [2; 1].
Proof. vm_compute. reflexivity. Qed.

(** C1 (counterexample).  A stop event on the leader, unit 2 of the example
    deployment, during the refresh to "v2", with the partition at 1 and the
    pause policy "all": the evaluation returns, and the stop event guard
    has raised the partition to 2 with one patch. *)
Lemma leader_recomputation_raises_partition :
  let env := Deployment.env StopEvent 2 true "all" in
  let w := Deployment.world 1 relation_unit2_allowed in
  let result := __init__ env w in
  is_leader env = true
  ∧ in_progress_of env (sorted_reverse (pods env)) = true
  ∧ (∃ self, result.1 = Returned self)
  ∧ partition w = 1
  ∧ partition result.2 = 2
  ∧ patches result.2 = [2]
  ∧ ¬ StronglySorted (λ a b, b ≤ a) (1 :: evaluations [(env, w)] 1).
Proof.
  cbv zeta. split; [reflexivity |]. split; [reflexivity |].
  split; [eexists; vm_compute; reflexivity |].
  split; [reflexivity |]. split; [vm_compute; reflexivity |].
  split; [vm_compute; reflexivity |].
  intros H. apply StronglySorted_inv in H as [_ H]. apply Forall_inv in H.
  vm_compute in H. apply H. reflexivity.
Qed.

(** * Further properties of the library *)

(** X1.  A snapshot that the constructor accepts, with a charm version that
    [CharmVersion] accepts, is read back from the app databag it was
    written to, whatever the databag held before; the write leaves the
    databag's other key as it is. *)
Theorem OriginalVersions_write_then_read valid self databag :
  OriginalVersions.__post_init__ self = None →
  valid (OriginalVersions.charm self) = true →
  OriginalVersions.from_app_databag valid
    (OriginalVersions.write_to_app_databag self databag) = Returned self
  ∧ app_refresh_started_if_app_controller_revision_hash_in
      (OriginalVersions.write_to_app_databag self databag)
    = app_refresh_started_if_app_controller_revision_hash_in databag.
Proof.
  intros Hinit Hvalid. split; [| reflexivity].
  unfold OriginalVersions.from_app_databag, OriginalVersions.write_to_app_databag.
  cbn [original_workload_version original_workload_container_version
       original_installed_workload_container_matched_pinned_container
       original_charm_version original_charm_revision].
  rewrite Hvalid. unfold OriginalVersions.new.
  destruct self as [workload container matched charm revision].
  cbn [OriginalVersions.workload OriginalVersions.workload_container
       OriginalVersions.installed_workload_container_matched_pinned_container
       OriginalVersions.charm OriginalVersions.charm_revision_raw].
  rewrite Hinit. reflexivity.
Qed.

Lemma OriginalVersions_write_then_read_witness :
  let self := example_original_versions in
  OriginalVersions.__post_init__ self = None
  ∧ (λ _ : string, true) (OriginalVersions.charm self) = true
  ∧ OriginalVersions.from_app_databag (λ _, true)
      (OriginalVersions.write_to_app_databag self Deployment.app_databag) = Returned self
  ∧ app_refresh_started_if_app_controller_revision_hash_in
      (OriginalVersions.write_to_app_databag self Deployment.app_databag)
    = app_refresh_started_if_app_controller_revision_hash_in Deployment.app_databag.
Proof.
  cbv zeta. split; [reflexivity |]. split; [reflexivity |].
  apply (OriginalVersions_write_then_read (λ _, true) example_original_versions
           Deployment.app_databag); reflexivity.
Defined.

(** X2.  Writing back the snapshot that was read from an app databag
    changes nothing in the databag. *)
Theorem OriginalVersions_read_then_write valid databag self :
  OriginalVersions.from_app_databag valid databag = Returned self →
  OriginalVersions.write_to_app_databag self databag = databag.
Proof.
  unfold OriginalVersions.from_app_databag, OriginalVersions.write_to_app_databag.
  destruct databag as [hashes [workload |] [container |] [matched |] [charm |] [revision |]];
    cbn; try (intros H; discriminate H).
  destruct (valid charm); [| intros H; discriminate H].
  unfold OriginalVersions.new.
  destruct (OriginalVersions.__post_init__ _); intros H; [discriminate H |].
  injection H as <-. reflexivity.
Qed.

Lemma OriginalVersions_read_then_write_witness :
  OriginalVersions.from_app_databag (λ _, true) Deployment.app_databag
  = Returned example_original_versions
  ∧ OriginalVersions.write_to_app_databag example_original_versions Deployment.app_databag
    = Deployment.app_databag.
Proof.
  split; [reflexivity |].
  apply (OriginalVersions_read_then_write (λ _, true) Deployment.app_databag
           example_original_versions).
  reflexivity.
Defined.

(** X3.  [workload_allowed_to_start] changes nothing.  It raises only
    [ValueError], and exactly when a refresh is in progress, neither a unit
    databag nor the app databag lists this unit's controller revision as
    started, and the version snapshot of the app databag cannot be read.
    When no refresh is in progress it returns [True]. *)
Theorem workload_allowed_to_start_raises env self w :
  let result := workload_allowed_to_start env self w in
  let listed :=
    existsb
      (λ unit, in_hashes (_unit_controller_revision self)
                 (refresh_started_if_app_controller_revision_hash_in
                    (relation_get (relation w) (number unit))))
      (_units self)
    || in_hashes (_unit_controller_revision self)
         (app_refresh_started_if_app_controller_revision_hash_in (my_app (relation w))) in
  result.2 = w
  ∧ (∀ e, result.1 = Raised e → e = ValueError)
  ∧ (result.1 = Raised ValueError
     ↔ _in_progress self = true
       ∧ listed = false
       ∧ ∃ e, OriginalVersions.from_app_databag (CharmVersion_valid env) (my_app (relation w))
              = Raised e)
  ∧ (_in_progress self = false → result.1 = Returned true)
  ∧ (listed = true → result.1 = Returned true).
Proof.
  cbv zeta. unfold workload_allowed_to_start.
  destruct (_in_progress self); cbn [negb].
  2: { unfold_M. cbn. repeat split; try discriminate; try reflexivity.
       intros (H & _). discriminate H. }
  rewrite get_world_bind.
  destruct (existsb _ _); cbn [orb].
  { unfold_M. cbn. repeat split; try discriminate; try reflexivity.
    intros (_ & H & _). discriminate H. }
  destruct (in_hashes _ (app_refresh_started_if_app_controller_revision_hash_in _)).
  { unfold_M. cbn. repeat split; try discriminate; try reflexivity.
    intros (_ & H & _). discriminate H. }
  rewrite lift_bind.
  pose proof (from_app_databag_spec (CharmVersion_valid env) (my_app (relation w))) as Hspec.
  destruct (OriginalVersions.from_app_databag _ _) as [original | e].
  - destruct (_ && _); unfold_M; cbn; repeat split; try discriminate; try reflexivity;
      intros (_ & _ & e & H); discriminate H.
  - subst e. cbn. repeat split; try discriminate; try reflexivity.
    + intros e H. injection H as <-. reflexivity.
    + eauto.
Qed.

(** X4.  On the first unit to refresh, once it runs the app's controller
    revision during a refresh: after [_start_refresh] has returned,
    [workload_allowed_to_start] returns [self._refresh_started].  The
    workload may start exactly when the refresh has started: the checks
    passed or were skipped, the unit is rolling back, or the databags
    already recorded the start. *)
Theorem workload_allowed_to_start_after_start_refresh env self w self' w' first_unit rest :
  _in_progress self = true →
  _units self = first_unit :: rest →
  charm_unit env = number first_unit →
  _unit_controller_revision self = _app_controller_revision self →
  _start_refresh env self w = (Returned self', w') →
  workload_allowed_to_start env self' w' = (Returned (_refresh_started self'), w').
Proof.
  intros Hprogress Hunits Hfirst Hrevision H.
  destruct (_start_refresh_run env self w first_unit rest Hunits) as (out & cs & _ & Hrun).
  rewrite Hprogress in Hrun.
  destruct (start_refresh_result env self first_unit _ _) as [[selfB certified] | e] eqn:Hresult.
  2: { destruct Hrun as (w0 & Hrun). rewrite Hrun in H. discriminate H. }
  rewrite Hrun in H. injection H as <- <-. clear Hrun.
  rewrite workload_allowed_to_start_reads. f_equal.
  unfold start_refresh_result in Hresult.
  rewrite (bool_decide_eq_true_2 _ Hfirst), (bool_decide_eq_true_2 _ Hrevision) in Hresult.
  cbn [andb negb] in Hresult.
  destruct (negb (bool_decide _)); [discriminate Hresult |].
  destruct (OriginalVersions.from_app_databag _ _) as [original |] eqn:Horiginal;
    [| discriminate Hresult].
  unfold workload_allowed_to_start_value, workload_allowed_to_start.
  destruct (refresh_started_in_databags self (relation w)) eqn:Hstarted.
  { injection Hresult as <- <-.
    cbn [_in_progress with__refresh_started with__unit_status_higher_priority negb
         _refresh_started _units _unit_controller_revision].
    rewrite Hprogress. cbn [negb]. rewrite get_world_bind. cbn [relation with_outputs].
    unfold refresh_started_in_databags in Hstarted. rewrite <- Hrevision in Hstarted.
    apply orb_true_iff in Hstarted. destruct Hstarted as [-> | Hstarted]; [reflexivity |].
    destruct (existsb _ _); [reflexivity |]. rewrite Hstarted. reflexivity. }
  destruct (is_rollback self original || _) eqn:Hpass.
  { injection Hresult as <- <-.
    cbn [_in_progress with__refresh_started with__unit_status_higher_priority negb
         _refresh_started _units _unit_controller_revision].
    rewrite Hprogress. cbn [negb]. rewrite get_world_bind.
    cbn [relation with_outputs started_world world_of].
    rewrite Hunits. cbn [existsb]. rewrite <- Hfirst, relation_get_put_eq.
    unfold in_hashes at 1.
    cbn [refresh_started_if_app_controller_revision_hash_in with_refresh_started default
         from_option].
    rewrite bool_decide_eq_true_2 by apply append_if_missing_elem. reflexivity. }
  injection Hresult as <- <-.
  cbn [_in_progress with__refresh_started with__unit_status_higher_priority negb
       _refresh_started _units _unit_controller_revision _installed_charm_version
       _installed_workload_container_version].
  rewrite Hprogress. cbn [negb]. rewrite get_world_bind. cbn [relation with_outputs].
  unfold refresh_started_in_databags in Hstarted. rewrite <- Hrevision in Hstarted.
  apply orb_false_iff in Hstarted. destruct Hstarted as [-> ->].
  rewrite lift_bind, Horiginal.
  apply orb_false_iff in Hpass. destruct Hpass as [Hrollback _].
  unfold is_rollback in Hrollback. rewrite Hrollback. reflexivity.
Qed.

Lemma workload_allowed_to_start_after_start_refresh_witness :
  let env := Deployment.env OtherEvent 2 false "all" in
  let result :=
    _start_refresh env refreshed_self (Deployment.world 2 Deployment.empty_relation) in
  ∃ self',
    result = (Returned self', result.2)
    ∧ workload_allowed_to_start env self' result.2 = (Returned true, result.2).
Proof.
  cbv zeta. eexists. split; [vm_compute; reflexivity |].
  exact (workload_allowed_to_start_after_start_refresh
           (Deployment.env OtherEvent 2 false "all") refreshed_self
           (Deployment.world 2 Deployment.empty_relation) _ _
           Deployment.unit2 [Deployment.unit1; Deployment.unit0]
           eq_refl eq_refl eq_refl eq_refl ltac:(vm_compute; reflexivity)).
Defined.

(** X5.  On a unit that is not the leader, [_set_partition_and_app_status]
    never patches the partition and never sets the app status; it returns
    with no higher-priority app status, and all it can tell the event is
    that the resume-refresh action must run on the leader. *)
Theorem non_leader_never_patches env self handle_action w :
  is_leader env = false →
  _set_partition_and_app_status env self handle_action w
  = (Returned (with__app_status_higher_priority self None),
     with_outputs w
       (if handle_action && bool_decide (is_Some (resume_refresh_action env))
        then [Fail Must_run_action_on_leader_unit] else [])
       []).
Proof.
  intros Hleader. unfold _set_partition_and_app_status. rewrite Hleader. cbn [negb].
  destruct (handle_action && _); unfold_M.
  - unfold with_outputs. cbn. rewrite app_nil_r. reflexivity.
  - rewrite with_outputs_nil. reflexivity.
Qed.

Lemma non_leader_never_patches_witness :
  let env := Deployment.env (ActionEvent (resume_refresh true)) 1 false "first" in
  is_leader env = false
  ∧ _set_partition_and_app_status env (leader_self PauseAfter.FIRST) true
      (Deployment.world 3 relation_unit2_allowed)
    = (Returned (with__app_status_higher_priority (leader_self PauseAfter.FIRST) None),
       with_outputs (Deployment.world 3 relation_unit2_allowed)
         (if true && bool_decide (is_Some (resume_refresh_action env))
          then [Fail Must_run_action_on_leader_unit] else [])
         []).
Proof.
  cbv zeta. split; [reflexivity |].
  apply (non_leader_never_patches
           (Deployment.env (ActionEvent (resume_refresh true)) 1 false "first")).
  reflexivity.
Defined.

(** X6.  On the leader, when no refresh is in progress,
    [_set_partition_and_app_status] leaves the partition at 0: it patches it
    to 0 unless it is 0 already.  The app status is set, to the blocked
    status that asks for a valid [pause_after_unit_refresh], only when the
    pause policy is unknown; a resume-refresh action fails with "No refresh
    in progress". *)
Theorem partition_is_zero_when_no_refresh_in_progress env self handle_action w :
  is_leader env = true →
  _in_progress self = false →
  let status :=
    if bool_decide (_pause_after self = PauseAfter.UNKNOWN)
    then Some (BlockedStatus Pause_after_unit_refresh_config_must_be_set)
    else None in
  let result := _set_partition_and_app_status env self handle_action w in
  result.1 = Returned (with__app_status_higher_priority self status)
  ∧ partition result.2 = 0
  ∧ patches result.2 = patches w ++ (if bool_decide (partition w = 0) then [] else [0])
  ∧ app_status result.2 = match status with Some s => Some s | None => app_status w end
  ∧ action_output result.2
    = action_output w
      ++ (if handle_action && bool_decide (is_Some (resume_refresh_action env))
          then [Fail No_refresh_in_progress] else [])
  ∧ relation result.2 = relation w
  ∧ local_state result.2 = local_state w.
Proof.
  intros Hleader Hprogress. unfold _set_partition_and_app_status.
  rewrite Hleader. cbn [negb andb]. cbv zeta.
  cbn [_pause_after with__app_status_higher_priority].
  destruct (bool_decide (_pause_after self = PauseAfter.UNKNOWN));
    cbn [_in_progress with__app_status_higher_priority]; rewrite Hprogress; cbn [negb];
    unfold_M; cbn [partition];
    destruct (bool_decide (partition w = 0)) eqn:Hzero;
    destruct (handle_action && bool_decide (is_Some _)); simpl; rewrite ?app_nil_r;
    try (apply bool_decide_eq_true in Hzero);
    repeat split; first [reflexivity | assumption].
Qed.

Lemma partition_is_zero_when_no_refresh_in_progress_witness :
  let env := Deployment.env OtherEvent 2 true "first" in
  let self := {| _in_progress := false;
                 _app_controller_revision := "v2";
                 _units := units_on_v2;
                 _unit_controller_revision := "v2";
                 _units_not_tearing_down := units_on_v2;
                 _installed_charm_version := "14/1.1.0";
                 _pinned_workload_version := "14.12";
                 _pinned_workload_container_version := "sha256:new";
                 _installed_workload_container_version := Some "sha256:new";
                 _pause_after := PauseAfter.FIRST;
                 _refresh_started := false;
                 _unit_status_higher_priority := None;
                 _app_status_higher_priority := None |} in
  let result :=
    _set_partition_and_app_status env self true (Deployment.world 1 relation_unit2_allowed) in
  is_leader env = true
  ∧ _in_progress self = false
  ∧ partition result.2 = 0
  ∧ patches result.2 = [] ++ [0].
Proof.
  cbv zeta. split; [reflexivity |]. split; [reflexivity |].
  match goal with
  | |- partition (_set_partition_and_app_status ?env ?self true ?w).2 = 0 ∧ _ =>
      destruct (partition_is_zero_when_no_refresh_in_progress env self true w
                  eq_refl eq_refl) as (_ & H1 & H2 & _)
  end.
  split; [exact H1 | exact H2].
Defined.

(** The end of [_set_partition_and_app_status] during a refresh, once the
    target partition is known: the partition is lowered to the target when
    the target is lower, with one patch. *)
Lemma policy_lowers_to_target env self handle_action w index next_unit action out0 allow out1
    previous_unit :
  is_leader env = true →
  _in_progress self = true →
  next_unit_to_refresh_loop (_app_controller_revision self)
    (_units_not_tearing_down self) 0 None = Some (index, next_unit) →
  _units_not_tearing_down self !! Nat.pred index = Some previous_unit →
  (∀ self0 : _Kubernetes,
     _pause_after self0 = _pause_after self →
     ((if handle_action && bool_decide (resume_refresh_action env = Some true)
          && bool_decide (_pause_after self0 = PauseAfter.NONE)
       then event_fail Pause_after_unit_refresh_is_none_action_not_applicable;; mret None
       else mret (resume_refresh_action env)) : M (option bool)) w
     = (Returned action, with_outputs w out0 [])) →
  (∀ self0 : _Kubernetes,
     _pause_after self0 = _pause_after self →
     _refresh_started self0 = _refresh_started self →
     _units self0 = _units self →
     _app_controller_revision self0 = _app_controller_revision self →
     _units_not_tearing_down self0 = _units_not_tearing_down self →
     determine_allow_next_unit_to_refresh env self0 handle_action action next_unit index
       (with_outputs w out0 [])
     = (Returned allow, with_outputs w (out0 ++ out1) [])) →
  let target_partition := number (if allow then next_unit else previous_unit) in
  let w' := (_set_partition_and_app_status env self handle_action w).2 in
  partition w' = Z.min (partition w) target_partition
  ∧ patches w'
    = patches w ++ (if target_partition <? partition w then [target_partition] else [])
  ∧ action_output w' = action_output w ++ out0 ++ out1.
Proof.
  intros Hleader Hprogress Hnext Hprevious Haction Hallow target_partition.
  unfold _set_partition_and_app_status. rewrite Hleader. cbn [negb]. cbv zeta.
  match goal with
  | |- context [if bool_decide (?p = PauseAfter.UNKNOWN) then ?a else ?b] =>
      set (self0 := if bool_decide (p = PauseAfter.UNKNOWN) then a else b)
  end.
  assert (_in_progress self0 = true ∧ _refresh_started self0 = _refresh_started self
          ∧ _pause_after self0 = _pause_after self
          ∧ _units self0 = _units self
          ∧ _app_controller_revision self0 = _app_controller_revision self
          ∧ _units_not_tearing_down self0 = _units_not_tearing_down self)
    as (Hip & Hrs & Hpa & Hus & Hrev & Hntd).
  { subst self0. destruct (bool_decide (_pause_after _ = PauseAfter.UNKNOWN)); simpl;
      repeat split; first [assumption | reflexivity]. }
  rewrite Hip, Hrev, Hntd, Hnext. cbn [negb].
  rewrite (bind_eq _ _ _ _ _ (Haction self0 Hpa)).
  rewrite (bind_eq _ _ _ _ _ (Hallow self0 Hpa Hrs Hus Hrev Hntd)).
  replace (Z.to_nat (Z.max (Z.of_nat index - 1) 0)) with (Nat.pred index) by lia.
  rewrite Hprevious.
  assert ((if allow then mret (number next_unit) else mret (number previous_unit))
          = (mret target_partition : M Z)) as ->.
  { subst target_partition. destruct allow; reflexivity. }
  unfold_M. cbn [partition with_outputs].
  destruct (target_partition <? partition w) eqn:Hlt; simpl.
  - apply Z.ltb_lt in Hlt.
    destruct_last_head; simpl; rewrite ?app_nil_r;
      (split; [lia |]); split; reflexivity.
  - apply Z.ltb_ge in Hlt.
    destruct_last_head; simpl; rewrite ?app_nil_r;
      (split; [lia |]); split; reflexivity.
Qed.

(** X7.  On the leader during a refresh, the resume-refresh action with
    [check-health-of-refreshed-units=false] lets the next unit refresh
    whatever the refreshed units say about their health, whatever the pause
    policy, and even if the refresh has not started: the partition is
    lowered to the number of the next unit to refresh when it is higher,
    and the action is told that the health is ignored. *)
Theorem resume_refresh_without_health_check env self w index next_unit previous_unit :
  is_leader env = true →
  _in_progress self = true →
  resume_refresh_action env = Some false →
  next_unit_to_refresh_loop (_app_controller_revision self)
    (_units_not_tearing_down self) 0 None = Some (index, next_unit) →
  _units_not_tearing_down self !! Nat.pred index = Some previous_unit →
  let w' := (_set_partition_and_app_status env self true w).2 in
  partition w' = Z.min (partition w) (number next_unit)
  ∧ patches w'
    = patches w ++ (if number next_unit <? partition w then [number next_unit] else [])
  ∧ action_output w'
    = action_output w
      ++ [Log Ignoring_health_of_refreshed_units;
          Result (Attempting_to_refresh_unit (number next_unit))].
Proof.
  intros Hleader Hprogress Haction Hnext Hprevious.
  apply (policy_lowers_to_target env self true w index next_unit (Some false) [] true
           [Log Ignoring_health_of_refreshed_units;
            Result (Attempting_to_refresh_unit (number next_unit))]
           previous_unit Hleader Hprogress Hnext Hprevious).
  - intros self0 _. rewrite Haction. cbn. rewrite with_outputs_nil. reflexivity.
  - intros self0 _ _ _ _ _. unfold determine_allow_next_unit_to_refresh.
    rewrite bool_decide_eq_true_2 by reflexivity. unfold_M. solve_outputs.
Qed.

Lemma resume_refresh_without_health_check_witness :
  let env := Deployment.env (ActionEvent (resume_refresh false)) 2 true "all" in
  let self := with__refresh_started (leader_self PauseAfter.ALL) false in
  let w' :=
    (_set_partition_and_app_status env self true
       (Deployment.world 3 Deployment.empty_relation)).2 in
  partition w' = Z.min 3 1
  ∧ patches w' = [] ++ [1]
  ∧ action_output w'
    = [] ++ [Log Ignoring_health_of_refreshed_units; Result (Attempting_to_refresh_unit 1)].
Proof.
  cbv zeta.
  apply (resume_refresh_without_health_check
           (Deployment.env (ActionEvent (resume_refresh false)) 2 true "all")
           (with__refresh_started (leader_self PauseAfter.ALL) false)
           (Deployment.world 3 Deployment.empty_relation)
           1%nat Deployment.unit1 Deployment.unit2); reflexivity.
Defined.

(** X8.  On the leader during a refresh, without the resume-refresh action
    with [check-health-of-refreshed-units=false]: if the refresh has not
    started, or a unit before the next unit to refresh (among the units not
    tearing down) has not allowed the next unit to refresh, the next unit is
    not released.  The target partition is the number of the unit before
    the next unit to refresh, whatever the pause policy and whether or not
    the resume-refresh action runs. *)
Theorem next_unit_waits_for_health env self handle_action w index next_unit previous_unit :
  is_leader env = true →
  _in_progress self = true →
  resume_refresh_action env ≠ Some false →
  next_unit_to_refresh_loop (_app_controller_revision self)
    (_units_not_tearing_down self) 0 None = Some (index, next_unit) →
  _units_not_tearing_down self !! Nat.pred index = Some previous_unit →
  _units self ≠ [] →
  _refresh_started self = false
  ∨ is_Some (first_unit_that_has_not_allowed (relation w) (_app_controller_revision self)
               (take index (_units_not_tearing_down self))) →
  let w' := (_set_partition_and_app_status env self handle_action w).2 in
  partition w' = Z.min (partition w) (number previous_unit)
  ∧ patches w'
    = patches w
      ++ (if number previous_unit <? partition w then [number previous_unit] else []).
Proof.
  intros Hleader Hprogress Haction Hnext Hprevious Hunits Hwait.
  assert (∃ action out0,
            action ≠ Some false
            ∧ ∀ self0 : _Kubernetes,
                _pause_after self0 = _pause_after self →
                ((if handle_action && bool_decide (resume_refresh_action env = Some true)
                     && bool_decide (_pause_after self0 = PauseAfter.NONE)
                  then event_fail Pause_after_unit_refresh_is_none_action_not_applicable;;
                       mret None
                  else mret (resume_refresh_action env)) : M (option bool)) w
                = (Returned action, with_outputs w out0 []))
    as (action & out0 & Hne & Hstep).
  { destruct (handle_action && bool_decide (resume_refresh_action env = Some true)
              && bool_decide (_pause_after self = PauseAfter.NONE)) eqn:Hcond.
    - exists None, [Fail Pause_after_unit_refresh_is_none_action_not_applicable].
      split; [discriminate |]. intros self0 ->. rewrite Hcond. unfold_M. solve_outputs.
    - exists (resume_refresh_action env), []. split; [exact Haction |].
      intros self0 ->. rewrite Hcond. unfold_M. rewrite with_outputs_nil. reflexivity. }
  assert (∃ out1,
            ∀ self0 : _Kubernetes,
              _pause_after self0 = _pause_after self →
              _refresh_started self0 = _refresh_started self →
              _units self0 = _units self →
              _app_controller_revision self0 = _app_controller_revision self →
              _units_not_tearing_down self0 = _units_not_tearing_down self →
              determine_allow_next_unit_to_refresh env self0 handle_action action next_unit
                index (with_outputs w out0 [])
              = (Returned false, with_outputs w (out0 ++ out1) []))
    as (out1 & Hallow).
  { unfold determine_allow_next_unit_to_refresh.
    rewrite bool_decide_eq_false_2 by exact Hne.
    destruct (_refresh_started self) eqn:Hstarted.
    - destruct Hwait as [Hwait | [unit Hunit]]; [discriminate Hwait |].
      destruct (handle_action && bool_decide (is_Some action)) eqn:Hfail.
      + eexists [_]. intros self0 _ -> _ -> ->. cbn [negb]. rewrite get_world_bind.
        cbn [relation with_outputs]. rewrite Hunit. unfold_M. solve_outputs.
      + exists []. intros self0 _ -> _ -> ->. cbn [negb]. rewrite get_world_bind.
        cbn [relation with_outputs]. rewrite Hunit. unfold_M.
        rewrite app_nil_r. reflexivity.
    - destruct (_units self) as [| first_unit rest] eqn:Hfirst; [contradiction |].
      destruct (handle_action && bool_decide (is_Some action)) eqn:Hfail.
      + eexists [_]. intros self0 _ -> -> _ _. cbn [negb]. unfold_M. solve_outputs.
      + exists []. intros self0 _ -> -> _ _. cbn [negb]. unfold_M.
        rewrite app_nil_r. reflexivity. }
  destruct (policy_lowers_to_target env self handle_action w index next_unit action out0 false
              out1 previous_unit Hleader Hprogress Hnext Hprevious Hstep Hallow)
    as (H1 & H2 & _).
  split; [exact H1 | exact H2].
Qed.

Lemma next_unit_waits_for_health_witness :
  let env := Deployment.env (ActionEvent (resume_refresh true)) 2 true "none" in
  let self := leader_self PauseAfter.NONE in
  let w' :=
    (_set_partition_and_app_status env self true
       (Deployment.world 3 relation_unit2_started)).2 in
  partition w' = Z.min 3 2 ∧ patches w' = [] ++ [2].
Proof.
  cbv zeta.
  apply (next_unit_waits_for_health
           (Deployment.env (ActionEvent (resume_refresh true)) 2 true "none")
           (leader_self PauseAfter.NONE) true
           (Deployment.world 3 relation_unit2_started)
           1%nat Deployment.unit1 Deployment.unit2);
    try reflexivity; try discriminate.
  right. exists Deployment.unit2. reflexivity.
Defined.

Lemma str_split_nonempty sep s : str_split sep s ≠ [].
Proof.
  destruct s as [| c s]; simpl; [discriminate |].
  destruct (bool_decide (c = sep)); [discriminate |].
  destruct (str_split sep s); discriminate.
Qed.

Lemma str_split_no_sep sep s : str_contains sep s = false → str_split sep s = [s].
Proof.
  induction s as [| c s IH]; simpl; [reflexivity |].
  intros H. apply orb_false_iff in H as [Hc Hs]. rewrite Hc, (IH Hs). reflexivity.
Qed.

Lemma str_split_app sep a b :
  str_split sep (a +:+ String sep b) = str_split sep a ++ str_split sep b.
Proof.
  induction a as [| c a IH]; simpl.
  - rewrite bool_decide_eq_true_2 by reflexivity. reflexivity.
  - rewrite IH. destruct (bool_decide (c = sep)); [reflexivity |].
    pose proof (str_split_nonempty sep a) as Hne.
    destruct (str_split sep a); [contradiction | reflexivity].
Qed.

Lemma str_join_cons sep part part' parts :
  str_join sep (part :: part' :: parts) = part +:+ sep +:+ str_join sep (part' :: parts).
Proof. reflexivity. Qed.

Lemma str_join_split sep s : str_join (String sep "") (str_split sep s) = s.
Proof.
  induction s as [| c s IH]; cbn [str_split]; [reflexivity |].
  pose proof (str_split_nonempty sep s) as Hne.
  destruct (bool_decide (c = sep)) eqn:Hc.
  - apply bool_decide_eq_true in Hc. subst c.
    destruct (str_split sep s) as [| part parts]; [contradiction |].
    rewrite str_join_cons, IH. reflexivity.
  - destruct (str_split sep s) as [| part [| part' parts]]; [contradiction | |].
    + rewrite <- IH. reflexivity.
    + rewrite <- IH. reflexivity.
Qed.

Lemma str_split_parts sep s :
  Forall (λ part, str_contains sep part = false) (str_split sep s).
Proof.
  induction s as [| c s IH]; simpl; [repeat constructor |].
  destruct (bool_decide (c = sep)) eqn:Hc; [constructor; [reflexivity | exact IH] |].
  destruct (str_split sep s) as [| part parts]; [repeat constructor; simpl; rewrite Hc;
                                                 reflexivity |].
  inversion IH as [| ? ? Hpart Hparts]; subst.
  constructor; [simpl; rewrite Hc, Hpart; reflexivity | exact Hparts].
Qed.

Lemma str_split_last sep a b :
  str_contains sep b = false →
  last (str_split sep (a +:+ String sep b)) = Some b
  ∧ removelast (str_split sep (a +:+ String sep b)) = str_split sep a.
Proof.
  intros H. rewrite str_split_app, (str_split_no_sep sep b H).
  split; [apply last_snoc | apply removelast_last].
Qed.

(** X9.  [charmhub_revision] never raises.  It is [None] exactly when the
    raw revision does not start with "ch:"; for a Charmhub revision it is
    what follows the last "-" (for "ch:amd64/jammy/postgresql-k8s-381",
    "381"), contains no "-", and is the whole raw revision, "ch:" included,
    when that contains no "-". *)
Theorem charmhub_revision_spec self :
  (String.prefix "ch:" self = false → charmhub_revision self = Returned None)
  ∧ (String.prefix "ch:" self = true →
     ∃ revision,
       charmhub_revision self = Returned (Some revision)
       ∧ str_contains "-"%char revision = false
       ∧ (str_contains "-"%char self = false → revision = self)
       ∧ ∀ name revision',
           self = name +:+ "-" +:+ revision' →
           str_contains "-"%char revision' = false →
           revision = revision').
Proof.
  unfold charmhub_revision. split; intros Hprefix; rewrite Hprefix; [reflexivity |].
  pose proof (str_split_nonempty "-"%char self) as Hne.
  pose proof (str_split_parts "-"%char self) as Hparts.
  destruct (last (str_split "-"%char self)) as [revision |] eqn:Hlast.
  2: { apply last_None in Hlast. contradiction. }
  exists revision. split; [reflexivity |]. split.
  { apply last_Some in Hlast as [parts Hlast]. rewrite Hlast in Hparts.
    apply Forall_app in Hparts as [_ Hparts]. inversion Hparts; assumption. }
  split.
  { intros H. rewrite (str_split_no_sep _ _ H) in Hlast. injection Hlast as <-.
    reflexivity. }
  intros name revision' -> Hrevision.
  destruct (str_split_last "-"%char name revision' Hrevision) as [Hlast' _].
  change (name +:+ "-" +:+ revision') with (name +:+ String "-"%char revision') in Hlast.
  rewrite Hlast' in Hlast. injection Hlast as <-. reflexivity.
Qed.

(** X10.  [from_pod] never raises [ValueError]: it raises [KeyError]
    exactly when the pod has no "controller-revision-hash" label.  The unit
    name is the pod name with its last "-" replaced by "/", so an app name
    with hyphens is kept ("postgresql-k8s-0" gives "postgresql-k8s/0"); a
    pod name without "-" gives a unit name that starts with "/". *)
Theorem from_pod_spec pod :
  (metadata_labels_controller_revision_hash pod = None → from_pod pod = Raised KeyError)
  ∧ (∀ controller_revision,
       metadata_labels_controller_revision_hash pod = Some controller_revision →
       ∃ unit_name,
         from_pod pod
         = Returned {| new_name := unit_name;
                       new_controller_revision := controller_revision;
                       new_pod_uid := metadata_uid pod |}
         ∧ (str_contains "-"%char (metadata_name pod) = false →
            unit_name = "/" +:+ metadata_name pod)
         ∧ ∀ app_name unit_number,
             metadata_name pod = app_name +:+ "-" +:+ unit_number →
             str_contains "-"%char unit_number = false →
             unit_name = app_name +:+ "/" +:+ unit_number).
Proof.
  unfold from_pod. cbv zeta.
  pose proof (str_split_nonempty "-"%char (metadata_name pod)) as Hne.
  destruct (last (str_split "-"%char (metadata_name pod))) as [unit_number |] eqn:Hlast.
  2: { apply last_None in Hlast. contradiction. }
  split; [intros ->; reflexivity |].
  intros controller_revision ->. eexists. split; [reflexivity |]. split.
  - intros H. rewrite (str_split_no_sep _ _ H) in Hlast |- *.
    injection Hlast as <-. reflexivity.
  - intros app_name unit_number' Hname Hnumber.
    change (app_name +:+ "-" +:+ unit_number') with (app_name +:+ String "-"%char unit_number')
      in Hname.
    rewrite Hname in Hlast |- *.
    destruct (str_split_last "-"%char app_name unit_number' Hnumber) as [Hlast' Hinit].
    rewrite Hlast' in Hlast. injection Hlast as <-.
    rewrite Hinit, (str_join_split "-"%char app_name). reflexivity.
Qed.

Lemma pinned_workload_container_version_image upstream_source :
  match pinned_workload_container_version_of upstream_source with
  | Returned digest =>
      String.prefix "sha256:" digest = true
      ∧ ∃ image,
          str_contains "@"%char image = false
          ∧ upstream_source = image +:+ "@" +:+ digest
          ∧ str_split "@"%char upstream_source = [image; digest]
  | Raised e => e = ValueError
  end.
Proof.
  unfold pinned_workload_container_version_of.
  pose proof (str_join_split "@"%char upstream_source) as Hjoin.
  pose proof (str_split_parts "@"%char upstream_source) as Hparts.
  destruct (str_split "@"%char upstream_source) as [| image [| digest [| ? ?]]];
    try reflexivity.
  inversion Hparts as [| ? ? Himage _]; subst.
  destruct (String.prefix "sha256:" digest) eqn:Hprefix; cbn [negb]; [| reflexivity].
  split; [exact Hprefix |]. exists image. split; [exact Himage |]. split; reflexivity.
Qed.

(** X11.  The pinned workload container digest is read from
    [upstream-source] exactly when that is [image@digest] with one "@" and
    a digest that starts with "sha256:"; then it is the digest.  Every other
    [upstream-source] raises [ValueError]. *)
Theorem pinned_workload_container_version_spec upstream_source :
  match pinned_workload_container_version_of upstream_source with
  | Returned digest =>
      String.prefix "sha256:" digest = true
      ∧ str_contains "@"%char digest = false
      ∧ ∃ image, str_contains "@"%char image = false
                 ∧ upstream_source = image +:+ "@" +:+ digest
  | Raised e =>
      e = ValueError
      ∧ ∀ image digest,
          upstream_source = image +:+ "@" +:+ digest →
          str_contains "@"%char image = false →
          str_contains "@"%char digest = false →
          String.prefix "sha256:" digest = false
  end.
Proof.
  unfold pinned_workload_container_version_of.
  pose proof (str_join_split "@"%char upstream_source) as Hjoin.
  pose proof (str_split_parts "@"%char upstream_source) as Hparts.
  assert (∀ image digest,
            upstream_source = image +:+ "@" +:+ digest →
            str_contains "@"%char image = false →
            str_contains "@"%char digest = false →
            str_split "@"%char upstream_source = [image; digest]) as Hsplit.
  { intros image digest -> Himage Hdigest.
    change (image +:+ "@" +:+ digest) with (image +:+ String "@"%char digest).
    rewrite str_split_app, (str_split_no_sep _ _ Himage), (str_split_no_sep _ _ Hdigest).
    reflexivity. }
  destruct (str_split "@"%char upstream_source) as [| image [| digest [| ? ?]]] eqn:Hs.
  - split; [reflexivity |]. intros image digest H1 H2 H3.
    specialize (Hsplit image digest H1 H2 H3). discriminate Hsplit.
  - split; [reflexivity |]. intros image' digest H1 H2 H3.
    specialize (Hsplit image' digest H1 H2 H3). discriminate Hsplit.
  - inversion Hparts as [| ? ? Himage Hrest]; subst.
    inversion Hrest as [| ? ? Hdigest _]; subst.
    destruct (String.prefix "sha256:" digest) eqn:Hprefix; cbn [negb].
    + split; [exact Hprefix |]. split; [exact Hdigest |].
      exists image. split; [exact Himage | reflexivity].
    + split; [reflexivity |]. intros image' digest' H1 H2 H3.
      specialize (Hsplit image' digest' H1 H2 H3). injection Hsplit as <- <-.
      exact Hprefix.
  - split; [reflexivity |]. intros image' digest' H1 H2 H3.
    specialize (Hsplit image' digest' H1 H2 H3). discriminate Hsplit.
Qed.

(** X12.  When [read_versions] returns, the charm version of
    [refresh_versions.toml] is a valid [CharmVersion], [metadata.yaml] names
    exactly one workload container, the pinned digest starts with "sha256:"
    and is what follows the "@" of [upstream-source]; and the installed
    digest, when there is one, comes from the [imageID] of the only
    container status of the workload container, which is then
    [name@digest].  It raises nothing but [KeyError], [ValueError] and
    [TypeError]. *)
Theorem read_versions_spec env :
  match read_versions env with
  | Returned versions =>
      refresh_versions_toml_charm env = Some (installed_charm_version versions)
      ∧ CharmVersion_valid env (installed_charm_version versions) = true
      ∧ refresh_versions_toml_workload env = Some (pinned_workload_version versions)
      ∧ String.prefix "sha256:" (pinned_workload_container_version versions) = true
      ∧ (∃ image workload_container statuses,
           metadata_yaml_upstream_source env
           = Some (image +:+ "@" +:+ pinned_workload_container_version versions)
           ∧ metadata_yaml_workload_containers env = [workload_container]
           ∧ this_pod_containerStatuses env = Some statuses
           ∧ match installed_workload_container_version versions with
             | Some digest =>
                 ∃ status,
                   filter (λ status, status_name status = workload_container) statuses
                   = [status]
                   ∧ imageID status
                     = installed_workload_image_name versions +:+ "@" +:+ digest
                   ∧ str_contains "@"%char digest = false
             | None =>
                 installed_workload_image_name versions = image
                 ∧ Forall (λ status, status_name status = workload_container →
                                     imageID status = "") statuses
             end)
  | Raised e => e = KeyError ∨ e = ValueError ∨ e = TypeError
  end.
Proof.
  unfold read_versions, RefreshVersions.from_file.
  destruct (refresh_versions_toml_charm env) as [charm |]; [| auto].
  destruct (CharmVersion_valid env charm) eqn:Hvalid; [| auto].
  destruct (refresh_versions_toml_workload env) as [workload |]; [| auto].
  destruct (metadata_yaml_upstream_source env) as [upstream_source |]; [| auto].
  pose proof (pinned_workload_container_version_image upstream_source) as Hpinned.
  destruct (pinned_workload_container_version_of upstream_source) as [digest | e];
    [| subst e; auto].
  destruct Hpinned as (Hprefix & image & Himage & Hsource & Hsplit).
  unfold workload_container_of.
  destruct (metadata_yaml_workload_containers env) as [| workload_container [| ? ?]];
    [auto | | auto].
  unfold installed_workload_image. rewrite Hsplit.
  destruct (this_pod_containerStatuses env) as [statuses |]; [| auto].
  destruct (filter _ statuses) as [| status [| ? ?]] eqn:Hfilter; [| | auto].
  - cbn. repeat (split; [reflexivity || assumption |]).
    exists image, workload_container, statuses. subst upstream_source.
    repeat (split; [reflexivity |]).
    apply Forall_forall. intros status Hin Hname.
    assert (status ∈ filter (λ status, status_name status = workload_container) statuses)
      as H by (apply list_elem_of_filter; split; assumption).
    rewrite Hfilter in H. apply elem_of_nil in H. contradiction.
  - cbv zeta. destruct (bool_decide (imageID status = "")) eqn:Hempty.
    + apply bool_decide_eq_true in Hempty.
      cbn. repeat (split; [reflexivity || assumption |]).
      exists image, workload_container, statuses. subst upstream_source.
      repeat (split; [reflexivity |]).
      apply Forall_forall. intros status' Hin Hname.
      assert (status' ∈ filter (λ status, status_name status = workload_container) statuses)
        as H by (apply list_elem_of_filter; split; assumption).
      rewrite Hfilter in H. apply list_elem_of_singleton in H. subst status'. exact Hempty.
    + pose proof (str_join_split "@"%char (imageID status)) as Hjoin.
      pose proof (str_split_parts "@"%char (imageID status)) as Hparts.
      destruct (str_split "@"%char (imageID status))
        as [| image_name [| image_digest [| ? ?]]]; [auto | auto | | auto].
      inversion Hparts as [| ? ? _ Hrest]; subst.
      inversion Hrest as [| ? ? Hdigest _]; subst.
      cbn. repeat (split; [reflexivity || assumption |]).
      exists image, workload_container, statuses.
      repeat (split; [reflexivity |]).
      exists status. split; [exact Hfilter |]. split; [| exact Hdigest].
      rewrite <- Hjoin. reflexivity.
Qed.

(** X13.  When the Juju app is not trusted, [__init__] raises
    [KubernetesJujuAppNotTrusted] before it reads the pods or the peer
    relation: no patch, no databag write, nothing told to the event; the
    leader sets the blocked app status that asks for [juju trust]. *)
Theorem init_requires_trust env w :
  status_allowed env = false →
  ∃ w',
    __init__ env w = (Raised KubernetesJujuAppNotTrusted, w')
    ∧ partition w' = partition w
    ∧ patches w' = patches w
    ∧ relation w' = relation w
    ∧ action_output w' = action_output w
    ∧ checks w' = checks w
    ∧ app_status w'
      = (if is_leader env then Some (BlockedStatus Run_juju_trust) else app_status w).
Proof.
  intros Htrust. unfold __init__. rewrite Htrust. cbn [negb].
  destruct (match event env with RelationDepartedEvent _ => _ | _ => false end);
    destruct (is_leader env); unfold_M; eexists; (split; [reflexivity |]);
    cbn; repeat split; reflexivity.
Qed.

Lemma init_requires_trust_witness :
  let env := guarded_env OtherEvent false true in
  ∃ w',
    __init__ env start_of_refresh = (Raised KubernetesJujuAppNotTrusted, w')
    ∧ partition w' = partition start_of_refresh
    ∧ patches w' = patches start_of_refresh
    ∧ relation w' = relation start_of_refresh
    ∧ action_output w' = action_output start_of_refresh
    ∧ checks w' = checks start_of_refresh
    ∧ app_status w' = Some (BlockedStatus Run_juju_trust).
Proof.
  cbv zeta.
  match goal with
  | |- ∃ w', __init__ ?env ?w = _ ∧ _ => exact (init_requires_trust env w eq_refl)
  end.
Defined.

(** X14.  On a trusted app, once this unit's pod is found: when this unit
    is tearing down (the local state says so, or the event is the departure
    of this unit from the peer relation), [__init__] raises
    [UnitTearingDown] without a patch and without reading or writing the
    peer relation.  It records the teardown in the local state and fails a
    refresh action with "Unit tearing down". *)
Theorem init_on_unit_tearing_down env w this_unit :
  status_allowed env = true →
  List.find (λ unit, bool_decide (number unit = charm_unit env)) (sorted_reverse (pods env))
  = Some this_unit →
  kubernetes_unit_tearing_down (local_state w) = true
  ∨ event env
    = RelationDepartedEvent {| unit_app := charm_app env; unit_number := charm_unit env |} →
  ∃ w',
    __init__ env w = (Raised UnitTearingDown, w')
    ∧ partition w' = partition w
    ∧ patches w' = patches w
    ∧ relation w' = relation w
    ∧ app_status w' = app_status w
    ∧ checks w' = checks w
    ∧ kubernetes_unit_tearing_down (local_state w') = true
    ∧ kubernetes_unit_tearing_down_logged (local_state w') = true
    ∧ action_output w'
      = action_output w
        ++ (if is_refresh_action (event env) then [Fail Unit_tearing_down] else []).
Proof.
  intros Htrust Hfind Htearing. unfold __init__. rewrite Htrust, Hfind. cbn [negb].
  destruct (match event env with RelationDepartedEvent _ => _ | _ => false end) eqn:Hevent.
  - unfold_M.
    cbn [local_state with_tearing_down kubernetes_unit_tearing_down
         kubernetes_unit_tearing_down_logged].
    destruct (is_refresh_action (event env));
      destruct (kubernetes_unit_tearing_down_logged (local_state w)) eqn:Hlogged;
      cbn; eexists; (split; [reflexivity |]); cbn; rewrite ?app_nil_r;
      repeat split; first [reflexivity | assumption].
  - destruct Htearing as [Htearing | Htearing].
    2: { rewrite Htearing in Hevent. rewrite bool_decide_eq_true_2 in Hevent by reflexivity.
         discriminate Hevent. }
    rewrite when_false_bind.
    unfold get_local_state at 1. unfold mbind at 1, M_bind at 1. rewrite Htearing.
    unfold_M.
    destruct (is_refresh_action (event env));
      destruct (kubernetes_unit_tearing_down_logged (local_state w)) eqn:Hlogged;
      cbn; eexists; (split; [reflexivity |]); cbn; rewrite ?app_nil_r;
      repeat split; first [reflexivity | assumption].
Qed.

Lemma init_on_unit_tearing_down_witness :
  let env :=
    Deployment.env
      (RelationDepartedEvent {| unit_app := "postgresql-k8s"; unit_number := 2 |})
      2 true "all" in
  ∃ w',
    __init__ env start_of_refresh = (Raised UnitTearingDown, w')
    ∧ partition w' = partition start_of_refresh
    ∧ patches w' = patches start_of_refresh
    ∧ relation w' = relation start_of_refresh
    ∧ app_status w' = app_status start_of_refresh
    ∧ checks w' = checks start_of_refresh
    ∧ kubernetes_unit_tearing_down (local_state w') = true
    ∧ kubernetes_unit_tearing_down_logged (local_state w') = true
    ∧ action_output w' = action_output start_of_refresh ++ [].
Proof.
  cbv zeta.
  apply (init_on_unit_tearing_down
           (Deployment.env
              (RelationDepartedEvent {| unit_app := "postgresql-k8s"; unit_number := 2 |})
              2 true "all")
           start_of_refresh Deployment.unit2); [reflexivity | reflexivity |].
  right. reflexivity.
Defined.

(** X15.  When the peer relation is not yet available (and the app is
    trusted, this unit's pod is found and the unit is not tearing down),
    [__init__] raises [PeerRelationMissing].  All it has done by then is
    raise the partition to this unit's number, if the event is a stop event
    during a refresh and the partition is lower. *)
Theorem init_without_peer_relation env w this_unit :
  status_allowed env = true →
  List.find (λ unit, bool_decide (number unit = charm_unit env)) (sorted_reverse (pods env))
  = Some this_unit →
  kubernetes_unit_tearing_down (local_state w) = false →
  event env
  ≠ RelationDepartedEvent {| unit_app := charm_app env; unit_number := charm_unit env |} →
  peer_relation_available env = false →
  let raised :=
    is_StopEvent (event env) && in_progress_of env (sorted_reverse (pods env))
    && (partition w <? charm_unit env) in
  __init__ env w
  = (Raised PeerRelationMissing,
     {| partition := if raised then charm_unit env else partition w;
        patches := patches w ++ (if raised then [charm_unit env] else []);
        local_state := local_state w;
        relation := relation w;
        action_output := action_output w;
        app_status := app_status w;
        checks := checks w |}).
Proof.
  intros Htrust Hfind Htearing Hevent Hpeer. cbv zeta. unfold __init__.
  assert (match event env with
          | RelationDepartedEvent departing_unit =>
              bool_decide (departing_unit
                           = {| unit_app := charm_app env; unit_number := charm_unit env |})
          | _ => false
          end = false) as ->.
  { destruct (event env) as [| departing_unit | |]; try reflexivity.
    apply bool_decide_eq_false_2. intros ->. apply Hevent. reflexivity. }
  rewrite when_false_bind, Htrust, Hfind, Hpeer. cbn [negb].
  unfold get_local_state at 1. unfold mbind at 1, M_bind at 1. rewrite Htearing.
  unfold raise_partition. unfold_M. cbn [partition].
  destruct (is_StopEvent (event env) && in_progress_of env (sorted_reverse (pods env)));
    cbn [andb]; [| rewrite app_nil_r; destruct w; reflexivity].
  destruct (partition w <? charm_unit env); [reflexivity |].
  rewrite app_nil_r. destruct w. reflexivity.
Qed.

Lemma init_without_peer_relation_witness :
  let env := guarded_env StopEvent true false in
  let w := Deployment.world 1 Deployment.empty_relation in
  __init__ env w
  = (Raised PeerRelationMissing,
     {| partition := 2; patches := [] ++ [2]; local_state := local_state w;
        relation := relation w; action_output := action_output w;
        app_status := app_status w; checks := checks w |}).
Proof.
  cbv zeta.
  match goal with
  | |- __init__ ?env ?w = _ =>
      exact (init_without_peer_relation env w Deployment.unit2 eq_refl eq_refl eq_refl
               ltac:(discriminate) eq_refl)
  end.
Defined.

(** What [__init__] leaves, from the first use of the peer relation on,
    when no refresh is in progress. *)
Lemma evaluation_not_in_progress_result env units this_unit w self1 w1 :
  in_progress_of env units = false →
  (self ← set_attributes env units this_unit false;
   self ← _start_refresh env self;
   _set_partition_and_app_status env self true) w = (Returned self1, w1) →
  ∃ d l app versions,
    read_versions env = Returned versions
    ∧ cleaned env d l
    ∧ (is_leader env = true →
       ∀ hashes, saved_app_databag env (with_app_refresh_started app hashes) = app)
    ∧ negb (is_leader env && truthy (this_pod_image_digest env))
      || versions_readable (CharmVersion_valid env) app = true
    ∧ relation w1 = put (relation w) (charm_unit env) d app
    ∧ local_state w1 = l
    ∧ partition w1 = (if is_leader env then 0 else partition w)
    ∧ patches w1
      = patches w ++ (if is_leader env && negb (bool_decide (partition w = 0))
                      then [0] else [])
    ∧ _in_progress self1 = false
    ∧ _unit_status_higher_priority self1 = None.
Proof.
  intros Hprogress H.
  pose proof (set_attributes_closed_form env units this_unit false w) as HA.
  destruct (read_versions env) as [versions | e0] eqn:Hversions.
  2: { destruct HA as (e & w' & HA). rewrite (bind_raised _ _ _ _ _ HA) in H. discriminate H. }
  destruct (attributes_closed_form env units this_unit false w) as [[selfA wA] |] eqn:Hclosed.
  2: { destruct HA as (e & w' & HA). rewrite (bind_raised _ _ _ _ _ HA) in H. discriminate H. }
  rewrite (bind_eq _ _ _ _ _ HA) in H. clear HA.
  apply (attributes_closed_form_not_in_progress env units this_unit w selfA wA Hprogress)
    in Hclosed.
  cbv zeta in Hclosed.
  destruct Hclosed as (d & l & app & units_not_tearing_down & pause_after & Hcleaned
                       & _ & _ & _ & Hsaved & Hreadable & HselfA & HwA).
  destruct units as [| first_unit rest].
  { rewrite (bind_raised _ _ _ _ _ (_start_refresh_no_units env selfA wA
                                      ltac:(rewrite HselfA; reflexivity))) in H.
    discriminate H. }
  destruct (_start_refresh_run env selfA wA first_unit rest ltac:(rewrite HselfA; reflexivity))
    as (out & cs & _ & Hrun).
  replace (_in_progress selfA) with false in Hrun by (rewrite HselfA; reflexivity).
  rewrite (bind_eq _ _ _ _ _ Hrun) in H. clear Hrun.
  rewrite policy_not_in_progress in H by (rewrite HselfA; reflexivity).
  injection H as <- <-.
  exists d, l, app, versions. rewrite HselfA, HwA.
  split; [reflexivity |].
  split; [exact Hcleaned |]. split; [exact Hsaved |]. split; [exact Hreadable |].
  cbn. repeat split.
Qed.

Lemma raised_during_stop_event_at_rest env w :
  in_progress_of env (sorted_reverse (pods env)) = false →
  raised_during_stop_event env w = w.
Proof.
  intros H. unfold raised_during_stop_event. rewrite H, andb_false_r. reflexivity.
Qed.

(** X16.  When no refresh is in progress, an evaluation of [__init__] that
    returns leaves this unit's part of the refresh state clean.  The unit's
    databag holds the current [pause_after_unit_refresh] config and neither
    "refresh_started_if_app_controller_revision_hash_in" nor
    "pod_uids_of_units_that_are_tearing_down"; the local state has the file
    that marks the opportunity to raise the partition, and neither the
    refresh-started file nor the list of pods that are tearing down.  No
    unit status of higher priority is set, and only the leader patches the
    partition. *)
Theorem state_is_clean_when_no_refresh_in_progress env w self1 w1 :
  in_progress_of env (sorted_reverse (pods env)) = false →
  __init__ env w = (Returned self1, w1) →
  let d := relation_get (relation w1) (charm_unit env) in
  let l := local_state w1 in
  pause_after_unit_refresh_config d = Some (config_pause_after_unit_refresh env)
  ∧ refresh_started_if_app_controller_revision_hash_in d = None
  ∧ pod_uids_of_units_that_are_tearing_down d = None
  ∧ kubernetes_had_opportunity_to_raise_partition_after_pod_restart l = true
  ∧ kubernetes_refresh_started l = false
  ∧ kubernetes_pod_ids_of_units_that_are_tearing_down_json l = None
  ∧ _in_progress self1 = false
  ∧ _unit_status_higher_priority self1 = None
  ∧ (is_leader env = false → partition w1 = partition w ∧ patches w1 = patches w).
Proof.
  intros Hprogress H. cbv zeta.
  destruct (__init___returned _ _ _ _ H) as (this_unit & _ & Htearing & Hbody).
  rewrite (Hbody w Htearing), (raised_during_stop_event_at_rest env w Hprogress) in H.
  rewrite Hprogress in H.
  destruct (evaluation_not_in_progress_result env _ this_unit w self1 w1 Hprogress H)
    as (d & l & app & versions & _ & (Hhad & Hpause & Hjson & Hstarted & Huids & Hhashes)
        & _ & _ & Hrelation & Hlocal & Hpartition & Hpatches & Hself & Hunit).
  rewrite Hrelation, relation_get_put_eq, Hlocal.
  repeat (split; [assumption |]).
  intros Hleader. rewrite Hpartition, Hpatches, Hleader. cbn. rewrite app_nil_r.
  split; reflexivity.
Qed.

Lemma state_is_clean_when_no_refresh_in_progress_witness :
  let env := AtRest.env 1 false in
  let w := Deployment.world 2 relation_unit2_allowed in
  let result := __init__ env w in
  ∃ self1,
    result = (Returned self1, result.2)
    ∧ pause_after_unit_refresh_config (relation_get (relation result.2) 1) = Some "first"
    ∧ refresh_started_if_app_controller_revision_hash_in
        (relation_get (relation result.2) 1) = None
    ∧ partition result.2 = 2.
Proof.
  cbv zeta. eexists. split; [vm_compute; reflexivity |].
  match goal with
  | |- context [__init__ ?env ?w] =>
      destruct (state_is_clean_when_no_refresh_in_progress env w _ (__init__ env w).2
                  eq_refl ltac:(vm_compute; reflexivity))
        as (H1 & H2 & _ & _ & _ & _ & _ & _ & H3)
  end.
  split; [exact H1 |]. split; [exact H2 |]. exact (proj1 (H3 eq_refl)).
Defined.

(** X17.  When no refresh is in progress, an evaluation of [__init__] that
    returns on the leader leaves the partition at 0 and the app databag
    without "refresh_started_if_app_controller_revision_hash_in".  If this
    unit's workload container digest is known, the app databag then holds
    the snapshot of the installed versions for the next refresh: the
    installed charm version and revision and the installed container, with
    the pinned workload version exactly when the container is the pinned
    one. *)
Theorem leader_saves_versions_when_no_refresh_in_progress env w self1 w1 :
  in_progress_of env (sorted_reverse (pods env)) = false →
  is_leader env = true →
  __init__ env w = (Returned self1, w1) →
  partition w1 = 0
  ∧ app_refresh_started_if_app_controller_revision_hash_in (my_app (relation w1)) = None
  ∧ ∃ versions,
      read_versions env = Returned versions
      ∧ ∀ container,
          installed_workload_container_version versions = Some container →
          container ≠ "" →
          OriginalVersions.from_app_databag (CharmVersion_valid env) (my_app (relation w1))
          = Returned
              {| OriginalVersions.workload :=
                   if bool_decide (container = pinned_workload_container_version versions)
                   then Some (pinned_workload_version versions) else None;
                 OriginalVersions.workload_container := container;
                 OriginalVersions.installed_workload_container_matched_pinned_container :=
                   bool_decide (container = pinned_workload_container_version versions);
                 OriginalVersions.charm := installed_charm_version versions;
                 OriginalVersions.charm_revision_raw := juju_charm_file env |}.
Proof.
  intros Hprogress Hleader H.
  destruct (__init___returned _ _ _ _ H) as (this_unit & _ & Htearing & Hbody).
  rewrite (Hbody w Htearing), (raised_during_stop_event_at_rest env w Hprogress) in H.
  rewrite Hprogress in H.
  destruct (evaluation_not_in_progress_result env _ this_unit w self1 w1 Hprogress H)
    as (d & l & app & versions & Hversions & _ & Hsaved & Hreadable & Hrelation & _
        & Hpartition & _).
  rewrite Hrelation, my_app_put, Hpartition, Hleader.
  specialize (Hsaved Hleader None). rewrite Hleader in Hreadable.
  split; [reflexivity |]. split.
  { rewrite <- Hsaved. unfold saved_app_databag.
    destruct (this_pod_image_digest env); [destruct (truthy _) |]; reflexivity. }
  exists versions. split; [exact Hversions |].
  destruct (read_versions_returned env versions Hversions) as (-> & -> & -> & ->).
  intros container Hcontainer Hne.
  assert (truthy (this_pod_image_digest env) = true) as Htruthy.
  { rewrite Hcontainer. cbn. rewrite bool_decide_eq_false_2 by exact Hne. reflexivity. }
  rewrite Htruthy in Hreadable. cbn [andb negb orb] in Hreadable.
  unfold saved_app_databag in Hsaved. rewrite Hcontainer in Hsaved.
  rewrite <- Hcontainer, Htruthy in Hsaved. rewrite Hcontainer in Hsaved.
  unfold versions_readable in Hreadable. rewrite <- Hsaved in Hreadable |- *.
  unfold OriginalVersions.from_app_databag in Hreadable |- *.
  cbn [original_workload_version original_workload_container_version
       original_installed_workload_container_matched_pinned_container
       original_charm_version original_charm_revision] in Hreadable |- *.
  destruct (CharmVersion_valid env (refresh_versions_charm env)); [| discriminate Hreadable].
  unfold OriginalVersions.new, OriginalVersions.__post_init__.
  cbn [OriginalVersions.workload
       OriginalVersions.installed_workload_container_matched_pinned_container].
  destruct (bool_decide (container = upstream_source_digest env)); reflexivity.
Qed.

Lemma leader_saves_versions_when_no_refresh_in_progress_witness :
  let env := AtRest.env 2 true in
  let w := Deployment.world 2 relation_unit2_allowed in
  let result := __init__ env w in
  ∃ self1,
    result = (Returned self1, result.2)
    ∧ partition result.2 = 0
    ∧ OriginalVersions.from_app_databag (λ _, true) (my_app (relation result.2))
      = Returned
          {| OriginalVersions.workload := Some "14.12";
             OriginalVersions.workload_container := "sha256:new";
             OriginalVersions.installed_workload_container_matched_pinned_container := true;
             OriginalVersions.charm := "14/1.1.0";
             OriginalVersions.charm_revision_raw := "ch:amd64/jammy/postgresql-k8s-2" |}.
Proof.
  cbv zeta. eexists. split; [vm_compute; reflexivity |].
  match goal with
  | |- context [__init__ ?env ?w] =>
      destruct (leader_saves_versions_when_no_refresh_in_progress env w _ (__init__ env w).2
                  eq_refl eq_refl ltac:(vm_compute; reflexivity))
        as (H1 & _ & versions & Hversions & H2)
  end.
  split; [exact H1 |].
  vm_compute in Hversions. injection Hversions as <-.
  exact (H2 "sha256:new" eq_refl ltac:(discriminate)).
Defined.

(** ** Charm code versions *)

Section CharmVersion_properties.

Context {Version : Type}.
Variable Version_new : string → option Version.
Variable release : Version → list Z.
Variable base_version : Version → string.
Variable Version_gt : Version → Version → bool.

(** X18.  [CharmVersion(version)] raises only [ValueError].  When it
    returns, [str] gives [version] back, [version] is the track, "/" and a
    PEP 440 version that [packaging] accepts, without "/" and without "!",
    whose release has three components, the first of which is [major]; the
    version is [released] exactly when the PEP 440 part is its own base
    version.  A version without "/" or with more than one is refused. *)
Theorem CharmVersion_init_spec version :
  match CharmVersion.__init__ Version_new release base_version version with
  | Returned self =>
      CharmVersion.__str__ self = version
      ∧ str_contains "/"%char (CharmVersion.track self) = false
      ∧ ∃ pep440_version minor patch,
          version = CharmVersion.track self +:+ "/" +:+ pep440_version
          ∧ str_contains "/"%char pep440_version = false
          ∧ str_contains "!"%char pep440_version = false
          ∧ Version_new pep440_version = Some (CharmVersion._pep440_version self)
          ∧ release (CharmVersion._pep440_version self)
            = [CharmVersion.major self; minor; patch]
          ∧ CharmVersion.released self
            = bool_decide (pep440_version
                           = base_version (CharmVersion._pep440_version self))
  | Raised e =>
      e = ValueError
      ∧ ∀ track pep440_version,
          version = track +:+ "/" +:+ pep440_version →
          str_contains "/"%char track = false →
          str_contains "/"%char pep440_version = false →
          str_contains "!"%char pep440_version = true
          ∨ match Version_new pep440_version with
            | None => True
            | Some pep440 => length (release pep440) ≠ 3%nat
            end
  end.
Proof.
  unfold CharmVersion.__init__.
  pose proof (str_join_split "/"%char version) as Hjoin.
  pose proof (str_split_parts "/"%char version) as Hparts.
  assert (∀ track pep440_version,
            version = track +:+ "/" +:+ pep440_version →
            str_contains "/"%char track = false →
            str_contains "/"%char pep440_version = false →
            str_split "/"%char version = [track; pep440_version]) as Hsplit.
  { intros track pep440_version -> Htrack Hpep.
    change (track +:+ "/" +:+ pep440_version) with (track +:+ String "/"%char pep440_version).
    rewrite str_split_app, (str_split_no_sep _ _ Htrack), (str_split_no_sep _ _ Hpep).
    reflexivity. }
  destruct (str_split "/"%char version) as [| track [| pep440_version [| ? ?]]] eqn:Hs;
    try (split; [reflexivity |]; intros track' pep' H1 H2 H3;
         specialize (Hsplit track' pep' H1 H2 H3); discriminate Hsplit).
  inversion Hparts as [| ? ? Htrack Hrest]; subst.
  inversion Hrest as [| ? ? Hpep _]; subst.
  destruct (str_contains "!"%char pep440_version) eqn:Hepoch.
  { split; [reflexivity |]. intros track' pep' H1 H2 H3.
    specialize (Hsplit track' pep' H1 H2 H3). injection Hsplit as <- <-.
    left. exact Hepoch. }
  destruct (Version_new pep440_version) as [pep440 |] eqn:Hnew.
  2: { split; [reflexivity |]. intros track' pep' H1 H2 H3.
       specialize (Hsplit track' pep' H1 H2 H3). injection Hsplit as <- <-.
       right. rewrite Hnew. exact I. }
  destruct (bool_decide (length (release pep440) = 3%nat)) eqn:Hlength; cbn [negb].
  2: { split; [reflexivity |]. intros track' pep' H1 H2 H3.
       specialize (Hsplit track' pep' H1 H2 H3). injection Hsplit as <- <-.
       right. rewrite Hnew. apply bool_decide_eq_false in Hlength. exact Hlength. }
  apply bool_decide_eq_true in Hlength.
  destruct (release pep440) as [| major [| minor [| patch [| ? ?]]]] eqn:Hrelease;
    try discriminate Hlength.
  cbn. split; [reflexivity |]. split; [exact Htrack |].
  exists pep440_version, minor, patch.
  repeat split; try assumption; try reflexivity.
Qed.

(** X19.  The default compatibility of charm versions.  It is [True] only
    from a released version to a released version of the same major and the
    same track that is the same version or a higher one.  It raises, and
    then [ValueError], exactly for two released versions of the same major
    and different tracks: the majors are compared before the tracks.  A
    released version is compatible with itself, which a rollback needs.  [is_compatible], as
    [CharmSpecific] defines it, is this test whatever the workload versions
    are. *)
Theorem default_charm_version_compatibility (old new : CharmVersion.CharmVersion Version) :
  (CharmVersion._is_charm_version_compatible Version_gt old new = Returned true
   ↔ CharmVersion.released old = true
     ∧ CharmVersion.released new = true
     ∧ CharmVersion.major old = CharmVersion.major new
     ∧ CharmVersion.track old = CharmVersion.track new
     ∧ (Version_gt (CharmVersion._pep440_version new) (CharmVersion._pep440_version old)
        = true
        ∨ CharmVersion.__str__ new = CharmVersion.__str__ old))
  ∧ (∀ e, CharmVersion._is_charm_version_compatible Version_gt old new = Raised e
          ↔ e = ValueError
            ∧ CharmVersion.released old = true
            ∧ CharmVersion.released new = true
            ∧ CharmVersion.major old = CharmVersion.major new
            ∧ CharmVersion.track old ≠ CharmVersion.track new)
  ∧ (CharmVersion.released old = true →
     CharmVersion._is_charm_version_compatible Version_gt old old = Returned true)
  ∧ (∀ old_workload_version new_workload_version,
       CharmVersion.is_compatible Version_gt old new old_workload_version
         new_workload_version
       = CharmVersion._is_charm_version_compatible Version_gt old new).
Proof.
  unfold CharmVersion.is_compatible, CharmVersion._is_charm_version_compatible,
    CharmVersion.__ge__, CharmVersion.__gt__, CharmVersion.__eq__, CharmVersion.__str__.
  split; [| split; [| split]].
  - destruct (CharmVersion.released old), (CharmVersion.released new); cbn [andb negb];
      try (split; [discriminate | intros (? & ? & _); discriminate]).
    destruct (bool_decide (CharmVersion.major old = CharmVersion.major new)) eqn:Hmajor;
      cbn [negb].
    2: { apply bool_decide_eq_false in Hmajor.
         split; [discriminate | intros (_ & _ & H & _); contradiction]. }
    apply bool_decide_eq_true in Hmajor.
    destruct (bool_decide (CharmVersion.track new = CharmVersion.track old)) eqn:Htrack;
      cbn [negb].
    2: { apply bool_decide_eq_false in Htrack.
         split; [discriminate | intros (_ & _ & _ & H & _); congruence]. }
    apply bool_decide_eq_true in Htrack.
    split.
    + intros H. injection H as H. apply orb_true_iff in H.
      repeat split; try assumption; try congruence.
      destruct H as [H | H]; [left; exact H | right; apply bool_decide_eq_true in H; exact H].
    + intros (_ & _ & _ & _ & [H | H]); f_equal; apply orb_true_iff;
        [left; exact H | right; apply bool_decide_eq_true; exact H].
  - intros e.
    destruct (CharmVersion.released old), (CharmVersion.released new); cbn [andb negb];
      try (split; [discriminate | intros (_ & ? & ? & _); discriminate]).
    destruct (bool_decide (CharmVersion.major old = CharmVersion.major new)) eqn:Hmajor;
      cbn [negb].
    2: { apply bool_decide_eq_false in Hmajor.
         split; [discriminate | intros (_ & _ & _ & H & _); contradiction]. }
    apply bool_decide_eq_true in Hmajor.
    destruct (bool_decide (CharmVersion.track new = CharmVersion.track old)) eqn:Htrack;
      cbn [negb].
    + apply bool_decide_eq_true in Htrack.
      split; [discriminate | intros (_ & _ & _ & _ & H); congruence].
    + apply bool_decide_eq_false in Htrack.
      split.
      * intros H. injection H as <-. repeat split; try assumption. congruence.
      * intros (-> & _). reflexivity.
  - intros ->. cbn [andb negb].
    rewrite !bool_decide_eq_true_2 by reflexivity. cbn [negb].
    rewrite orb_true_r. reflexivity.
  - intros _ _. destruct (negb _); [reflexivity |].
    destruct (negb (bool_decide (CharmVersion.major old = CharmVersion.major new)));
      [reflexivity |].
    destruct (negb (bool_decide (CharmVersion.track new = CharmVersion.track old)));
      [reflexivity |].
    destruct (_ || _); reflexivity.
Qed.

End CharmVersion_properties.

(** ** [_start_refresh] away from the first unit to refresh *)

(** X20.  On a unit that is not the first unit to refresh, or that does
    not run the app's controller revision yet, [_start_refresh] enters no
    check, writes to no databag and to no file, patches nothing and sets no
    unit status; [_refresh_started] is only what the databags say.  A
    [force-refresh-start] action there fails with one message, and any
    other event gets no output. *)
Theorem start_refresh_only_on_first_unit env self w first_unit rest :
  _units self = first_unit :: rest →
  charm_unit env ≠ number first_unit
  ∨ _unit_controller_revision self ≠ _app_controller_revision self →
  ∃ self' out,
    _start_refresh env self w = (Returned self', with_outputs w out [])
    ∧ _unit_status_higher_priority self' = None
    ∧ _refresh_started self'
      = (if _in_progress self then refresh_started_in_databags self (relation w)
         else _refresh_started self)
    ∧ (is_force_refresh_start (event env) = false → out = [])
    ∧ (is_force_refresh_start (event env) = true → ∃ message, out = [Fail message]).
Proof.
  intros Hunits Hother. unfold _start_refresh. rewrite Hunits.
  unfold _ForceRefreshStartAction__init__, is_force_refresh_start, if_force_start.
  assert (negb (bool_decide (charm_unit env = number first_unit)) = false →
          negb (bool_decide (_unit_controller_revision self = _app_controller_revision self))
          = true) as Hrevision.
  { intros H. apply negb_false_iff, bool_decide_eq_true in H.
    destruct Hother as [Hother | Hother]; [contradiction |].
    rewrite (bool_decide_eq_false_2 _ Hother). reflexivity. }
  destruct (negb (bool_decide (charm_unit env = number first_unit))) eqn:Hfirst;
    [clear Hrevision | specialize (Hrevision eq_refl)];
    destruct (_in_progress self) eqn:Hprogress;
    destruct (event env) as [[| cwc cc rprc | |] | | |];
    try destruct (any_parameter_is_False _);
    unfold_M;
    cbn [_unit_controller_revision _app_controller_revision with__refresh_started
         with__unit_status_higher_priority _in_progress _units negb fst snd];
    rewrite ?Hprogress, ?Hfirst, ?Hrevision; cbn;
    rewrite ?Hprogress, ?Hfirst, ?Hrevision; cbn;
    first [eexists _, []; split; [rewrite with_outputs_nil; reflexivity |]
          | eexists _, [_]; split; [solve_outputs |]];
    repeat split; try discriminate; try reflexivity; eauto.
Qed.

Lemma start_refresh_only_on_first_unit_witness :
  let env := Deployment.env (ActionEvent (force_refresh_start false true true)) 1 false "all" in
  let w := Deployment.world 2 Deployment.empty_relation in
  ∃ self' message,
    _start_refresh env refreshed_self w = (Returned self', with_outputs w [Fail message] [])
    ∧ _refresh_started self' = false.
Proof.
  cbv zeta.
  assert (_units refreshed_self = Deployment.unit2 :: [Deployment.unit1; Deployment.unit0])
    as Hunits by reflexivity.
  assert (charm_unit
            (Deployment.env (ActionEvent (force_refresh_start false true true)) 1 false "all")
          ≠ number Deployment.unit2) as Hother by discriminate.
  destruct (start_refresh_only_on_first_unit
              (Deployment.env (ActionEvent (force_refresh_start false true true)) 1 false "all")
              refreshed_self (Deployment.world 2 Deployment.empty_relation)
              Deployment.unit2 [Deployment.unit1; Deployment.unit0]
              Hunits (or_introl Hother))
    as (self' & out & H1 & _ & H3 & _ & H5).
  destruct (H5 eq_refl) as [message ->].
  exists self', message. split; [exact H1 |]. rewrite H3. vm_compute. reflexivity.
Defined.

(** ** The hashes that the leader gathers *)

Lemma append_if_missing_spec x acc :
  acc `prefix_of` append_if_missing x acc
  ∧ (∀ y, y ∈ append_if_missing x acc ↔ y ∈ acc ∨ y = x)
  ∧ (NoDup acc → NoDup (append_if_missing x acc)).
Proof.
  unfold append_if_missing. destruct (bool_decide (x ∈ acc)) eqn:Hin.
  - apply bool_decide_eq_true in Hin. split; [reflexivity |]. split; [| auto].
    intros y. split; [auto |]. intros [H | ->]; assumption.
  - apply bool_decide_eq_false in Hin. split; [apply prefix_app_r; reflexivity |]. split.
    + intros y. rewrite elem_of_app, list_elem_of_singleton. reflexivity.
    + intros H. apply NoDup_app. split; [exact H |]. split; [| apply NoDup_singleton].
      intros y Hy Hy'. apply list_elem_of_singleton in Hy'. subst y. contradiction.
Qed.

Lemma foldl_append_if_missing_spec xs acc :
  let result := foldl (λ hashes2 hash_, append_if_missing hash_ hashes2) acc xs in
  acc `prefix_of` result
  ∧ (∀ y, y ∈ result ↔ y ∈ acc ∨ y ∈ xs)
  ∧ (NoDup acc → NoDup result).
Proof.
  cbv zeta. revert acc. induction xs as [| x xs IH]; intros acc; cbn [foldl].
  - split; [reflexivity |]. split; [| auto].
    intros y. rewrite elem_of_nil. tauto.
  - destruct (append_if_missing_spec x acc) as (Hp & Hm & Hn).
    destruct (IH (append_if_missing x acc)) as (Hp' & Hm' & Hn').
    split; [etrans; eassumption |]. split; [| auto].
    intros y. rewrite Hm', Hm, elem_of_cons. tauto.
Qed.

Lemma gather_hashes_spec hashes_of units acc :
  acc `prefix_of` gather_hashes hashes_of units acc
  ∧ (∀ y, y ∈ gather_hashes hashes_of units acc
          ↔ y ∈ acc ∨ ∃ unit, unit ∈ units ∧ y ∈ hashes_of unit)
  ∧ (NoDup acc → NoDup (gather_hashes hashes_of units acc)).
Proof.
  unfold gather_hashes. revert acc. induction units as [| unit units IH]; intros acc;
    cbn [foldl].
  - split; [reflexivity |]. split; [| auto].
    intros y. split; [auto |]. intros [H | (unit & H & _)]; [exact H |].
    apply elem_of_nil in H. contradiction.
  - destruct (foldl_append_if_missing_spec (hashes_of unit) acc) as (Hp & Hm & Hn).
    cbv zeta in Hp, Hm, Hn.
    destruct (IH (foldl (λ hashes2 hash_, append_if_missing hash_ hashes2) acc
                    (hashes_of unit))) as (Hp' & Hm' & Hn').
    split; [etrans; eassumption |]. split; [| auto].
    intros y. rewrite Hm', Hm. split.
    + intros [[H | H] | (unit' & H & H')]; [left; exact H | |].
      * right. exists unit. split; [left | exact H].
      * right. exists unit'. split; [right; exact H | exact H'].
    + intros [H | (unit' & H & H')]; [left; left; exact H |].
      apply elem_of_cons in H as [-> | H]; [left; right; exact H' |].
      right. exists unit'. split; assumption.
Qed.

(** X21.  What the leader writes to the app databag under
    "refresh_started_if_app_controller_revision_hash_in": the hashes that
    the key held, in their order, followed by hashes of the unit databags.
    A hash is in the result exactly when the app databag or the databag of a
    unit held it, so no hash is lost when a unit has gone and none is made
    up; no hash is added twice.  The other keys of the app databag are as
    they were, and propagating again changes nothing. *)
Theorem propagate_refresh_started_to_app_spec r units :
  let old := default [] (app_refresh_started_if_app_controller_revision_hash_in (my_app r)) in
  let hashes_of (unit : _KubernetesUnit) :=
    default [] (refresh_started_if_app_controller_revision_hash_in
                  (relation_get r (number unit))) in
  ∃ hashes,
    propagate_refresh_started_to_app r units
    = with_app_refresh_started (my_app r) (Some hashes)
    ∧ old `prefix_of` hashes
    ∧ (∀ hash_, hash_ ∈ hashes ↔ hash_ ∈ old ∨ ∃ unit, unit ∈ units ∧ hash_ ∈ hashes_of unit)
    ∧ (NoDup old → NoDup hashes)
    ∧ propagate_refresh_started_to_app
        {| unit_databags := unit_databags r;
           my_app := propagate_refresh_started_to_app r units |} units
      = propagate_refresh_started_to_app r units.
Proof.
  cbv zeta. rewrite propagate_refresh_started_to_app_gather.
  eexists. split; [reflexivity |].
  destruct (gather_hashes_spec
              (λ unit, default [] (refresh_started_if_app_controller_revision_hash_in
                                     (relation_get r (number unit))))
              units
              (default [] (app_refresh_started_if_app_controller_revision_hash_in (my_app r))))
    as (Hp & Hm & Hn).
  split; [exact Hp |]. split; [exact Hm |]. split; [exact Hn |].
  rewrite <- propagate_refresh_started_to_app_gather.
  destruct r as [m a]. cbn [unit_databags].
  apply propagate_refresh_started_to_app_twice.
Qed.
